(** * transfr: station connectivity views and journey front end

    A shallow embedding of the pathfinding views of [views.sql] (the
    PostgreSQL view chain that turns OpenStreetMap stop-area relations into
    per-station way segments) and of the React components
    [JourneyResults.jsx] and [SearchBarDropDown.jsx].

    SQL relations are lists of rows (bags in some physical order); a view
    is a function from the snapshot to such a list.  SQL's three-valued
    logic is written out: a condition is an [option bool] with [None] for
    NULL, and a WHERE clause keeps a row only when its condition is
    [Some true]. *)

From Stdlib Require Import ZArith List Bool String Permutation Sorted Lia.
From stdpp Require Import base decidable option gmap strings.
Import ListNotations.

Local Open Scope Z_scope.
Local Open Scope string_scope.

(** ** SQL expressions *)

Module Sql.

(** [a = b] on a nullable text column and a literal. *)
Definition eq_text (a : option string) (b : string) : option bool :=
  match a with
  | None => None
  | Some x => Some (String.eqb x b)
  end.

(** [a IN (l)] for a list of literals. *)
Definition in_text (a : option string) (l : list string) : option bool :=
  match a with
  | None => None
  | Some x => Some (existsb (String.eqb x) l)
  end.

(** Kleene disjunction and conjunction. *)
Definition or3 (a b : option bool) : option bool :=
  match a, b with
  | Some true, _ | _, Some true => Some true
  | Some false, Some false => Some false
  | _, _ => None
  end.

Definition and3 (a b : option bool) : option bool :=
  match a, b with
  | Some false, _ | _, Some false => Some false
  | Some true, Some true => Some true
  | _, _ => None
  end.

(** [a IS DISTINCT FROM b]: never NULL. *)
Definition is_distinct_from (a : option string) (b : string) : bool :=
  match a with
  | None => true
  | Some x => negb (String.eqb x b)
  end.

(** A WHERE clause keeps the row only on TRUE. *)
Definition where_true (c : option bool) : bool :=
  match c with
  | Some true => true
  | _ => false
  end.

(** [tags ->> key] and [tags ? key] on a jsonb object of text values. *)
Definition get_text (tags : gmap string string) (key : string) : option string :=
  tags !! key.

Definition has_key (tags : gmap string string) (key : string) : bool :=
  match tags !! key with
  | Some _ => true
  | None => false
  end.

(** [x = ANY(arr)] and [a && b] on bigint arrays. *)
Definition eq_any (x : Z) (arr : list Z) : bool := existsb (Z.eqb x) arr.

Definition overlap (a b : list Z) : bool := existsb (fun x => eq_any x b) a.

(** [unnest(arr) WITH ORDINALITY]: ordinals start at 1. *)
Definition unnest_with_ordinality (arr : list Z) : list (Z * nat) :=
  combine arr (seq 1 (length arr)).

End Sql.

(** ** Base tables of the snapshot *)

Record osm_member := {
  mem_ref : Z;
  mem_role : string;
  mem_type : string
}.

Record osm_rel := {
  rel_id : Z;
  rel_tags : gmap string string;
  rel_members : list osm_member
}.

Record osm_way := {
  id : Z;
  nodes : list Z;
  tags : gmap string string
}.

Record snapshot := {
  planet_osm_rels : list osm_rel;
  planet_osm_ways : list osm_way
}.

(** ** Rows of the views *)

(** station_platform_ways *)
Record spw_row := {
  spw_relation_id : Z;
  spw_station_name : option string;
  way_ref : Z;
  member_role : string;
  member_type : string
}.

(** station_platform_nodes *)
Record spn_row := {
  spn_relation_id : Z;
  spn_station_name : option string;
  node_id : Z
}.

(** platform_edges_indexed *)
Record edge_row := {
  pe_relation_id : Z;
  pe_station_name : option string;
  pe_way_id : Z;
  pe_nodes : list Z;
  pe_tags : gmap string string;
  edge_ref : option string
}.

(** station_ways_with_nodes and the three views over it *)
Record way_row := {
  relation_id : Z;
  station_name : option string;
  way_id : Z;
  row_nodes : list Z;
  row_tags : gmap string string
}.

(** the CTE [ordered] of station_way_segments *)
Record ordered_row := {
  o_relation_id : Z;
  o_station_name : option string;
  o_way_id : Z;
  o_node_id : Z;
  ord : nat
}.

(** the CTE [with_next]: [node_to] is NULL on the last row of a partition *)
Record with_next_row := {
  n_relation_id : Z;
  n_station_name : option string;
  n_way_id : Z;
  n_node_from : Z;
  n_node_to : option Z
}.

(** station_way_segments *)
Record segment := {
  seg_relation_id : Z;
  seg_station_name : option string;
  seg_way_id : Z;
  node_from : Z;
  node_to : Z
}.

#[global] Instance way_row_eq_dec : EqDecision way_row.
Proof. solve_decision. Defined.

#[global] Instance segment_eq_dec : EqDecision segment.
Proof. solve_decision. Defined.

(** SELECT DISTINCT and UNION drop duplicate rows. *)
Definition distinct {A} `{EqDecision A} (l : list A) : list A :=
  nodup (fun x y => decide (x = y)) l.

(** ** The view chain of views.sql *)

Module Views.

(** The walkable filter shared by station_walkable_ways, the one-hop view
    and the partial index: the parenthesised disjunction. *)
Definition walkable_highways : list string :=
  [ "footway"; "steps"; "corridor"; "pedestrian";
    "path"; "cycleway"; "crossing";
    "elevator"; "escalator"; "platform"; "service" ].

Definition walkable_railways : list string := [ "platform"; "platform_edge" ].

Definition walkable_tag_cond (t : gmap string string) : option bool :=
  Sql.or3
    (Sql.or3 (Sql.in_text (Sql.get_text t "highway") walkable_highways)
             (Sql.in_text (Sql.get_text t "railway") walkable_railways))
    (Some (Sql.has_key t "conveying")).

(** The whole WHERE clause of station_walkable_ways (views.sql 154-161). *)
Definition walkable_cond (t : gmap string string) : option bool :=
  Sql.and3 (walkable_tag_cond t)
           (Some (Sql.is_distinct_from (Sql.get_text t "access") "private")).

Definition walkable (t : gmap string string) : bool :=
  Sql.where_true (walkable_cond t).

(** The predicate of the partial index idx_ways_walkable_nodes_gin
    (views.sql 27-35): the disjunction alone, without the access test. *)
Definition idx_ways_walkable_nodes_gin (t : gmap string string) : bool :=
  Sql.where_true (walkable_tag_cond t).

(** 1. station_platform_ways: one row per member of every
    public_transport=stop_area relation. *)
Definition is_stop_area (r : osm_rel) : bool :=
  Sql.where_true
    (Sql.and3 (Sql.eq_text (Sql.get_text (rel_tags r) "type") "public_transport")
              (Sql.eq_text (Sql.get_text (rel_tags r) "public_transport") "stop_area")).

Definition station_platform_ways (db : snapshot) : list spw_row :=
  flat_map
    (fun r =>
       map (fun m =>
              {| spw_relation_id := rel_id r;
                 spw_station_name := Sql.get_text (rel_tags r) "name";
                 way_ref := mem_ref m;
                 member_role := mem_role m;
                 member_type := mem_type m |})
           (rel_members r))
    (List.filter is_stop_area (planet_osm_rels db)).

(** 2. station_platform_nodes *)
Definition station_platform_nodes (db : snapshot) : list spn_row :=
  flat_map
    (fun spw =>
       flat_map
         (fun w =>
            if Z.eqb (id w) (way_ref spw)
               && String.eqb (member_role spw) "platform"
               && String.eqb (member_type spw) "W"
            then map (fun n =>
                        {| spn_relation_id := spw_relation_id spw;
                           spn_station_name := spw_station_name spw;
                           node_id := n |})
                     (nodes w)
            else [])
         (planet_osm_ways db))
    (station_platform_ways db).

(** 3. platform_edges_indexed: the lateral subquery gives the distinct
    stations owning a platform node of the way. *)
Definition stations_of_nodes (db : snapshot) (arr : list Z)
  : list (Z * option string) :=
  distinct
    (map (fun spn => (spn_relation_id spn, spn_station_name spn))
         (List.filter (fun spn => Sql.eq_any (node_id spn) arr)
                      (station_platform_nodes db))).

Definition platform_edges_indexed (db : snapshot) : list edge_row :=
  flat_map
    (fun w =>
       if Sql.where_true (Sql.eq_text (Sql.get_text (tags w) "railway") "platform_edge")
       then map (fun spn =>
                   {| pe_relation_id := fst spn;
                      pe_station_name := snd spn;
                      pe_way_id := id w;
                      pe_nodes := nodes w;
                      pe_tags := tags w;
                      edge_ref := Sql.get_text (tags w) "ref" |})
                (stations_of_nodes db (nodes w))
       else [])
    (planet_osm_ways db).

(** 4. station_ways_with_nodes *)
Definition station_ways_with_nodes (db : snapshot) : list way_row :=
  flat_map
    (fun spw =>
       flat_map
         (fun w =>
            if Z.eqb (id w) (way_ref spw) && String.eqb (member_type spw) "W"
            then [ {| relation_id := spw_relation_id spw;
                      station_name := spw_station_name spw;
                      way_id := id w;
                      row_nodes := nodes w;
                      row_tags := tags w |} ]
            else [])
         (planet_osm_ways db))
    (station_platform_ways db).

(** 5. station_walkable_ways *)
Definition station_walkable_ways (db : snapshot) : list way_row :=
  List.filter (fun s => walkable (row_tags s)) (station_ways_with_nodes db).

(** 6. station_pedestrian_ways_with_nodes *)
Definition station_pedestrian_ways_with_nodes (db : snapshot) : list way_row :=
  distinct
    (flat_map
       (fun w =>
          flat_map
            (fun s =>
               if Sql.overlap (nodes w) (row_nodes s) && walkable (tags w)
               then [ {| relation_id := relation_id s;
                         station_name := station_name s;
                         way_id := id w;
                         row_nodes := nodes w;
                         row_tags := tags w |} ]
               else [])
            (station_walkable_ways db))
       (planet_osm_ways db)).

(** 7. station_ways_with_nodes_plus_pedestrian *)
Definition station_ways_with_nodes_plus_pedestrian (db : snapshot) : list way_row :=
  distinct (station_walkable_ways db ++ station_pedestrian_ways_with_nodes db)%list.

(** 8. station_way_segments.

    CTE [ordered]: the lateral [unnest ... WITH ORDINALITY]. *)
Definition ordered_of (s : way_row) : list ordered_row :=
  map (fun t =>
         {| o_relation_id := relation_id s;
            o_station_name := station_name s;
            o_way_id := way_id s;
            o_node_id := fst t;
            ord := snd t |})
      (Sql.unnest_with_ordinality (row_nodes s)).

Definition ordered (db : snapshot) : list ordered_row :=
  flat_map ordered_of (station_ways_with_nodes_plus_pedestrian db).

(** The window [OVER (PARTITION BY way_id ORDER BY ord)]: the rows of one
    partition are those with the same [way_id], whatever their
    [relation_id]; they are sorted on [ord].  The statement leaves the
    order of rows with the same [ord] open; [order_by_ord] keeps them in
    the order they arrive in, which is one of the orders allowed (module
    [Window] below has all of them). *)
Fixpoint insert_by_ord (r : ordered_row) (l : list ordered_row) : list ordered_row :=
  match l with
  | [] => [r]
  | x :: tl =>
      if Nat.leb (ord r) (ord x) then r :: x :: tl
      else x :: insert_by_ord r tl
  end.

Fixpoint order_by_ord (l : list ordered_row) : list ordered_row :=
  match l with
  | [] => []
  | r :: tl => insert_by_ord r (order_by_ord tl)
  end.

Definition partition_of (v : Z) (l : list ordered_row) : list ordered_row :=
  List.filter (fun r => Z.eqb (o_way_id r) v) l.

Definition partition_keys (l : list ordered_row) : list Z :=
  distinct (map o_way_id l).

(** [lead(node_id)]: the [node_id] of the next row of the sorted
    partition, NULL on its last row. *)
Fixpoint lead_node_id (l : list ordered_row) : list with_next_row :=
  match l with
  | [] => []
  | r :: tl =>
      {| n_relation_id := o_relation_id r;
         n_station_name := o_station_name r;
         n_way_id := o_way_id r;
         n_node_from := o_node_id r;
         n_node_to := match tl with
                      | [] => None
                      | r' :: _ => Some (o_node_id r')
                      end |}
      :: lead_node_id tl
  end.

Definition window_lead (l : list ordered_row) : list with_next_row :=
  flat_map (fun v => lead_node_id (order_by_ord (partition_of v l)))
           (partition_keys l).

Definition with_next (db : snapshot) : list with_next_row :=
  window_lead (ordered db).

(** The final SELECT: [WHERE node_to IS NOT NULL]. *)
Definition not_null_segment (r : with_next_row) : list segment :=
  match n_node_to r with
  | Some t =>
      [ {| seg_relation_id := n_relation_id r;
           seg_station_name := n_station_name r;
           seg_way_id := n_way_id r;
           node_from := n_node_from r;
           node_to := t |} ]
  | None => []
  end.

Definition station_way_segments (db : snapshot) : list segment :=
  flat_map not_null_segment (with_next db).

(** The per-station reads of the views: [WHERE relation_id = r]. *)
Definition member_ways_of (db : snapshot) (r : Z) : list way_row :=
  List.filter (fun s => Z.eqb (relation_id s) r) (station_ways_with_nodes db).

Definition one_hop_ways_of (db : snapshot) (r : Z) : list way_row :=
  List.filter (fun s => Z.eqb (relation_id s) r)
              (station_pedestrian_ways_with_nodes db).

Definition union_ways_of (db : snapshot) (r : Z) : list way_row :=
  List.filter (fun s => Z.eqb (relation_id s) r)
              (station_ways_with_nodes_plus_pedestrian db).

Definition segments_of (db : snapshot) (r : Z) : list segment :=
  List.filter (fun s => Z.eqb (seg_relation_id s) r) (station_way_segments db).

Definition platform_edges_of (db : snapshot) (r : Z) : list edge_row :=
  List.filter (fun e => Z.eqb (pe_relation_id e) r) (platform_edges_indexed db).

End Views.

(** ** The walkable graph and the path search *)

Module Graph.

(** Modelled from the spec: the WalkableGraph of the Station Graph Builder
    (pathfind.py, which reads the views, is not among the sources).  Every
    node referenced by an included way is a graph node; the edges are the
    rows of station_way_segments for the station, read as undirected. *)
Record WalkableGraph := {
  graph_nodes : list Z;
  graph_edges : list segment
}.

(** Modelled from the spec: graph construction for station [r] (section
    4.1), the builder that reads the views being absent: the nodes of the
    union rows of the station and its rows of station_way_segments. *)
Definition build (db : snapshot) (r : Z) : WalkableGraph :=
  {| graph_nodes := distinct (flat_map row_nodes (Views.union_ways_of db r));
     graph_edges := Views.segments_of db r |}.

Definition empty : WalkableGraph := {| graph_nodes := []; graph_edges := [] |}.

Definition neighbours (es : list segment) (n : Z) : list Z :=
  flat_map
    (fun e =>
       ((if Z.eqb (node_from e) n then [node_to e] else [])
        ++ (if Z.eqb (node_to e) n then [node_from e] else []))%list)
    es.

(** Modelled from the spec: the Path Search Engine with uniform weights
    (section 4.2: breadth-first search on hop count when the nodes carry
    no coordinates).  The virtual source reaches every origin anchor and
    every destination anchor reaches the virtual sink at no cost.
    [budget] bounds the number of explored nodes; running out of it gives
    UNREACHABLE ([None]). *)
Fixpoint bfs (fuel budget : nat) (es : list segment) (dst frontier visited : list Z)
         (hops : nat) : option nat :=
  match fuel with
  | O => None
  | S fuel' =>
      if Nat.ltb budget (length frontier) then None
      else if existsb (fun n => Sql.eq_any n dst) frontier then Some hops
      else
        let next :=
          distinct
            (List.filter (fun n => negb (Sql.eq_any n visited))
                         (flat_map (neighbours es) frontier)) in
        match next with
        | [] => None
        | _ => bfs fuel' (budget - length frontier) es dst next
                   (visited ++ next)%list (S hops)
        end
  end.

Definition in_graph (g : WalkableGraph) (n : Z) : bool :=
  Sql.eq_any n (graph_nodes g).

(** Modelled from the spec: the search between two anchor sets (section
    4.2); anchors outside the graph are dropped. *)
Definition search (budget : nat) (g : WalkableGraph) (src dst : list Z) : option nat :=
  let src' := List.filter (in_graph g) src in
  let dst' := List.filter (in_graph g) dst in
  bfs (S budget) budget (graph_edges g) dst' src' src' 0.

End Graph.

(** ** The transfer feasibility evaluator *)

Module Evaluator.

(** Modelled from the spec: the verdicts, tiers and result of section 4.3;
    the evaluator is server code that is not among the sources. *)
Inductive verdict := FEASIBLE | MARGINAL | INFEASIBLE.

Inductive tier := Tier1 | Tier2 | Tier3 | Tier4.

Definition tier_number (t : tier) : nat :=
  match t with Tier1 => 1 | Tier2 => 2 | Tier3 => 3 | Tier4 => 4 end.

(** Modelled from the spec: the policy constants it leaves to
    configuration (section 9). *)
Record config := {
  MIN_SAME_PLATFORM_SECONDS : Z;
  walk_seconds : nat -> Z;
  connector_seconds : nat -> Z;
  fallback_distance : nat;
  fallback_seconds : Z;
  safety_buffer : Z;
  search_budget : nat
}.

Record result := {
  res_verdict : verdict;
  res_tier : tier;
  res_distance : option nat;
  res_seconds : Z
}.

(** The platform-edge rows of platform [p]: [edge_ref] is the platform
    label the views index the edges by. *)
Definition edges_of_platform (edges : list edge_row) (p : string) : list edge_row :=
  List.filter (fun e => Sql.where_true (Sql.eq_text (edge_ref e) p)) edges.

(** Modelled from the spec: the Tier-2 relationship; the check itself is
    in pathfind.py.  Two platforms adjoin when a platform edge of the one
    shares at least one node with a platform edge of the other. *)
Definition adjoining (edges : list edge_row) (pa pd : string) : bool :=
  existsb
    (fun ea => existsb (fun ed => Sql.overlap (pe_nodes ea) (pe_nodes ed))
                       (edges_of_platform edges pd))
    (edges_of_platform edges pa).

(** Modelled from the spec: the anchor of a platform, the graph nodes on
    its platform edges. *)
Definition anchor (g : Graph.WalkableGraph) (edges : list edge_row) (p : string)
  : list Z :=
  List.filter
    (fun n => existsb (fun e => Sql.eq_any n (pe_nodes e)) (edges_of_platform edges p))
    (Graph.graph_nodes g).

(** Modelled from the spec: the part of the graph Tier 2 may walk, the
    edges lying on the platform-edge ways of the station. *)
Definition buffer_graph (g : Graph.WalkableGraph) (edges : list edge_row)
  : Graph.WalkableGraph :=
  {| Graph.graph_nodes := Graph.graph_nodes g;
     Graph.graph_edges :=
       List.filter
         (fun s => existsb (fun e => Z.eqb (pe_way_id e) (seg_way_id s)) edges)
         (Graph.graph_edges g) |}.

(** Modelled from the spec: MARGINAL when the time is within the safety
    buffer of the window, else FEASIBLE or INFEASIBLE (section 4.3). *)
Definition classify (cfg : config) (seconds window : Z) : verdict :=
  if Z.leb (Z.abs (seconds - window)) (safety_buffer cfg) then MARGINAL
  else if Z.leb seconds window then FEASIBLE
  else INFEASIBLE.

Section Tiers.
Variable cfg : config.
Variable g : Graph.WalkableGraph.
Variable edges : list edge_row.
Variables P_a P_d : string.
Variable W : Z.

Definition tier1_condition : bool := String.eqb P_a P_d.

Definition tier2_path : option nat :=
  if adjoining edges P_a P_d
  then Graph.search (search_budget cfg) (buffer_graph g edges)
                    (anchor g edges P_a) (anchor g edges P_d)
  else None.

Definition tier3_path : option nat :=
  Graph.search (search_budget cfg) g (anchor g edges P_a) (anchor g edges P_d).

(** Modelled from the spec: what each tier answers once it applies. *)
Definition tier1_result : result :=
  {| res_verdict :=
       if Z.leb (MIN_SAME_PLATFORM_SECONDS cfg) W then FEASIBLE else INFEASIBLE;
     res_tier := Tier1;
     res_distance := Some 0%nat;
     res_seconds := MIN_SAME_PLATFORM_SECONDS cfg |}.

Definition tier2_result (d : nat) : result :=
  {| res_verdict := classify cfg (walk_seconds cfg d) W;
     res_tier := Tier2;
     res_distance := Some d;
     res_seconds := walk_seconds cfg d |}.

Definition tier3_result (d : nat) : result :=
  {| res_verdict := classify cfg (connector_seconds cfg d) W;
     res_tier := Tier3;
     res_distance := Some d;
     res_seconds := connector_seconds cfg d |}.

Definition tier4_result : result :=
  {| res_verdict := classify cfg (fallback_seconds cfg) W;
     res_tier := Tier4;
     res_distance := Some (fallback_distance cfg);
     res_seconds := fallback_seconds cfg |}.

(** Modelled from the spec: section 4.3, the tiers tried in order, the
    first that applies giving the result (the evaluator is server code
    that is not among the sources). *)
Definition evaluate : result :=
  if tier1_condition then tier1_result
  else
    match tier2_path with
    | Some d => tier2_result d
    | None =>
        match tier3_path with
        | Some d => tier3_result d
        | None => tier4_result
        end
    end.

(** Tier [t] taken on its own: its result when its condition applies. *)
Definition attempt (t : tier) : option result :=
  match t with
  | Tier1 => if tier1_condition then Some tier1_result else None
  | Tier2 => option_map tier2_result tier2_path
  | Tier3 => option_map tier3_result tier3_path
  | Tier4 => Some tier4_result
  end.

End Tiers.

(** Modelled from the spec: the evaluator at a station of the snapshot,
    on the graph and the platform edges the views give for it. *)
Definition evaluate_at (cfg : config) (db : snapshot) (r : Z)
           (P_a P_d : string) (W : Z) : result :=
  evaluate cfg (Graph.build db r) (Views.platform_edges_of db r) P_a P_d W.

End Evaluator.

(** ** The journey assembler *)

Module Journeys.

(** Modelled from the spec: the mode of a leg and a stop with its display
    name (section 3); the assembler is server code that is not among the
    sources. *)
Inductive mode := train | walking.

Record stop := { stop_id : Z; name : string }.

(** Modelled from the spec: a leg (section 3), with the fields
    JourneyResults.jsx reads from the response; times are seconds. *)
Record Leg := {
  leg_mode : mode;
  train_name : string;
  distance_m : Z;
  origin : stop;
  destination : stop;
  departure : Z;
  arrival : Z;
  departure_delay_s : Z;
  arrival_delay_s : Z;
  departure_platform : string;
  planned_departure_platform : string;
  arrival_platform : string;
  planned_arrival_platform : string;
  cancelled : bool
}.

(** Modelled from the spec: a journey (section 3), with the verdicts of
    its transfer points as annotation. *)
Record Journey := {
  legs : list Leg;
  duration_s : Z;
  num_changes : nat;
  transfer_results : list Evaluator.result
}.

(** Modelled from the spec: what the Real-time Feed answers for a trip
    (section 6). *)
Record delay_info := { delaySeconds : Z; platformOverride : option string }.

(** Modelled from the spec: a leg of an itinerary of the Train Schedule
    Source, with the trip it belongs to. *)
Record scheduled_leg := {
  trip_id : Z;
  sched : Leg
}.

(** Modelled from the spec: the leg with its delay-adjusted times and the
    platform override of the feed (section 4.4). *)
Definition recompute (feed : Z -> delay_info) (s : scheduled_leg) : Leg :=
  let d := feed (trip_id s) in
  let l := sched s in
  {| leg_mode := leg_mode l;
     train_name := train_name l;
     distance_m := distance_m l;
     origin := origin l;
     destination := destination l;
     departure := departure l + delaySeconds d;
     arrival := arrival l + delaySeconds d;
     departure_delay_s := delaySeconds d;
     arrival_delay_s := delaySeconds d;
     departure_platform :=
       match platformOverride d with
       | Some p => p
       | None => planned_departure_platform l
       end;
     planned_departure_platform := planned_departure_platform l;
     arrival_platform := planned_arrival_platform l;
     planned_arrival_platform := planned_arrival_platform l;
     cancelled := cancelled l |}.

Definition is_train (l : Leg) : bool :=
  match leg_mode l with train => true | walking => false end.

(** Modelled from the spec: the transfer points of a journey, its
    consecutive train legs. *)
Fixpoint consecutive (l : list Leg) : list (Leg * Leg) :=
  match l with
  | a :: (b :: _) as tl => (a, b) :: consecutive tl
  | _ => []
  end.

Definition transfers (ls : list Leg) : list (Leg * Leg) :=
  consecutive (List.filter is_train ls).

(** Modelled from the spec: the total duration, from the first departure
    to the last arrival. *)
Definition total_duration (ls : list Leg) : Z :=
  match ls with
  | [] => 0
  | first :: _ => arrival (List.last ls first) - departure first
  end.

Definition is_infeasible (r : Evaluator.result) : bool :=
  match Evaluator.res_verdict r with
  | Evaluator.INFEASIBLE => true
  | _ => false
  end.

(** Modelled from the spec: ascending total duration, ties broken by
    fewer changes (section 4.4). *)
Definition journey_leb (a b : Journey) : bool :=
  Z.ltb (duration_s a) (duration_s b)
  || (Z.eqb (duration_s a) (duration_s b)
      && Nat.leb (num_changes a) (num_changes b)).

(** The ranking as a relation: a shorter journey first, and of two
    journeys of one duration the one with no more changes. *)
Definition ranked_before (a b : Journey) : Prop :=
  duration_s a < duration_s b
  \/ (duration_s a = duration_s b /\ (num_changes a <= num_changes b)%nat).

Fixpoint insert_ranked (j : Journey) (l : list Journey) : list Journey :=
  match l with
  | [] => [j]
  | x :: tl => if journey_leb j x then j :: x :: tl else x :: insert_ranked j tl
  end.

Fixpoint rank (l : list Journey) : list Journey :=
  match l with
  | [] => []
  | j :: tl => insert_ranked j (rank tl)
  end.

Section Assembler.
(** The Transfer Feasibility Evaluator at a transfer point. *)
Variable feasibility : Leg -> Leg -> Evaluator.result.
Variable feed : Z -> delay_info.

Definition to_journey (it : list scheduled_leg) : Journey :=
  let ls := map (recompute feed) it in
  {| legs := ls;
     duration_s := total_duration ls;
     num_changes := length (transfers ls);
     transfer_results := map (fun p => feasibility (fst p) (snd p)) (transfers ls) |}.

Definition keeps (j : Journey) : bool :=
  negb (existsb is_infeasible (transfer_results j)).

(** Modelled from the spec: section 4.4 (the assembler is server code
    that is not among the sources).  Every itinerary is recomputed with
    the delays, every transfer point is evaluated, an itinerary with an
    INFEASIBLE transfer is dropped, the rest is ranked. *)
Definition assemble (itineraries : list (list scheduled_leg)) : list Journey :=
  rank (List.filter keeps (map to_journey itineraries)).

End Assembler.

(** Modelled from the spec: the evaluator of a transfer between two legs
    at the arrival station, over the available window. *)
Definition transfer_feasibility (cfg : Evaluator.config) (db : snapshot)
           (a d : Leg) : Evaluator.result :=
  Evaluator.evaluate_at cfg db (stop_id (destination a))
                        (arrival_platform a) (departure_platform d)
                        (departure d - arrival a).

End Journeys.

(** ** The front end *)

Module Js.

(** The JavaScript values a response field may hold. *)
Inductive value :=
| Undefined
| Null
| Boolean (b : bool)
| Number (n : Z)
| Str (s : string).

Definition truthy (v : value) : bool :=
  match v with
  | Undefined | Null => false
  | Boolean b => b
  | Number n => negb (Z.eqb n 0)
  | Str s => negb (String.eqb s "")
  end.

End Js.

Module JourneyResults.

(** The body of the /api/journeys response; [journeys] is [None] when the
    field is absent or null. *)
Record response := {
  error : Js.value;
  journeys : option (list Journeys.Journey);
  origin : option Journeys.stop;
  destination : option Journeys.stop
}.

(** What the component returns. *)
Inductive element :=
| results_loading
| nothing
| results_error (message : Js.value)
| results_empty
| journey_list (origin destination : option string)
               (cards : list Journeys.Journey).

(** JourneyResults.jsx, lines 1-28 and 66-146. *)
Definition JourneyResults (data : option response) (loading : bool) : element :=
  if loading then results_loading
  else
    match data with
    | None => nothing
    | Some data =>
        if Js.truthy (error data) then results_error (error data)
        else
          let journeys :=
            match journeys data with
            | Some js => js
            | None => []
            end in
          if Nat.eqb (length journeys) 0 then results_empty
          else journey_list (option_map Journeys.name (origin data))
                            (option_map Journeys.name (destination data))
                            journeys
    end.

End JourneyResults.

Module SearchBarDropDown.

Record station := { id : Z; name : string }.

(** What the network does with the autocomplete request: [fetch] rejects,
    or resolves to a response whose [ok] flag is given and whose
    [json()] rejects or parses to the station array. *)
Inductive json_outcome :=
| json_rejected
| json_data (data : list station).

Inductive fetch_outcome :=
| fetch_rejected
| fetch_resolved (ok : bool) (body : json_outcome).

(** The React state the handler writes: [inputVal] and [showDropdown] of
    SearchBar, [stations] of the dropdown. *)
Record state := {
  inputVal : string;
  showDropdown : bool;
  stations : list station
}.

(** What the handler does to the outside, in order. *)
Inductive event :=
| fetch (url : string)
| console_error
| completion.

(** State and event log threaded through the handler. *)
Definition M (A : Type) : Type := state * list event -> A * (state * list event).

Definition ret {A} (a : A) : M A := fun s => (a, s).

Definition bind {A B} (m : M A) (k : A -> M B) : M B :=
  fun s => let (a, s') := m s in k a s'.

Notation "m >>> k" := (bind m (fun _ => k))
  (at level 100, k at level 200, right associativity).

Definition setInputVal (v : string) : M unit :=
  fun s => (tt, ({| inputVal := v;
                    showDropdown := showDropdown (fst s);
                    stations := stations (fst s) |}, snd s)).

Definition setShowDropdown (b : bool) : M unit :=
  fun s => (tt, ({| inputVal := inputVal (fst s);
                    showDropdown := b;
                    stations := stations (fst s) |}, snd s)).

Definition setStations (d : list station) : M unit :=
  fun s => (tt, ({| inputVal := inputVal (fst s);
                    showDropdown := showDropdown (fst s);
                    stations := d |}, snd s)).

Definition emit (e : event) : M unit :=
  fun s => (tt, (fst s, (snd s ++ [e])%list)).

Section Handler.
Variable encodeURIComponent : string -> string.
Variable network : string -> fetch_outcome.

Definition autocomplete_url (value : string) : string :=
  "/api/autocomplete?q=" ++ encodeURIComponent value.

(** SearchBarDropDown.jsx, handleChange (lines 10-31).  A character of
    [value] stands for one UTF-16 code unit. *)
Definition handleChange (value : string) : M unit :=
  setInputVal value >>>
  if Nat.ltb (String.length value) 2 then
    setShowDropdown false >>>
    emit completion
  else
    emit (fetch (autocomplete_url value)) >>>
    match network (autocomplete_url value) with
    | fetch_rejected => emit console_error
    | fetch_resolved ok body =>
        if ok then
          match body with
          | json_rejected => emit console_error
          | json_data data =>
              setStations data >>>
              setShowDropdown (Nat.ltb 0 (length data))
          end
        else ret tt
    end >>>
    emit completion.

(** The handler run from a state with an empty log. *)
Definition run (value : string) (s : state) : state * list event :=
  snd (handleChange value (s, [])).

End Handler.

(** Line 40: the menu is rendered unless [!showDropdown] or there are no
    stations. *)
Definition shown (s : state) : bool :=
  showDropdown s && negb (Nat.eqb (length (stations s)) 0).

Definition is_fetch (e : event) : bool :=
  match e with fetch _ => true | _ => false end.

Definition is_completion (e : event) : bool :=
  match e with completion => true | _ => false end.

End SearchBarDropDown.

(** ** The queries of the graph builder as the specification words them *)

Module Builder.

(** The walkable classification of section 4.1. *)
Definition walkable_class (t : gmap string string) : Prop :=
  ((exists h, t !! "highway" = Some h /\
              In h [ "footway"; "steps"; "corridor"; "pedestrian"; "path";
                     "cycleway"; "crossing"; "elevator"; "escalator";
                     "platform"; "service" ])
   \/ (exists r, t !! "railway" = Some r /\ In r [ "platform"; "platform_edge" ])
   \/ (exists v, t !! "conveying" = Some v))
  /\ t !! "access" <> Some "private".

(** Node [n] lies on a platform-role member way of station [(r, nm)]. *)
Definition platform_node (db : snapshot) (r : Z) (nm : option string) (n : Z) : Prop :=
  exists rel m w,
    In rel (planet_osm_rels db) /\
    rel_tags rel !! "type" = Some "public_transport" /\
    rel_tags rel !! "public_transport" = Some "stop_area" /\
    rel_id rel = r /\ rel_tags rel !! "name" = nm /\
    In m (rel_members rel) /\ mem_role m = "platform" /\ mem_type m = "W" /\
    In w (planet_osm_ways db) /\ id w = mem_ref m /\ In n (nodes w).

(** The row of platform_edges_indexed that attaches way [w] to a station. *)
Definition edge_of (r : Z) (nm : option string) (w : osm_way) : edge_row :=
  {| pe_relation_id := r;
     pe_station_name := nm;
     pe_way_id := id w;
     pe_nodes := nodes w;
     pe_tags := tags w;
     edge_ref := tags w !! "ref" |}.

(** A row of the one-hop view: way [w] attached to the station of [s]. *)
Definition attach (s : way_row) (w : osm_way) : way_row :=
  {| relation_id := relation_id s;
     station_name := station_name s;
     way_id := id w;
     row_nodes := nodes w;
     row_tags := tags w |}.

(** The consecutive pairs [(n_i, n_{i+1})] of a node sequence. *)
Fixpoint consecutive_pairs (l : list Z) : list (Z * Z) :=
  match l with
  | a :: (b :: _) as tl => (a, b) :: consecutive_pairs tl
  | _ => []
  end.

Definition expand (s : way_row) : list segment :=
  map (fun p =>
         {| seg_relation_id := relation_id s;
            seg_station_name := station_name s;
            seg_way_id := way_id s;
            node_from := fst p;
            node_to := snd p |})
      (consecutive_pairs (row_nodes s)).

(** The rows of the CTE [ordered] for the nodes [ns] of way row [s],
    numbered from [start]. *)
Definition ordered_from (s : way_row) (start : nat) (ns : list Z) : list ordered_row :=
  map (fun t =>
         {| o_relation_id := relation_id s;
            o_station_name := station_name s;
            o_way_id := way_id s;
            o_node_id := fst t;
            ord := snd t |})
      (combine ns (seq start (length ns))).

(** Two physical states of one snapshot: the same rows in both base tables,
    in whatever order. *)
Definition same_rows (db db' : snapshot) : Prop :=
  (forall r, In r (planet_osm_rels db) <-> In r (planet_osm_rels db')) /\
  (forall w, In w (planet_osm_ways db) <-> In w (planet_osm_ways db')).

(** No way of station [r] is attached to a second station: a row of the
    pathfinding union that carries the way id of a row of [r] is that row. *)
Definition unshared (db : snapshot) (r : Z) : Prop :=
  forall s s',
    In s (Views.station_ways_with_nodes_plus_pedestrian db) ->
    In s' (Views.station_ways_with_nodes_plus_pedestrian db) ->
    relation_id s = r -> way_id s' = way_id s -> s' = s.

Definition has_nodes (s : way_row) : bool :=
  match row_nodes s with [] => false | _ :: _ => true end.

(** The segments the window yields for the partition of way id [v]. *)
Definition pairs_of (rows : list way_row) (v : Z) : list segment :=
  flat_map Views.not_null_segment
    (Views.lead_node_id
       (Views.order_by_ord
          (Views.partition_of v (flat_map Views.ordered_of rows)))).

(** Way id [v] labels a row of station [r]. *)
Definition own_key (rows : list way_row) (r : Z) (v : Z) : bool :=
  existsb (fun s => Z.eqb (relation_id s) r && Z.eqb (way_id s) v) rows.

(** Query (a): the ways that are direct relation members. *)
Definition query_a (db : snapshot) (r : Z) : list way_row :=
  Views.member_ways_of db r.

Definition is_member (db : snapshot) (r : Z) (w : osm_way) : bool :=
  existsb (fun s => Z.eqb (way_id s) (id w)) (query_a db r).

(** Query (b): the ways not in the relation that share at least one node
    with a member way and match the walkable classification. *)
Definition query_b (db : snapshot) (r : Z) : list way_row :=
  distinct
    (flat_map
       (fun w =>
          flat_map
            (fun s =>
               if negb (is_member db r w)
                  && Sql.overlap (nodes w) (row_nodes s)
                  && Views.walkable (tags w)
               then [ {| relation_id := relation_id s;
                         station_name := station_name s;
                         way_id := id w;
                         row_nodes := nodes w;
                         row_tags := tags w |} ]
               else [])
            (query_a db r))
       (planet_osm_ways db)).

(** Query (c): the union of (a) and (b) expanded into consecutive pairs. *)
Definition query_c (db : snapshot) (r : Z) : list segment :=
  flat_map expand (distinct (query_a db r ++ query_b db r)%list).

End Builder.

(** ** The order of peer rows *)

Module Window.

(** [ORDER BY ord] (views.sql 232) sorts the rows of a partition on [ord]
    and on nothing else.  Rows of one partition with the same [ord]
    (peers) exist exactly when a way id labels more than one row of the
    union, and their order is open: it is whatever the plan delivers.
    [sorted] is an order the statement allows for the partition [part]. *)
Definition allowed (part sorted : list ordered_row) : Prop :=
  Permutation part sorted /\
  StronglySorted (fun a b => (ord a <= ord b)%nat) sorted.

(** An executor gives every partition an order; [order] is an executor
    for the rows [l] when the order it gives each partition of [l] is
    allowed. *)
Definition executor (l : list ordered_row)
           (order : list ordered_row -> list ordered_row) : Prop :=
  forall v, allowed (Views.partition_of v l) (order (Views.partition_of v l)).

(** station_way_segments as evaluated by an executor. *)
Section Evaluation.
Variable order : list ordered_row -> list ordered_row.

Definition window_lead (l : list ordered_row) : list with_next_row :=
  flat_map (fun v => Views.lead_node_id (order (Views.partition_of v l)))
           (Views.partition_keys l).

Definition station_way_segments (db : snapshot) : list segment :=
  flat_map Views.not_null_segment (window_lead (Views.ordered db)).

Definition segments_of (db : snapshot) (r : Z) : list segment :=
  List.filter (fun s => Z.eqb (seg_relation_id s) r) (station_way_segments db).

(** The segments of the partition of way id [v]. *)
Definition pairs_of (rows : list way_row) (v : Z) : list segment :=
  flat_map Views.not_null_segment
    (Views.lead_node_id
       (order (Views.partition_of v (flat_map Views.ordered_of rows)))).

End Evaluation.



End Window.

(** ** Sample snapshots *)

Module Sample.

Definition stop_area (n : string) : gmap string string :=
  {[ "type" := "public_transport"; "public_transport" := "stop_area"; "name" := n ]}.

Definition member (ref : Z) (role type : string) : osm_member :=
  {| mem_ref := ref; mem_role := role; mem_type := type |}.

Definition platform_1 : osm_way :=
  {| id := 1; nodes := [1; 2; 3]; tags := {[ "railway" := "platform" ]} |}.
Definition footway_2 : osm_way :=
  {| id := 2; nodes := [3; 4]; tags := {[ "highway" := "footway" ]} |}.
Definition footway_3 : osm_way :=
  {| id := 3; nodes := [7; 8; 9]; tags := {[ "highway" := "footway" ]} |}.
Definition edge_4 : osm_way :=
  {| id := 4; nodes := [1; 3];
     tags := {[ "railway" := "platform_edge"; "ref" := "1" ]} |}.
Definition track_5 : osm_way :=
  {| id := 5; nodes := [20; 21]; tags := {[ "railway" := "rail" ]} |}.
Definition footway_6 : osm_way :=
  {| id := 6; nodes := [21; 22]; tags := {[ "highway" := "footway" ]} |}.

Definition edge_7 : osm_way :=
  {| id := 7; nodes := [3; 30];
     tags := {[ "railway" := "platform_edge"; "ref" := "2" ]} |}.

Definition ways : list osm_way :=
  [ platform_1; footway_2; footway_3; edge_4; track_5; footway_6; edge_7 ].

Definition station_A : osm_rel :=
  {| rel_id := 100; rel_tags := stop_area "A";
     rel_members := [ member 1 "platform" "W"; member 3 "" "W";
                      member 5 "" "W"; member 50 "stop" "N" ] |}.

(** A second stop area that lists footway 3 as well. *)
Definition station_B : osm_rel :=
  {| rel_id := 200; rel_tags := stop_area "B";
     rel_members := [ member 3 "" "W" ] |}.

(** A stop area without member ways. *)
Definition station_C : osm_rel :=
  {| rel_id := 300; rel_tags := stop_area "C";
     rel_members := [ member 50 "stop" "N" ] |}.

(** One station: every way belongs to station A only. *)
Definition single : snapshot :=
  {| planet_osm_rels := [ station_A; station_C ]; planet_osm_ways := ways |}.

(** Footway 3 belongs to both stations. *)
Definition shared : snapshot :=
  {| planet_osm_rels := [ station_A; station_B ]; planet_osm_ways := ways |}.




Definition row (r : Z) (n : string) (w : osm_way) : way_row :=
  {| relation_id := r; station_name := Some n; way_id := id w;
     row_nodes := nodes w; row_tags := tags w |}.

Definition seg (r : Z) (n : string) (w a b : Z) : segment :=
  {| seg_relation_id := r; seg_station_name := Some n; seg_way_id := w;
     node_from := a; node_to := b |}.

Definition stop_of (r : Z) (n : string) : Journeys.stop :=
  {| Journeys.stop_id := r; Journeys.name := n |}.

Definition ride (trip : Z) (from to : Journeys.stop) (dep arr : Z)
           (dep_platform arr_platform : string) : Journeys.scheduled_leg :=
  {| Journeys.trip_id := trip;
     Journeys.sched :=
       {| Journeys.leg_mode := Journeys.train;
          Journeys.train_name := "ICE";
          Journeys.distance_m := 0;
          Journeys.origin := from;
          Journeys.destination := to;
          Journeys.departure := dep;
          Journeys.arrival := arr;
          Journeys.departure_delay_s := 0;
          Journeys.arrival_delay_s := 0;
          Journeys.departure_platform := dep_platform;
          Journeys.planned_departure_platform := dep_platform;
          Journeys.arrival_platform := arr_platform;
          Journeys.planned_arrival_platform := arr_platform;
          Journeys.cancelled := false |} |}.

(** Three itineraries through station A: a slow direct train, a
    connection with seven minutes to change from platform 1 to 2, and a
    connection with ten seconds to change within platform 1. *)
Definition direct : list Journeys.scheduled_leg :=
  [ ride 1 (stop_of 1 "X") (stop_of 2 "Y") 0 9000 "1" "1" ].

Definition connection : list Journeys.scheduled_leg :=
  [ ride 2 (stop_of 1 "X") (stop_of 100 "A") 0 3000 "3" "1";
    ride 3 (stop_of 100 "A") (stop_of 2 "Y") 3420 7200 "2" "4" ].

Definition missed : list Journeys.scheduled_leg :=
  [ ride 4 (stop_of 1 "X") (stop_of 100 "A") 0 3000 "3" "1";
    ride 5 (stop_of 100 "A") (stop_of 2 "Y") 3010 6000 "1" "4" ].

Definition on_time (trip : Z) : Journeys.delay_info :=
  {| Journeys.delaySeconds := 0; Journeys.platformOverride := None |}.

(** A search bar whose menu is open on an earlier answer, and a network
    that rejects every request. *)
Definition open_menu : SearchBarDropDown.state :=
  {| SearchBarDropDown.inputVal := "P";
     SearchBarDropDown.showDropdown := true;
     SearchBarDropDown.stations :=
       [ {| SearchBarDropDown.id := 1; SearchBarDropDown.name := "Paris" |} ] |}.

Definition offline (url : string) : SearchBarDropDown.fetch_outcome :=
  SearchBarDropDown.fetch_rejected.

Definition no_encoding (s : string) : string := s.

Definition no_journeys : JourneyResults.response :=
  {| JourneyResults.error := Js.Undefined;
     JourneyResults.journeys := Some [];
     JourneyResults.origin := Some (stop_of 1 "X");
     JourneyResults.destination := Some (stop_of 2 "Y") |}.

Definition cfg : Evaluator.config :=
  {| Evaluator.MIN_SAME_PLATFORM_SECONDS := 120;
     Evaluator.walk_seconds := fun d => 10 * Z.of_nat d;
     Evaluator.connector_seconds := fun d => 20 * Z.of_nat d;
     Evaluator.fallback_distance := 300;
     Evaluator.fallback_seconds := 250;
     Evaluator.safety_buffer := 30;
     Evaluator.search_budget := 1000 |}.

End Sample.

(** ** Further rows and snapshots *)

Module Rows.

(** The row of the way views that a platform edge row stands for. *)
Definition of_edge (e : edge_row) : way_row :=
  {| relation_id := pe_relation_id e;
     station_name := pe_station_name e;
     way_id := pe_way_id e;
     row_nodes := pe_nodes e;
     row_tags := pe_tags e |}.

(** A stop area whose only member way is a rail track, with a footway
    touching the track. *)
Definition station_D : osm_rel :=
  {| rel_id := 400; rel_tags := Sample.stop_area "D";
     rel_members := [ Sample.member 5 "" "W" ] |}.

Definition tracks_only : snapshot :=
  {| planet_osm_rels := [ station_D ];
     planet_osm_ways := [ Sample.track_5; Sample.footway_6 ] |}.

(** A platform edge closed to the public, beside the platform of station A. *)
Definition edge_8 : osm_way :=
  {| id := 8; nodes := [2; 40];
     tags := {[ "railway" := "platform_edge"; "ref" := "9"; "access" := "private" ]} |}.

Definition closed_edge : snapshot :=
  {| planet_osm_rels := [ Sample.station_A ];
     planet_osm_ways := [ Sample.platform_1; Sample.edge_4; edge_8 ] |}.

End Rows.

(** ** The earlier copy of the views *)

(** The views as the older copies of the file have them (the second copy in
    views.sql, lines 371-432, and the copy that starts with the comment
    "Drop all materialized views in reverse order of dependencies"): the
    one-hop view joins all member ways and keeps seven highway values, and
    the union takes every member way. *)
Module Legacy.

Definition pedestrian_highways : list string :=
  [ "footway"; "steps"; "corridor"; "pedestrian"; "path"; "cycleway"; "crossing" ].

Definition pedestrian (t : gmap string string) : bool :=
  Sql.where_true (Sql.in_text (Sql.get_text t "highway") pedestrian_highways).

Definition station_pedestrian_ways_with_nodes (db : snapshot) : list way_row :=
  distinct
    (flat_map
       (fun w =>
          flat_map
            (fun s =>
               if Sql.overlap (nodes w) (row_nodes s) && pedestrian (tags w)
               then [ {| relation_id := relation_id s;
                         station_name := station_name s;
                         way_id := id w;
                         row_nodes := nodes w;
                         row_tags := tags w |} ]
               else [])
            (Views.station_ways_with_nodes db))
       (planet_osm_ways db)).

Definition station_ways_with_nodes_plus_pedestrian (db : snapshot) : list way_row :=
  distinct (Views.station_ways_with_nodes db
            ++ station_pedestrian_ways_with_nodes db)%list.

(** station_way_segments: the same two CTEs and window, over this union. *)
Definition station_way_segments (db : snapshot) : list segment :=
  flat_map Views.not_null_segment
    (Views.window_lead
       (flat_map Views.ordered_of (station_ways_with_nodes_plus_pedestrian db))).

Definition union_ways_of (db : snapshot) (r : Z) : list way_row :=
  List.filter (fun s => Z.eqb (relation_id s) r)
              (station_ways_with_nodes_plus_pedestrian db).

Definition segments_of (db : snapshot) (r : Z) : list segment :=
  List.filter (fun s => Z.eqb (seg_relation_id s) r) (station_way_segments db).

(** No way of station [r] is attached to a second station, in this union. *)
Definition unshared (db : snapshot) (r : Z) : Prop :=
  forall s s',
    In s (station_ways_with_nodes_plus_pedestrian db) ->
    In s' (station_ways_with_nodes_plus_pedestrian db) ->
    relation_id s = r -> way_id s' = way_id s -> s' = s.

End Legacy.

(** ** The journey card of JourneyResults.jsx *)

From Stdlib Require Import DecimalString.

#[global] Instance js_value_eq_dec : EqDecision Js.value.
Proof. solve_decision. Defined.

Module JourneyCard.

(** The whole numbers a double holds exactly with all their neighbours
    ([Number.isSafeInteger]): those of absolute value below 2^53.  The
    functions below model the code on these: there the quotients by 3600
    and 60 are far enough from the next whole or half number for
    [Math.floor] and [Math.round] of the rounded double quotient to be
    those of the exact quotient, [%] is exact, and a template literal
    prints the decimal digits.  On larger numbers the code rounds and, from
    10^21 on, prints in exponent form; the functions do not model that. *)
Definition safe_integer (n : Z) : Prop :=
  -9007199254740992 < n < 9007199254740992.

(** A safe integer inside a template literal. *)
Definition template (n : Z) : string := NilZero.string_of_int (Z.to_int n).

(** formatDuration (JourneyResults.jsx 35-40) on a safe integer number of
    seconds; [None] is a duration that is missing.  [Math.floor] of a
    quotient is [Z.div], the remainder [%] takes the sign of the dividend
    as [Z.rem]. *)
Definition formatDuration (seconds : option Z) : string :=
  match seconds with
  | None => ""
  | Some s =>
      if Z.eqb s 0 then ""
      else
        let h := s / 3600 in
        let m := Z.rem s 3600 / 60 in
        if Z.ltb 0 h then template h ++ "h " ++ template m ++ "m"
        else template m ++ "m"
  end.

(** formatDelay (JourneyResults.jsx 42-46) on a safe integer number of seconds:
    [Math.round] rounds a half up, which on [seconds / 60] is the floor of
    [(seconds + 30) / 60]. *)
Definition formatDelay (seconds : option Z) : option string :=
  match seconds with
  | None => None
  | Some s =>
      if Z.eqb s 0 then None
      else
        let m := (s + 30) / 60 in
        Some (if Z.ltb 0 m then "+" ++ template m else template m)
  end.

(** What PlatformBadge renders: the class of the span, the platform after
    "Pl." and the platform of the "(was ...)" note when there is one. *)
Record badge := {
  className : string;
  display : Js.value;
  was : option Js.value
}.

(** PlatformBadge (JourneyResults.jsx 48-64). *)
Definition PlatformBadge (actual planned : Js.value) : option badge :=
  let display := if Js.truthy actual then actual else planned in
  if negb (Js.truthy display) then None
  else
    let changed :=
      Js.truthy planned && Js.truthy actual
      && negb (bool_decide (planned = actual)) in
    Some {| className := if changed then "platform platform-changed" else "platform ";
            display := display;
            was := if changed then Some planned else None |}.

(** The changes text of a card (JourneyResults.jsx 79-81). *)
Definition changes_label (num_changes : Z) : string :=
  if Z.eqb num_changes 0 then "Direct"
  else template num_changes ++ " change" ++ (if Z.ltb 1 num_changes then "s" else "").

End JourneyCard.

(** ** The search page: App.jsx and SearchBar.jsx *)

Module App.

(** The state of App (the second component of the file of
    JourneyResults.jsx, lines 154-236). *)
Record state := {
  origin : option SearchBarDropDown.station;
  destination : option SearchBarDropDown.station;
  departureTime : string;
  results : option JourneyResults.response;
  loading : bool
}.

(** What the network does with the journeys request: [fetch] rejects with
    an error whose [message] is given, or resolves to a response whose
    [json()] rejects or parses ([None] for a JSON null). *)
Inductive json_outcome :=
| json_rejected (message : Js.value)
| json_data (data : option JourneyResults.response).

Inductive fetch_outcome :=
| fetch_rejected (message : Js.value)
| fetch_resolved (body : json_outcome).

(** How the promise of handleSearch settles. *)
Inductive settled := fulfilled | rejected.

Record run := {
  final : state;
  requests : list string;
  promise : settled
}.

Definition setLoading (b : bool) (s : state) : state :=
  {| origin := origin s; destination := destination s;
     departureTime := departureTime s; results := results s; loading := b |}.

Definition setResults (r : option JourneyResults.response) (s : state) : state :=
  {| origin := origin s; destination := destination s;
     departureTime := departureTime s; results := r; loading := loading s |}.

(** The object [{ error: err.message }]. *)
Definition error_response (message : Js.value) : JourneyResults.response :=
  {| JourneyResults.error := message;
     JourneyResults.journeys := None;
     JourneyResults.origin := None;
     JourneyResults.destination := None |}.

Section Handler.
(** [new Date(s).toISOString()], [None] when the date is invalid and the
    call throws a RangeError; the query string of URLSearchParams. *)
Variable toISOString : string -> option string.
Variable URLSearchParams : string -> string -> string -> string.
Variable network : string -> fetch_outcome.

Definition journeys_url (o d : SearchBarDropDown.station) (time : string) : string :=
  "/api/journeys?"
  ++ URLSearchParams (SearchBarDropDown.name o) (SearchBarDropDown.name d) time.

(** handleSearch (lines 169-189).  The query string is built before the
    [try], so an exception there leaves the function after
    [setLoading(true)] and [setResults(null)]. *)
Definition handleSearch (s : state) : run :=
  match origin s, destination s with
  | Some o, Some d =>
      let s1 := setResults None (setLoading true s) in
      match toISOString (departureTime s) with
      | None => {| final := s1; requests := []; promise := rejected |}
      | Some time =>
          let s2 :=
            match network (journeys_url o d time) with
            | fetch_resolved (json_data data) => setResults data s1
            | fetch_resolved (json_rejected message)
            | fetch_rejected message => setResults (Some (error_response message)) s1
            end in
          {| final := setLoading false s2;
             requests := [ journeys_url o d time ];
             promise := fulfilled |}
      end
  | _, _ => {| final := s; requests := []; promise := fulfilled |}
  end.

End Handler.

(** The [disabled] attribute of the search button (line 226). *)
Definition search_disabled (s : state) : bool :=
  match origin s, destination s with
  | Some _, Some _ => loading s
  | _, _ => true
  end.

(** The results element of the page (line 232). *)
Definition view (s : state) : JourneyResults.element :=
  JourneyResults.JourneyResults (results s) (loading s).

End App.

Module SearchBar.

(** The state of one search bar: [inputVal] and [showDropdown] of SearchBar
    and [stations] of its dropdown, and the [loading] flag. *)
Record state := {
  dropdown : SearchBarDropDown.state;
  loading : bool
}.

(** The callback [() => setLoading(false)] run at every call of the
    completion, after [setLoading(true)]. *)
Definition loading_after (log : list SearchBarDropDown.event) : bool :=
  fold_left (fun l e => if SearchBarDropDown.is_completion e then false else l) log true.

Section Handler.
Variable encodeURIComponent : string -> string.
Variable network : string -> SearchBarDropDown.fetch_outcome.

(** handleInput (SearchBar.jsx 13-19); [mounted] tells whether
    [dropdownRef.current] is set. *)
Definition handleInput (mounted : bool) (val : string) (s : state)
  : state * list SearchBarDropDown.event :=
  if mounted then
    let r := SearchBarDropDown.run encodeURIComponent network val (dropdown s) in
    ({| dropdown := fst r; loading := loading_after (snd r) |}, snd r)
  else (s, []).

End Handler.

(** handleClick of the dropdown (SearchBarDropDown.jsx 34-38): the state it
    leaves and the station handed to [onSelect]. *)
Definition handleClick (station : SearchBarDropDown.station) (s : state)
  : state * SearchBarDropDown.station :=
  ({| dropdown :=
        {| SearchBarDropDown.inputVal := SearchBarDropDown.name station;
           SearchBarDropDown.showDropdown := false;
           SearchBarDropDown.stations := SearchBarDropDown.stations (dropdown s) |};
      loading := loading s |},
   station).

End SearchBar.

(** ** Sample page states *)

Module Pages.

Definition paris : SearchBarDropDown.station :=
  {| SearchBarDropDown.id := 1; SearchBarDropDown.name := "Paris" |}.

Definition lyon : SearchBarDropDown.station :=
  {| SearchBarDropDown.id := 2; SearchBarDropDown.name := "Lyon" |}.

Definition ready (time : string) : App.state :=
  {| App.origin := Some paris;
     App.destination := Some lyon;
     App.departureTime := time;
     App.results := None;
     App.loading := false |}.

(** A date parser that rejects the empty string, as [new Date("")] is an
    invalid date, and a query string that joins its parts. *)
Definition toISOString (t : string) : option string :=
  if String.eqb t "" then None else Some (t ++ ":00.000Z").

Definition URLSearchParams (o d t : string) : string :=
  "origin=" ++ o ++ "&destination=" ++ d ++ "&time=" ++ t.

Definition unreachable (message : string) (url : string) : App.fetch_outcome :=
  App.fetch_rejected (Js.Str message).

End Pages.

(** ** The route map: types, routes.ts, TrainMap.tsx and CityList.tsx *)

From Stdlib Require QArith_base.

Module City.

(** The City interface of the types file; coordinates are numbers. *)
Record position := { lat : QArith_base.Q; lng : QArith_base.Q }.

Record t := {
  id : string;
  name : string;
  country : string;
  position_of : position;
  station : string
}.

End City.

Module TrainRoute.

(** The TrainRoute interface of the types file. *)
Record t := {
  id : string;
  from : string;
  to : string;
  duration : string;
  trainType : string
}.

End TrainRoute.

Module Routes.

Definition route (id from to duration trainType : string) : TrainRoute.t :=
  {| TrainRoute.id := id; TrainRoute.from := from; TrainRoute.to := to;
     TrainRoute.duration := duration; TrainRoute.trainType := trainType |}.

(** The table of routes.ts. *)
Definition trainRoutes : list TrainRoute.t :=
  [
    route "london-paris" "london" "paris" "2h 16min" "Eurostar";
    route "london-brussels" "london" "brussels" "1h 51min" "Eurostar";
    route "london-amsterdam" "london" "amsterdam" "3h 52min" "Eurostar";
    route "paris-brussels" "paris" "brussels" "1h 22min" "Thalys";
    route "paris-amsterdam" "paris" "amsterdam" "3h 18min" "Thalys";
    route "brussels-amsterdam" "brussels" "amsterdam" "1h 53min" "Thalys";
    route "paris-barcelona" "paris" "barcelona" "6h 25min" "TGV";
    route "frankfurt-berlin" "frankfurt" "berlin" "4h 0min" "ICE";
    route "frankfurt-munich" "frankfurt" "munich" "3h 10min" "ICE";
    route "berlin-munich" "berlin" "munich" "4h 30min" "ICE";
    route "berlin-amsterdam" "berlin" "amsterdam" "6h 15min" "ICE";
    route "frankfurt-amsterdam" "frankfurt" "amsterdam" "4h 0min" "ICE";
    route "frankfurt-brussels" "frankfurt" "brussels" "2h 58min" "ICE";
    route "frankfurt-paris" "frankfurt" "paris" "3h 50min" "ICE/TGV";
    route "zurich-milan" "zurich" "milan" "3h 20min" "EuroCity";
    route "zurich-munich" "zurich" "munich" "4h 20min" "EuroCity";
    route "zurich-frankfurt" "zurich" "frankfurt" "4h 0min" "ICE";
    route "zurich-paris" "zurich" "paris" "4h 3min" "TGV";
    route "milan-rome" "milan" "rome" "2h 55min" "Frecciarossa";
    route "barcelona-madrid" "barcelona" "madrid" "2h 30min" "AVE";
    route "vienna-munich" "vienna" "munich" "4h 0min" "RailJet";
    route "vienna-zurich" "vienna" "zurich" "7h 45min" "RailJet/EuroCity";
    route "vienna-prague" "vienna" "prague" "4h 0min" "RailJet";
    route "prague-berlin" "prague" "berlin" "4h 15min" "EuroCity";
    route "copenhagen-berlin" "copenhagen" "berlin" "7h 30min" "EuroCity"
  ].

End Routes.

(** [s.includes(sub)] on strings. *)
Fixpoint includes (sub s : string) : bool :=
  String.prefix sub s
  || match s with
     | EmptyString => false
     | String _ s' => includes sub s'
     end.

Module TrainMap.

(** trainTypeColors (TrainMap.tsx 34-45), in the order of its keys. *)
Definition trainTypeColors : list (string * string) :=
  [ ("Eurostar", "#004494");
    ("Thalys", "#D31F26");
    ("TGV", "#A1006B");
    ("ICE", "#EC0016");
    ("ICE/TGV", "#EC0016");
    ("EuroCity", "#2E8B57");
    ("Frecciarossa", "#C00000");
    ("AVE", "#662483");
    ("RailJet", "#C20E1A");
    ("RailJet/EuroCity", "#C20E1A") ].

Fixpoint lookup_color (key : string) (table : list (string * string)) : option string :=
  match table with
  | [] => None
  | (k, c) :: rest => if String.eqb k key then Some c else lookup_color key rest
  end.

(** [trainTypeColors[route.trainType] || '#666666'] (line 142); every
    colour of the table is a non-empty string. *)
Definition color (route : TrainRoute.t) : string :=
  match lookup_color (TrainRoute.trainType route) trainTypeColors with
  | Some c => if String.eqb c "" then "#666666" else c
  | None => "#666666"
  end.

(** The legend (lines 247-257): the entries whose key has no slash. *)
Definition legend : list (string * string) :=
  List.filter (fun e => negb (includes "/" (fst e))) trainTypeColors.

Record state := {
  selectedCity : option City.t;
  selectedRoute : option TrainRoute.t;
  highlightedRoutes : list string
}.

Definition initial : state :=
  {| selectedCity := None; selectedRoute := None; highlightedRoutes := [] |}.

(** What the user can do on the map: click a marker, a polyline or the map,
    or close one of the two info windows. *)
Inductive event :=
| city_click (city : City.t)
| route_click (route : TrainRoute.t)
| map_click
| city_info_close
| route_info_close.

(** An info window can be closed only while it is rendered (lines 177 and
    211). *)
Definition enabled (s : state) (e : event) : Prop :=
  match e with
  | city_info_close => selectedCity s <> None
  | route_info_close => selectedRoute s <> None
  | _ => True
  end.

Section Component.
Variable europeanCities : list City.t.
Variable trainRoutes : list TrainRoute.t.

(** citiesMap (lines 60-64): [forEach] with [map.set], a later city
    replacing an earlier one of the same id. *)
Definition citiesMap : gmap string City.t :=
  fold_left (fun m city => <[City.id city := city]> m) europeanCities ∅.

(** getCityRoutes (lines 66-73). *)
Definition getCityRoutes (cityId : string) : list TrainRoute.t :=
  List.filter
    (fun route => String.eqb (TrainRoute.from route) cityId
                  || String.eqb (TrainRoute.to route) cityId)
    trainRoutes.

(** handleCityClick, handleRouteClick, handleMapClick (lines 75-98) and the
    two onCloseClick handlers (lines 180-183 and 223-226). *)
Definition handle (e : event) (s : state) : state :=
  match e with
  | city_click city =>
      {| selectedCity := Some city;
         selectedRoute := None;
         highlightedRoutes := map TrainRoute.id (getCityRoutes (City.id city)) |}
  | route_click route =>
      {| selectedCity := None;
         selectedRoute := Some route;
         highlightedRoutes := [ TrainRoute.id route ] |}
  | map_click =>
      {| selectedCity := None; selectedRoute := None; highlightedRoutes := [] |}
  | city_info_close =>
      {| selectedCity := None;
         selectedRoute := selectedRoute s;
         highlightedRoutes := [] |}
  | route_info_close =>
      {| selectedCity := selectedCity s;
         selectedRoute := None;
         highlightedRoutes := [] |}
  end.

(** The states the user can bring the map to. *)
Inductive reachable : state -> Prop :=
| reachable_initial : reachable initial
| reachable_step s e : reachable s -> enabled s e -> reachable (handle e s).

(** getRoutePath (lines 100-108). *)
Definition getRoutePath (route : TrainRoute.t) : list City.position :=
  match citiesMap !! TrainRoute.from route, citiesMap !! TrainRoute.to route with
  | Some fromCity, Some toCity => [ City.position_of fromCity; City.position_of toCity ]
  | _, _ => []
  end.

(** [highlightedRoutes.includes(route.id)] (line 141). *)
Definition isHighlighted (s : state) (route : TrainRoute.t) : bool :=
  existsb (String.eqb (TrainRoute.id route)) (highlightedRoutes s).

(** The marker of a city is blue (lines 168-171) when some route is
    highlighted and one of the city's routes is. *)
Definition blue_marker (s : state) (city : City.t) : bool :=
  Nat.ltb 0 (length (highlightedRoutes s))
  && existsb (isHighlighted s) (getCityRoutes (City.id city)).

End Component.

End TrainMap.

Module CityList.

(** The state of the sidebar with the [selectedCityId] of the App above it,
    which [onCitySelect] sets. *)
Record state := {
  searchTerm : string;
  expandedCity : option string;
  selectedCityId : option string
}.

Definition initial : state :=
  {| searchTerm := ""; expandedCity := None; selectedCityId := None |}.

Section Component.
Variable toLowerCase : string -> string.
Variable europeanCities : list City.t.
Variable trainRoutes : list TrainRoute.t.

(** filteredCities (lines 27-36). *)
Definition filteredCities (searchTerm : string) : list City.t :=
  if String.eqb searchTerm "" then europeanCities
  else
    let term := toLowerCase searchTerm in
    List.filter
      (fun city =>
         includes term (toLowerCase (City.name city))
         || includes term (toLowerCase (City.country city))
         || includes term (toLowerCase (City.station city)))
      europeanCities.

(** getCityRoutes (lines 38-42). *)
Definition getCityRoutes (cityId : string) : list TrainRoute.t :=
  List.filter
    (fun route => String.eqb (TrainRoute.from route) cityId
                  || String.eqb (TrainRoute.to route) cityId)
    trainRoutes.

(** The other end of a route listed under a city (lines 86-87). *)
Definition destinationId (cityId : string) (route : TrainRoute.t) : string :=
  if String.eqb (TrainRoute.from route) cityId
  then TrainRoute.to route else TrainRoute.from route.

(** handleCityClick (lines 44-47) with handleCitySelect of the App. *)
Definition handleCityClick (city : City.t) (s : state) : state :=
  {| searchTerm := searchTerm s;
     expandedCity :=
       match expandedCity s with
       | Some e => if String.eqb e (City.id city) then None else Some (City.id city)
       | None => Some (City.id city)
       end;
     selectedCityId := Some (City.id city) |}.

(** The input of the search box (line 56). *)
Definition setSearchTerm (term : string) (s : state) : state :=
  {| searchTerm := term;
     expandedCity := expandedCity s;
     selectedCityId := selectedCityId s |}.

(** The count beside a city (line 76). *)
Definition connections_count (cityId : string) : nat :=
  length (getCityRoutes cityId).

End Component.

(** The sidebar after a list of clicks on cities. *)
Definition clicks (cities : list City.t) (s : state) : state :=
  fold_left (fun s city => handleCityClick city s) cities s.

(** What the user can do in the sidebar: click the header of a city or type
    in the search box. *)
Inductive event :=
| header_click (city : City.t)
| search_input (term : string).

Definition handle (e : event) (s : state) : state :=
  match e with
  | header_click city => handleCityClick city s
  | search_input term => setSearchTerm term s
  end.

Definition run (events : list event) (s : state) : state :=
  fold_left (fun s e => handle e s) events s.

End CityList.

(** ** Sample cities *)

Module Atlas.

Definition city (id name country station : string) (lat lng : Z) : City.t :=
  {| City.id := id; City.name := name; City.country := country;
     City.position_of := {| City.lat := QArith_base.Qmake lat 100;
                            City.lng := QArith_base.Qmake lng 100 |};
     City.station := station |}.

Definition milan : City.t := city "milan" "Milan" "Italy" "Milano Centrale" 4548 920.
Definition rome : City.t := city "rome" "Rome" "Italy" "Roma Termini" 4190 1250.
Definition zurich : City.t := city "zurich" "Zurich" "Switzerland" "Zurich HB" 4738 854.
Definition madrid : City.t := city "madrid" "Madrid" "Spain" "Madrid Atocha" 4041 (-369).

Definition cities : list City.t := [ milan; rome; zurich; madrid ].

Definition milan_rome : TrainRoute.t :=
  Routes.route "milan-rome" "milan" "rome" "2h 55min" "Frecciarossa".

(** A lower-casing of the letters A to Z. *)
Definition lower_ascii (c : Ascii.ascii) : Ascii.ascii :=
  let n := Ascii.nat_of_ascii c in
  if Nat.leb 65 n && Nat.leb n 90 then Ascii.ascii_of_nat (n + 32) else c.

Fixpoint toLowerCase (s : string) : string :=
  match s with
  | EmptyString => EmptyString
  | String c s' => String (lower_ascii c) (toLowerCase s')
  end.

End Atlas.

(** * Properties *)

(** ** SQL operators *)

Section SqlFacts.

Lemma eq_any_In (x : Z) (arr : list Z) : Sql.eq_any x arr = true <-> In x arr.
Proof.
  unfold Sql.eq_any. rewrite existsb_exists. split.
  - intros (y & Hy & Heq). apply Z.eqb_eq in Heq. now subst.
  - intros H. exists x. split; [assumption | apply Z.eqb_refl].
Qed.

Lemma overlap_shared (a b : list Z) :
  Sql.overlap a b = true <-> exists n, In n a /\ In n b.
Proof.
  unfold Sql.overlap. rewrite existsb_exists. split.
  - intros (n & Ha & Hb). exists n. split; [assumption | now apply eq_any_In].
  - intros (n & Ha & Hb). exists n. split; [assumption | now apply eq_any_In].
Qed.

Lemma overlap_sym (a b : list Z) : Sql.overlap a b = Sql.overlap b a.
Proof.
  apply eq_true_iff_eq. rewrite !overlap_shared.
  split; intros (n & H1 & H2); exists n; tauto.
Qed.

Lemma in_text_true (a : option string) (l : list string) :
  Sql.in_text a l = Some true <-> exists x, a = Some x /\ In x l.
Proof.
  destruct a as [x|]; simpl.
  - split.
    + intros H. injection H as H. apply existsb_exists in H.
      destruct H as (y & Hy & Heq). apply String.eqb_eq in Heq. subst.
      exists y. split; [reflexivity | assumption].
    + intros (y & Hy & Hin). injection Hy as <-. f_equal.
      apply existsb_exists. exists x. split; [assumption | apply String.eqb_refl].
  - split; [discriminate | intros (x & Hx & _); discriminate].
Qed.

Lemma eq_text_true (a : option string) (b : string) :
  Sql.where_true (Sql.eq_text a b) = true <-> a = Some b.
Proof.
  destruct a as [x|]; simpl.
  - destruct (String.eqb x b) eqn:E.
    + apply String.eqb_eq in E. subst. tauto.
    + apply String.eqb_neq in E. split; [discriminate | congruence].
  - split; discriminate.
Qed.

Lemma is_distinct_from_true (a : option string) (b : string) :
  Sql.is_distinct_from a b = true <-> a <> Some b.
Proof.
  destruct a as [x|]; simpl.
  - destruct (String.eqb x b) eqn:E; simpl.
    + apply String.eqb_eq in E. subst. split; [discriminate | congruence].
    + apply String.eqb_neq in E. split; [congruence | reflexivity].
  - split; [discriminate | reflexivity].
Qed.

Lemma distinct_In {A} `{EqDecision A} (x : A) (l : list A) :
  In x (distinct l) <-> In x l.
Proof. apply nodup_In. Qed.

Lemma distinct_NoDup {A} `{EqDecision A} (l : list A) : List.NoDup (distinct l).
Proof. apply NoDup_nodup. Qed.

End SqlFacts.

Section ThreeValued.

Lemma or3_true (a b : option bool) :
  Sql.or3 a b = Some true <-> a = Some true \/ b = Some true.
Proof.
  destruct a as [[|]|], b as [[|]|]; simpl; split; intros H;
    try tauto; try discriminate; destruct H; discriminate.
Qed.

Lemma and3_true (a b : option bool) :
  Sql.and3 a b = Some true <-> a = Some true /\ b = Some true.
Proof.
  destruct a as [[|]|], b as [[|]|]; simpl; split; intros H;
    try tauto; try discriminate; destruct H; discriminate.
Qed.

Lemma where_true_iff (c : option bool) :
  Sql.where_true c = true <-> c = Some true.
Proof. destruct c as [[|]|]; simpl; split; congruence. Qed.

Lemma has_key_true (t : gmap string string) (k : string) :
  Sql.has_key t k = true <-> exists v, t !! k = Some v.
Proof.
  unfold Sql.has_key. destruct (t !! k) as [v|].
  - split; [intros _; now exists v | reflexivity].
  - split; [discriminate | intros (v & Hv); discriminate].
Qed.

End ThreeValued.

(** ** Membership in the views, independent of the order of the rows *)

Section ViewRows.
Variable db : snapshot.

Lemma in_station_platform_ways (x : spw_row) :
  In x (Views.station_platform_ways db) <->
  exists r m,
    In r (planet_osm_rels db) /\ Views.is_stop_area r = true /\
    In m (rel_members r) /\
    x = {| spw_relation_id := rel_id r;
           spw_station_name := Sql.get_text (rel_tags r) "name";
           way_ref := mem_ref m;
           member_role := mem_role m;
           member_type := mem_type m |}.
Proof.
  unfold Views.station_platform_ways. rewrite in_flat_map. split.
  - intros (r & Hr & Hx). apply filter_In in Hr. destruct Hr as [Hr Hs].
    apply in_map_iff in Hx. destruct Hx as (m & Hm & Hin).
    exists r, m. repeat split; auto.
  - intros (r & m & Hr & Hs & Hm & ->). exists r. split.
    + apply filter_In. split; assumption.
    + apply in_map_iff. exists m. split; [reflexivity | assumption].
Qed.

Lemma in_station_ways_with_nodes (s : way_row) :
  In s (Views.station_ways_with_nodes db) <->
  exists spw w,
    In spw (Views.station_platform_ways db) /\ In w (planet_osm_ways db) /\
    id w = way_ref spw /\ member_type spw = "W" /\
    s = {| relation_id := spw_relation_id spw;
           station_name := spw_station_name spw;
           way_id := id w;
           row_nodes := nodes w;
           row_tags := tags w |}.
Proof.
  unfold Views.station_ways_with_nodes. rewrite in_flat_map. split.
  - intros (spw & Hspw & Hs). apply in_flat_map in Hs.
    destruct Hs as (w & Hw & Hs).
    destruct (Z.eqb (id w) (way_ref spw)) eqn:E1; simpl in Hs; [|contradiction].
    destruct (String.eqb (member_type spw) "W") eqn:E2; simpl in Hs; [|contradiction].
    destruct Hs as [<- | []]. apply Z.eqb_eq in E1. apply String.eqb_eq in E2.
    exists spw, w. repeat split; auto.
  - intros (spw & w & Hspw & Hw & E1 & E2 & ->). exists spw. split; [assumption|].
    apply in_flat_map. exists w. split; [assumption|].
    apply Z.eqb_eq in E1. apply String.eqb_eq in E2. rewrite E1, E2. simpl. now left.
Qed.

Lemma in_station_walkable_ways (s : way_row) :
  In s (Views.station_walkable_ways db) <->
  In s (Views.station_ways_with_nodes db) /\ Views.walkable (row_tags s) = true.
Proof. unfold Views.station_walkable_ways. apply filter_In. Qed.

Lemma in_station_pedestrian_ways_with_nodes (x : way_row) :
  In x (Views.station_pedestrian_ways_with_nodes db) <->
  exists w s,
    In w (planet_osm_ways db) /\ In s (Views.station_walkable_ways db) /\
    Sql.overlap (nodes w) (row_nodes s) = true /\
    Views.walkable (tags w) = true /\
    x = Builder.attach s w.
Proof.
  unfold Views.station_pedestrian_ways_with_nodes.
  rewrite distinct_In, in_flat_map. split.
  - intros (w & Hw & Hx). apply in_flat_map in Hx. destruct Hx as (s & Hs & Hx).
    destruct (Sql.overlap (nodes w) (row_nodes s)) eqn:E1; simpl in Hx; [|contradiction].
    destruct (Views.walkable (tags w)) eqn:E2; simpl in Hx; [|contradiction].
    destruct Hx as [<- | []]. exists w, s. repeat split; auto.
  - intros (w & s & Hw & Hs & E1 & E2 & ->). exists w. split; [assumption|].
    apply in_flat_map. exists s. split; [assumption|].
    rewrite E1, E2. simpl. now left.
Qed.

Lemma in_station_ways_with_nodes_plus_pedestrian (x : way_row) :
  In x (Views.station_ways_with_nodes_plus_pedestrian db) <->
  In x (Views.station_walkable_ways db) \/
  In x (Views.station_pedestrian_ways_with_nodes db).
Proof.
  unfold Views.station_ways_with_nodes_plus_pedestrian.
  rewrite distinct_In. apply in_app_iff.
Qed.

Lemma union_rows_walkable (x : way_row) :
  In x (Views.station_ways_with_nodes_plus_pedestrian db) ->
  Views.walkable (row_tags x) = true.
Proof.
  rewrite in_station_ways_with_nodes_plus_pedestrian.
  intros [H | H].
  - now apply in_station_walkable_ways in H.
  - apply in_station_pedestrian_ways_with_nodes in H.
    destruct H as (w & s & _ & _ & _ & Hw & ->). exact Hw.
Qed.

End ViewRows.

Lemma walkable_iff_class (t : gmap string string) :
  Views.walkable t = true <-> Builder.walkable_class t.
Proof.
  unfold Views.walkable, Views.walkable_cond, Views.walkable_tag_cond,
    Builder.walkable_class, Sql.get_text.
  rewrite where_true_iff, and3_true, !or3_true, !in_text_true.
  split.
  - intros [[[H | H] | H] Ha].
    + split; [now left|]. injection Ha as Ha. now apply is_distinct_from_true.
    + split; [now (right; left)|]. injection Ha as Ha. now apply is_distinct_from_true.
    + split; [|injection Ha as Ha; now apply is_distinct_from_true].
      right; right. injection H as H. now apply has_key_true.
  - intros [H Ha]. split.
    + destruct H as [H | [H | H]]; [now (left; left) | now (left; right) |].
      right. f_equal. now apply has_key_true.
    + f_equal. now apply is_distinct_from_true.
Qed.

(** ** The walkable classification *)

(** Every walkable way is covered by the partial index. *)
Lemma walkable_in_index (t : gmap string string) :
  Views.walkable t = true -> Views.idx_ways_walkable_nodes_gin t = true.
Proof.
  unfold Views.walkable, Views.walkable_cond, Views.idx_ways_walkable_nodes_gin.
  rewrite !where_true_iff, and3_true. tauto.
Qed.

(** C1. A way is classified walkable exactly when its highway tag is one of
    the eleven listed values, or its railway tag is platform or
    platform_edge, or it has a conveying key, and its access tag is not
    private.  A member way is in the pathfinding union exactly when it is so
    classified, and so is a way that shares a node with a walkable member
    way. *)
Theorem walkable_classification :
  (forall t, Views.walkable t = true <-> Builder.walkable_class t) /\
  (forall db s,
      In s (Views.station_ways_with_nodes db) ->
      (In s (Views.station_ways_with_nodes_plus_pedestrian db) <->
       Builder.walkable_class (row_tags s))) /\
  (forall db w s,
      In w (planet_osm_ways db) ->
      In s (Views.station_walkable_ways db) ->
      Sql.overlap (nodes w) (row_nodes s) = true ->
      (In (Builder.attach s w) (Views.station_ways_with_nodes_plus_pedestrian db) <->
       Builder.walkable_class (tags w))).
Proof.
  split; [exact walkable_iff_class | split].
  - intros db s Hs. rewrite <- walkable_iff_class. split.
    + apply union_rows_walkable.
    + intros Hw. apply in_station_ways_with_nodes_plus_pedestrian. left.
      apply in_station_walkable_ways. split; assumption.
  - intros db w s Hw Hs Hov. rewrite <- walkable_iff_class. split.
    + intros H. now apply union_rows_walkable in H.
    + intros Hcl. apply in_station_ways_with_nodes_plus_pedestrian. right.
      apply in_station_pedestrian_ways_with_nodes.
      exists w, s. repeat split; assumption.
Qed.

Lemma walkable_classification_witness :
  In (Sample.row 100 "A" Sample.footway_3)
     (Views.station_ways_with_nodes_plus_pedestrian Sample.single)
  /\ In (Builder.attach (Sample.row 100 "A" Sample.platform_1) Sample.footway_2)
        (Views.station_ways_with_nodes_plus_pedestrian Sample.single).
Proof.
  destruct walkable_classification as (Hc & Hm & Hh). split.
  - apply (Hm Sample.single (Sample.row 100 "A" Sample.footway_3)).
    + vm_compute. tauto.
    + apply Hc. vm_compute. reflexivity.
  - apply (Hh Sample.single Sample.footway_2 (Sample.row 100 "A" Sample.platform_1)).
    + vm_compute. tauto.
    + vm_compute. tauto.
    + vm_compute. reflexivity.
    + apply Hc. vm_compute. reflexivity.
Defined.

(** ** The one-hop expansion *)

Section OneHop.
Variable db : snapshot.
Variable r : Z.

Lemma in_member_ways_of (s : way_row) :
  In s (Views.member_ways_of db r) <->
  In s (Views.station_ways_with_nodes db) /\ relation_id s = r.
Proof.
  unfold Views.member_ways_of. rewrite filter_In, Z.eqb_eq. reflexivity.
Qed.

Lemma in_one_hop_ways_of (x : way_row) :
  In x (Views.one_hop_ways_of db r) <->
  In x (Views.station_pedestrian_ways_with_nodes db) /\ relation_id x = r.
Proof.
  unfold Views.one_hop_ways_of. rewrite filter_In, Z.eqb_eq. reflexivity.
Qed.

Lemma in_union_ways_of (x : way_row) :
  In x (Views.union_ways_of db r) <->
  In x (Views.station_ways_with_nodes_plus_pedestrian db) /\ relation_id x = r.
Proof.
  unfold Views.union_ways_of. rewrite filter_In, Z.eqb_eq. reflexivity.
Qed.

End OneHop.

(** C3, as stated, fails: footway 6 is not a member of station A, shares
    node 21 with member track 5 and is walkable, so query (b) as worded holds
    it; the view does not, since track 5 is not itself walkable. *)
Lemma one_hop_counterexample :
  ~ (forall x, In x (Views.one_hop_ways_of Sample.single 100) <->
               In x (Builder.query_b Sample.single 100)).
Proof.
  intros H.
  assert (Hq : In (Sample.row 100 "A" Sample.footway_6)
                  (Builder.query_b Sample.single 100)).
  { vm_compute. tauto. }
  apply H in Hq. vm_compute in Hq.
  repeat (destruct Hq as [Hq | Hq]; [discriminate Hq|]). exact Hq.
Qed.

(** C3, amended.  Every way the one-hop view returns for a station is
    walkable and shares a node with a walkable member way of that station,
    so none is two hops away; and every walkable way that is not a member
    and shares a node with a walkable member way is returned. *)
Theorem one_hop_expansion (db : snapshot) (r : Z) :
  (forall x,
      In x (Views.one_hop_ways_of db r) ->
      exists w s,
        In w (planet_osm_ways db) /\ In s (Views.member_ways_of db r) /\
        Builder.walkable_class (row_tags s) /\
        (exists n, In n (nodes w) /\ In n (row_nodes s)) /\
        Builder.walkable_class (tags w) /\
        x = Builder.attach s w) /\
  (forall w s,
      In w (planet_osm_ways db) ->
      Builder.is_member db r w = false ->
      In s (Views.member_ways_of db r) ->
      Builder.walkable_class (row_tags s) ->
      (exists n, In n (nodes w) /\ In n (row_nodes s)) ->
      Builder.walkable_class (tags w) ->
      In (Builder.attach s w) (Views.one_hop_ways_of db r)).
Proof.
  split.
  - intros x Hx. apply in_one_hop_ways_of in Hx. destruct Hx as [Hx Hr].
    apply in_station_pedestrian_ways_with_nodes in Hx.
    destruct Hx as (w & s & Hw & Hs & Hov & Hwalk & ->).
    apply in_station_walkable_ways in Hs. destruct Hs as [Hs Hsw].
    exists w, s. repeat split.
    + assumption.
    + apply in_member_ways_of. split; [assumption | exact Hr].
    + now apply walkable_iff_class.
    + now apply walkable_iff_class.
    + now apply overlap_shared.
    + now apply walkable_iff_class.
    + now apply walkable_iff_class.
  - intros w s Hw _ Hs Hsw Hsh Hww.
    apply in_member_ways_of in Hs. destruct Hs as [Hs Hr].
    apply in_one_hop_ways_of. split; [|exact Hr].
    apply in_station_pedestrian_ways_with_nodes. exists w, s. repeat split.
    + assumption.
    + apply in_station_walkable_ways. split; [assumption|].
      now apply walkable_iff_class.
    + now apply overlap_shared.
    + now apply walkable_iff_class.
Qed.

Lemma one_hop_expansion_witness :
  In (Builder.attach (Sample.row 100 "A" Sample.platform_1) Sample.footway_2)
     (Views.one_hop_ways_of Sample.single 100).
Proof.
  apply (proj2 (one_hop_expansion Sample.single 100)).
  - vm_compute. tauto.
  - vm_compute. reflexivity.
  - vm_compute. tauto.
  - apply walkable_iff_class. vm_compute. reflexivity.
  - exists 3. split; vm_compute; tauto.
  - apply walkable_iff_class. vm_compute. reflexivity.
Defined.

(** ** Platform edges and adjoining platforms *)

Section PlatformEdges.
Variable db : snapshot.

Lemma is_stop_area_iff (rel : osm_rel) :
  Views.is_stop_area rel = true <->
  rel_tags rel !! "type" = Some "public_transport" /\
  rel_tags rel !! "public_transport" = Some "stop_area".
Proof.
  unfold Views.is_stop_area, Sql.get_text.
  rewrite where_true_iff, and3_true, <- !where_true_iff, !eq_text_true.
  reflexivity.
Qed.

Lemma in_station_platform_nodes (x : spn_row) :
  In x (Views.station_platform_nodes db) <->
  Builder.platform_node db (spn_relation_id x) (spn_station_name x) (node_id x).
Proof.
  unfold Views.station_platform_nodes, Builder.platform_node.
  rewrite in_flat_map. split.
  - intros (spw & Hspw & Hx). apply in_flat_map in Hx.
    destruct Hx as (w & Hw & Hx).
    apply in_station_platform_ways in Hspw.
    destruct Hspw as (rel & m & Hrel & Hsa & Hm & ->). simpl in Hx.
    destruct (Z.eqb (id w) (mem_ref m)) eqn:E1; simpl in Hx; [|contradiction].
    destruct (String.eqb (mem_role m) "platform") eqn:E2; simpl in Hx; [|contradiction].
    destruct (String.eqb (mem_type m) "W") eqn:E3; simpl in Hx; [|contradiction].
    apply in_map_iff in Hx. destruct Hx as (n & <- & Hn). simpl.
    apply is_stop_area_iff in Hsa. destruct Hsa as [Ht Hp].
    apply Z.eqb_eq in E1. apply String.eqb_eq in E2. apply String.eqb_eq in E3.
    exists rel, m, w. repeat split; auto.
  - intros (rel & m & w & Hrel & Ht & Hp & Hr & Hn & Hm & E2 & E3 & Hw & E1 & Hin).
    exists {| spw_relation_id := rel_id rel;
              spw_station_name := Sql.get_text (rel_tags rel) "name";
              way_ref := mem_ref m;
              member_role := mem_role m;
              member_type := mem_type m |}.
    split.
    + apply in_station_platform_ways. exists rel, m. repeat split; auto.
      apply is_stop_area_iff. split; assumption.
    + apply in_flat_map. exists w. split; [assumption|]. simpl.
      rewrite E1, Z.eqb_refl, E2, E3. simpl.
      apply in_map_iff. exists (node_id x). split; [|assumption].
      destruct x as [xr xn xi]. simpl in *. unfold Sql.get_text. now subst.
Qed.

Lemma in_stations_of_nodes (arr : list Z) (r : Z) (nm : option string) :
  In (r, nm) (Views.stations_of_nodes db arr) <->
  exists n, In n arr /\ Builder.platform_node db r nm n.
Proof.
  unfold Views.stations_of_nodes. rewrite distinct_In, in_map_iff. split.
  - intros (spn & Heq & Hspn). apply filter_In in Hspn.
    destruct Hspn as [Hspn Hany]. injection Heq as <- <-.
    exists (node_id spn). split; [now apply eq_any_In|].
    now apply in_station_platform_nodes.
  - intros (n & Hn & Hp).
    exists {| spn_relation_id := r; spn_station_name := nm; node_id := n |}.
    split; [reflexivity|]. apply filter_In. split.
    + now apply in_station_platform_nodes.
    + now apply eq_any_In.
Qed.

Lemma in_platform_edges_indexed (e : edge_row) :
  In e (Views.platform_edges_indexed db) <->
  exists w,
    In w (planet_osm_ways db) /\ tags w !! "railway" = Some "platform_edge" /\
    (exists n, In n (nodes w) /\
               Builder.platform_node db (pe_relation_id e) (pe_station_name e) n) /\
    e = Builder.edge_of (pe_relation_id e) (pe_station_name e) w.
Proof.
  unfold Views.platform_edges_indexed. rewrite in_flat_map. split.
  - intros (w & Hw & He).
    destruct (Sql.where_true _) eqn:E in He; [|contradiction].
    apply eq_text_true in E. apply in_map_iff in He.
    destruct He as ([r nm] & <- & Hin). simpl.
    apply in_stations_of_nodes in Hin. exists w. repeat split; auto.
  - intros (w & Hw & E & Hn & He). exists w. split; [assumption|].
    apply eq_text_true in E. unfold Sql.get_text. rewrite E. apply in_map_iff.
    exists (pe_relation_id e, pe_station_name e). split.
    + rewrite He. reflexivity.
    + now apply in_stations_of_nodes.
Qed.

End PlatformEdges.

Lemma in_platform_edges_of (db : snapshot) (r : Z) (e : edge_row) :
  In e (Views.platform_edges_of db r) <->
  In e (Views.platform_edges_indexed db) /\ pe_relation_id e = r.
Proof.
  unfold Views.platform_edges_of. rewrite filter_In, Z.eqb_eq. reflexivity.
Qed.

Lemma in_edges_of_platform (edges : list edge_row) (p : string) (e : edge_row) :
  In e (Evaluator.edges_of_platform edges p) <-> In e edges /\ edge_ref e = Some p.
Proof.
  unfold Evaluator.edges_of_platform. rewrite filter_In, eq_text_true. reflexivity.
Qed.

Lemma adjoining_iff (edges : list edge_row) (pa pd : string) :
  Evaluator.adjoining edges pa pd = true <->
  exists ea ed n,
    In ea edges /\ edge_ref ea = Some pa /\
    In ed edges /\ edge_ref ed = Some pd /\
    In n (pe_nodes ea) /\ In n (pe_nodes ed).
Proof.
  unfold Evaluator.adjoining. rewrite existsb_exists. split.
  - intros (ea & Ha & H). apply existsb_exists in H. destruct H as (ed & Hd & Hov).
    apply in_edges_of_platform in Ha. apply in_edges_of_platform in Hd.
    apply overlap_shared in Hov. destruct Hov as (n & Hna & Hnd).
    exists ea, ed, n. tauto.
  - intros (ea & ed & n & Ha & Hra & Hd & Hrd & Hna & Hnd).
    exists ea. split; [now apply in_edges_of_platform|].
    apply existsb_exists. exists ed. split; [now apply in_edges_of_platform|].
    apply overlap_shared. exists n. tauto.
Qed.

(** C4. Two platforms of a station adjoin exactly when a platform-edge way
    of the one shares a node with a platform-edge way of the other; a way is
    attached to a station as a platform edge exactly when it is tagged
    railway=platform_edge and its node array meets the nodes of the
    station's platform-role member ways; the adjoining relation is
    symmetric. *)
Theorem adjoining_platform_edges (db : snapshot) (r : Z) :
  (forall pa pd,
      Evaluator.adjoining (Views.platform_edges_of db r) pa pd = true <->
      exists ea ed n,
        In ea (Views.platform_edges_of db r) /\ edge_ref ea = Some pa /\
        In ed (Views.platform_edges_of db r) /\ edge_ref ed = Some pd /\
        In n (pe_nodes ea) /\ In n (pe_nodes ed)) /\
  (forall w nm,
      In (Builder.edge_of r nm w) (Views.platform_edges_of db r) <->
      In w (planet_osm_ways db) /\ tags w !! "railway" = Some "platform_edge" /\
      exists n, In n (nodes w) /\ Builder.platform_node db r nm n) /\
  (forall pa pd,
      Evaluator.adjoining (Views.platform_edges_of db r) pa pd =
      Evaluator.adjoining (Views.platform_edges_of db r) pd pa).
Proof.
  split; [|split].
  - intros pa pd. apply adjoining_iff.
  - intros w nm. rewrite in_platform_edges_of, in_platform_edges_indexed. simpl.
    split.
    + intros [(w' & Hw' & Ht & Hn & He) _].
      assert (w = w') as ->.
      { destruct w, w'. unfold Builder.edge_of in He. simpl in He.
        injection He as -> -> -> _. reflexivity. }
      tauto.
    + intros (Hw & Ht & Hn). split; [|reflexivity]. exists w. tauto.
  - intros pa pd. apply eq_true_iff_eq. rewrite !adjoining_iff.
    split; intros (ea & ed & n & H); exists ed, ea, n; tauto.
Qed.

(** ** The window of station_way_segments *)

Section ListFacts.
Context {A B C : Type}.

Lemma filter_flat_map (f : B -> bool) (g : A -> list B) (l : list A) :
  List.filter f (flat_map g l) = flat_map (fun x => List.filter f (g x)) l.
Proof.
  induction l as [|x l IH]; simpl; [reflexivity|].
  rewrite List.filter_app, IH. reflexivity.
Qed.

Lemma flat_map_flat_map (f : B -> list C) (g : A -> list B) (l : list A) :
  flat_map f (flat_map g l) = flat_map (fun x => flat_map f (g x)) l.
Proof.
  induction l as [|x l IH]; simpl; [reflexivity|].
  rewrite List.flat_map_app, IH. reflexivity.
Qed.

Lemma flat_map_map (f : B -> list C) (g : A -> B) (l : list A) :
  flat_map f (map g l) = flat_map (fun x => f (g x)) l.
Proof.
  induction l as [|x l IH]; simpl; [reflexivity|]. now rewrite IH.
Qed.

Lemma flat_map_nil (l : list A) : flat_map (fun _ : A => @nil B) l = [].
Proof. induction l as [|x l IH]; simpl; [reflexivity | exact IH]. Qed.

Lemma filter_all (f : A -> bool) (l : list A) :
  Forall (fun x => f x = true) l -> List.filter f l = l.
Proof.
  induction 1 as [|x l Hx _ IH]; simpl; [reflexivity|]. now rewrite Hx, IH.
Qed.

Lemma filter_none (f : A -> bool) (l : list A) :
  Forall (fun x => f x = false) l -> List.filter f l = [].
Proof.
  induction 1 as [|x l Hx _ IH]; simpl; [reflexivity|]. now rewrite Hx, IH.
Qed.

End ListFacts.

(** Rows that all carry key [v], followed by rows that do not mention it:
    the key is kept once. *)
Lemma distinct_block (blk rest : list Z) (v : Z) :
  Forall (eq v) blk -> ~ In v rest ->
  distinct (blk ++ rest)%list =
  match blk with
  | [] => distinct rest
  | _ :: _ => v :: distinct rest
  end.
Proof.
  intros Hblk Hv. induction Hblk as [|a blk Ha Hblk IH]; [reflexivity|].
  subst a. unfold distinct in *. simpl.
  destruct blk as [|b blk].
  - simpl. destruct (in_dec _ v rest) as [Hin|_]; [contradiction | reflexivity].
  - inversion Hblk as [|? ? Hb _]; subst b.
    destruct (in_dec _ v ((v :: blk) ++ rest)%list) as [_|Hn].
    + exact IH.
    + exfalso. apply Hn. simpl. now left.
Qed.

Section Window.

Lemma ordered_of_from (s : way_row) :
  Views.ordered_of s = Builder.ordered_from s 1 (row_nodes s).
Proof. reflexivity. Qed.

Lemma ordered_from_way_id (s : way_row) (start : nat) (ns : list Z) :
  Forall (fun o => o_way_id o = way_id s) (Builder.ordered_from s start ns).
Proof.
  unfold Builder.ordered_from. apply List.Forall_forall. intros o Ho.
  apply in_map_iff in Ho. destruct Ho as (t & <- & _). reflexivity.
Qed.

Lemma order_by_ord_sorted (s : way_row) (ns : list Z) (start : nat) :
  Views.order_by_ord (Builder.ordered_from s start ns) = Builder.ordered_from s start ns.
Proof.
  revert start. induction ns as [|a ns IH]; intros start; [reflexivity|].
  unfold Builder.ordered_from in *. simpl. rewrite IH.
  destruct ns as [|b ns]; [reflexivity|]. simpl.
  replace (Nat.leb start (S start)) with true; [reflexivity|].
  symmetry. apply Nat.leb_le. lia.
Qed.

Lemma lead_expand (s : way_row) (ns : list Z) (start : nat) :
  flat_map Views.not_null_segment (Views.lead_node_id (Builder.ordered_from s start ns)) =
  map (fun p =>
         {| seg_relation_id := relation_id s;
            seg_station_name := station_name s;
            seg_way_id := way_id s;
            node_from := fst p;
            node_to := snd p |})
      (Builder.consecutive_pairs ns).
Proof.
  revert start. induction ns as [|a ns IH]; intros start; [reflexivity|].
  destruct ns as [|b ns]; [reflexivity|].
  specialize (IH (S start)). unfold Builder.ordered_from in *.
  simpl in *. rewrite IH. reflexivity.
Qed.

Lemma partition_self (s : way_row) :
  Views.partition_of (way_id s) (Views.ordered_of s) = Views.ordered_of s.
Proof.
  apply filter_all. rewrite ordered_of_from.
  eapply List.Forall_impl; [|apply ordered_from_way_id].
  intros o Ho. simpl in Ho. rewrite Ho. apply Z.eqb_refl.
Qed.

Lemma partition_other (s : way_row) (v : Z) :
  way_id s <> v -> Views.partition_of v (Views.ordered_of s) = [].
Proof.
  intros Hne. apply filter_none. rewrite ordered_of_from.
  eapply List.Forall_impl; [|apply ordered_from_way_id].
  intros o Ho. simpl in Ho. rewrite Ho. now apply Z.eqb_neq.
Qed.

Lemma partition_absent (rows : list way_row) (v : Z) :
  ~ In v (map way_id rows) ->
  Views.partition_of v (flat_map Views.ordered_of rows) = [].
Proof.
  induction rows as [|s rows IH]; intros Hv; [reflexivity|].
  simpl in *. unfold Views.partition_of in *. rewrite List.filter_app.
  fold (Views.partition_of v (Views.ordered_of s)).
  rewrite partition_other by tauto. rewrite IH by tauto. reflexivity.
Qed.

Lemma partition_row (rows : list way_row) (s : way_row) :
  List.NoDup (map way_id rows) -> In s rows ->
  Views.partition_of (way_id s) (flat_map Views.ordered_of rows) = Views.ordered_of s.
Proof.
  induction rows as [|s0 rows IH]; intros Hnd Hin; [contradiction|].
  simpl in Hnd. apply List.NoDup_cons_iff in Hnd. destruct Hnd as [Hs0 Hnd].
  simpl. unfold Views.partition_of. rewrite List.filter_app.
  fold (Views.partition_of (way_id s) (Views.ordered_of s0)).
  fold (Views.partition_of (way_id s) (flat_map Views.ordered_of rows)).
  destruct Hin as [-> | Hin].
  - rewrite partition_self, partition_absent by assumption. apply app_nil_r.
  - rewrite partition_other, IH by (try assumption; intros E; apply Hs0;
                                     rewrite E; now apply in_map).
    reflexivity.
Qed.

End Window.

Lemma flat_map_ext_in {A B} (f g : A -> list B) (l : list A) :
  (forall a, In a l -> f a = g a) -> flat_map f l = flat_map g l.
Proof.
  induction l as [|x l IH]; intros H; simpl; [reflexivity|].
  rewrite (H x) by now left. rewrite IH; [reflexivity|].
  intros a Ha. apply H. now right.
Qed.

Section Segments.

Lemma ordered_way_ids (rows : list way_row) (o : ordered_row) :
  In o (flat_map Views.ordered_of rows) -> In (o_way_id o) (map way_id rows).
Proof.
  intros Ho. apply in_flat_map in Ho. destruct Ho as (s & Hs & Ho).
  pose proof (ordered_from_way_id s 1 (row_nodes s)) as Hall.
  rewrite <- ordered_of_from in Hall.
  rewrite List.Forall_forall in Hall. rewrite (Hall o Ho). now apply in_map.
Qed.

Lemma partition_keys_rows (rows : list way_row) :
  List.NoDup (map way_id rows) ->
  Views.partition_keys (flat_map Views.ordered_of rows) =
  flat_map (fun s => match row_nodes s with [] => [] | _ :: _ => [way_id s] end) rows.
Proof.
  induction rows as [|s rows IH]; intros Hnd; [reflexivity|].
  simpl in Hnd. apply List.NoDup_cons_iff in Hnd. destruct Hnd as [Hs Hnd].
  unfold Views.partition_keys in *. simpl. rewrite map_app.
  rewrite (distinct_block _ _ (way_id s)).
  - rewrite IH by assumption.
    destruct (row_nodes s) eqn:E; unfold Views.ordered_of; rewrite E; reflexivity.
  - pose proof (ordered_from_way_id s 1 (row_nodes s)) as Hall.
    rewrite <- ordered_of_from in Hall.
    apply List.Forall_forall. intros v Hv. apply in_map_iff in Hv.
    destruct Hv as (o & <- & Ho). rewrite List.Forall_forall in Hall.
    symmetry. now apply Hall.
  - intros Hin. apply in_map_iff in Hin. destruct Hin as (o & Ho & Hin).
    apply ordered_way_ids in Hin. rewrite Ho in Hin. contradiction.
Qed.

Lemma expand_empty (s : way_row) : row_nodes s = [] -> Builder.expand s = [].
Proof. unfold Builder.expand. now intros ->. Qed.

(** When every way id labels one row, the window yields each row's
    consecutive pairs, row after row. *)
Lemma window_lead_rows (rows : list way_row) :
  List.NoDup (map way_id rows) ->
  flat_map Views.not_null_segment (Views.window_lead (flat_map Views.ordered_of rows)) =
  flat_map Builder.expand rows.
Proof.
  intros Hnd. unfold Views.window_lead.
  rewrite flat_map_flat_map, partition_keys_rows by assumption.
  rewrite flat_map_flat_map. apply flat_map_ext_in. intros s Hs.
  destruct (row_nodes s) as [|a ns] eqn:E.
  - simpl. symmetry. now apply expand_empty.
  - simpl. rewrite app_nil_r, partition_row by assumption.
    rewrite ordered_of_from, order_by_ord_sorted, lead_expand. reflexivity.
Qed.

Lemma expand_relation (s : way_row) :
  Forall (fun x => seg_relation_id x = relation_id s) (Builder.expand s).
Proof.
  apply List.Forall_forall. intros x Hx. unfold Builder.expand in Hx.
  apply in_map_iff in Hx. destruct Hx as (p & <- & _). reflexivity.
Qed.

Lemma filter_expand (rows : list way_row) (r : Z) :
  List.filter (fun x => Z.eqb (seg_relation_id x) r) (flat_map Builder.expand rows) =
  flat_map Builder.expand (List.filter (fun s => Z.eqb (relation_id s) r) rows).
Proof.
  induction rows as [|s rows IH]; [reflexivity|].
  simpl. rewrite List.filter_app, IH.
  destruct (Z.eqb (relation_id s) r) eqn:E; simpl.
  - f_equal. apply filter_all.
    eapply List.Forall_impl; [|apply expand_relation].
    intros x Hx. simpl in Hx. now rewrite Hx.
  - rewrite filter_none; [reflexivity|].
    eapply List.Forall_impl; [|apply expand_relation].
    intros x Hx. simpl in Hx. now rewrite Hx.
Qed.

Lemma segments_of_expansion (db : snapshot) (r : Z) :
  List.NoDup (map way_id (Views.station_ways_with_nodes_plus_pedestrian db)) ->
  Views.segments_of db r = flat_map Builder.expand (Views.union_ways_of db r).
Proof.
  intros Hnd.
  unfold Views.segments_of, Views.station_way_segments, Views.with_next,
    Views.ordered.
  rewrite window_lead_rows by assumption. apply filter_expand.
Qed.

End Segments.

Section Provenance.

Lemma in_insert_by_ord (x r : ordered_row) (l : list ordered_row) :
  In x (Views.insert_by_ord r l) <-> x = r \/ In x l.
Proof.
  induction l as [|y l IH]; simpl.
  - intuition.
  - destruct (Nat.leb (ord r) (ord y)); simpl; [intuition|].
    rewrite IH. intuition.
Qed.

Lemma in_order_by_ord (x : ordered_row) (l : list ordered_row) :
  In x (Views.order_by_ord l) <-> In x l.
Proof.
  induction l as [|y l IH]; simpl; [reflexivity|].
  rewrite in_insert_by_ord, IH. intuition.
Qed.

Lemma lead_node_id_source (x : with_next_row) (l : list ordered_row) :
  In x (Views.lead_node_id l) ->
  exists o, In o l /\ n_relation_id x = o_relation_id o /\ n_way_id x = o_way_id o.
Proof.
  induction l as [|o l IH]; simpl; [contradiction|].
  intros [<- | Hx].
  - exists o. simpl. auto.
  - destruct (IH Hx) as (o' & Ho' & H). exists o'. auto.
Qed.

(** Every segment stems from a row of the union with its relation id. *)
Lemma segment_source (db : snapshot) (x : segment) :
  In x (Views.station_way_segments db) ->
  exists s, In s (Views.station_ways_with_nodes_plus_pedestrian db) /\
            relation_id s = seg_relation_id x.
Proof.
  unfold Views.station_way_segments, Views.with_next, Views.window_lead.
  intros Hx. apply in_flat_map in Hx. destruct Hx as (wn & Hwn & Hx).
  apply in_flat_map in Hwn. destruct Hwn as (v & _ & Hwn).
  apply lead_node_id_source in Hwn. destruct Hwn as (o & Ho & Hrel & _).
  rewrite in_order_by_ord in Ho. apply filter_In in Ho. destruct Ho as [Ho _].
  unfold Views.ordered in Ho. apply in_flat_map in Ho.
  destruct Ho as (s & Hs & Ho). exists s. split; [assumption|].
  unfold Views.ordered_of in Ho. apply in_map_iff in Ho.
  destruct Ho as (t & <- & _). simpl in Hrel.
  unfold Views.not_null_segment in Hx.
  destruct (n_node_to wn); [|contradiction].
  destruct Hx as [<- | []]. simpl. congruence.
Qed.

End Provenance.

Lemma no_rows_nil {A} (l : list A) : (forall x, ~ In x l) -> l = [].
Proof.
  destruct l as [|a l]; [reflexivity|]. intros H. exfalso. apply (H a). now left.
Qed.

(** *** A station whose ways belong to it alone *)

Lemma filter_split {A} (f : A -> bool) (l : list A) :
  Permutation l (List.filter f l ++ List.filter (fun x => negb (f x)) l)%list.
Proof.
  induction l as [|x l IH]; simpl; [constructor|].
  destruct (f x); simpl.
  - now constructor.
  - now apply Permutation_cons_app.
Qed.

Section Unshared.
Variable rows : list way_row.
Variable r : Z.
Hypothesis rows_distinct : List.NoDup rows.
Hypothesis own_ways :
  forall s s', In s rows -> In s' rows ->
               relation_id s = r -> way_id s' = way_id s -> s' = s.

Lemma partition_single_row (l : list way_row) (s : way_row) :
  List.NoDup l -> In s l ->
  (forall s', In s' l -> way_id s' = way_id s -> s' = s) ->
  Views.partition_of (way_id s) (flat_map Views.ordered_of l) = Views.ordered_of s.
Proof.
  induction l as [|s0 l IH]; intros Hnd Hin Hown; [contradiction|].
  apply List.NoDup_cons_iff in Hnd. destruct Hnd as [Hs0 Hnd].
  simpl. unfold Views.partition_of. rewrite List.filter_app.
  fold (Views.partition_of (way_id s) (Views.ordered_of s0)).
  fold (Views.partition_of (way_id s) (flat_map Views.ordered_of l)).
  destruct Hin as [-> | Hin].
  - rewrite partition_self, partition_absent; [apply app_nil_r|].
    intros Hv. apply in_map_iff in Hv. destruct Hv as (s' & Hid & Hs').
    apply Hs0. rewrite <- (Hown s' (or_intror Hs') Hid). exact Hs'.
  - rewrite partition_other, IH; auto.
    + intros s' Hs' Hid. apply Hown; [now right | exact Hid].
    + intros Hid. apply Hs0. rewrite (Hown s0 (or_introl eq_refl) Hid). exact Hin.
Qed.

Lemma pairs_of_own_row (s : way_row) :
  In s rows -> relation_id s = r ->
  List.filter (fun x => Z.eqb (seg_relation_id x) r) (Builder.pairs_of rows (way_id s)) = Builder.expand s.
Proof.
  intros Hs Hr. unfold Builder.pairs_of.
  rewrite (partition_single_row rows s rows_distinct Hs).
  - rewrite ordered_of_from, order_by_ord_sorted, lead_expand.
    apply filter_all. eapply List.Forall_impl; [|apply expand_relation].
    intros x Hx. simpl in Hx. rewrite Hx, Hr. apply Z.eqb_refl.
  - intros s' Hs' Hid. now apply own_ways.
Qed.

Lemma pairs_of_other_station (v : Z) :
  (forall s, In s rows -> way_id s = v -> relation_id s <> r) ->
  List.filter (fun x => Z.eqb (seg_relation_id x) r) (Builder.pairs_of rows v) = [].
Proof.
  intros Hv. apply no_rows_nil. intros x Hx. apply filter_In in Hx.
  destruct Hx as [Hx Hr]. apply Z.eqb_eq in Hr. unfold Builder.pairs_of in Hx.
  apply in_flat_map in Hx. destruct Hx as (wn & Hwn & Hx).
  apply lead_node_id_source in Hwn. destruct Hwn as (o & Ho & Hrel & _).
  rewrite in_order_by_ord in Ho. apply filter_In in Ho. destruct Ho as [Ho Hid].
  apply Z.eqb_eq in Hid. apply in_flat_map in Ho. destruct Ho as (s & Hs & Ho).
  unfold Views.ordered_of in Ho. apply in_map_iff in Ho. destruct Ho as (t & <- & _).
  simpl in *. unfold Views.not_null_segment in Hx.
  destruct (n_node_to wn); [|contradiction]. destruct Hx as [<- | []].
  simpl in Hr. apply (Hv s Hs Hid). congruence.
Qed.

Lemma own_key_true (v : Z) :
  Builder.own_key rows r v = true <-> exists s, In s rows /\ relation_id s = r /\ way_id s = v.
Proof.
  unfold Builder.own_key. rewrite existsb_exists. split; intros (s & Hs & H); exists s.
  - apply andb_true_iff in H. rewrite !Z.eqb_eq in H. tauto.
  - split; [tauto|]. apply andb_true_iff. rewrite !Z.eqb_eq. tauto.
Qed.

Lemma in_partition_keys (v : Z) :
  In v (Views.partition_keys (flat_map Views.ordered_of rows)) <->
  exists s, In s rows /\ way_id s = v /\ Builder.has_nodes s = true.
Proof.
  unfold Views.partition_keys. rewrite distinct_In, in_map_iff. split.
  - intros (o & Hv & Ho). apply in_flat_map in Ho. destruct Ho as (s & Hs & Ho).
    exists s. split; [assumption|]. unfold Views.ordered_of in Ho.
    apply in_map_iff in Ho. destruct Ho as (t & <- & Ht). simpl in Hv.
    split; [assumption|]. unfold Builder.has_nodes.
    unfold Sql.unnest_with_ordinality in Ht.
    destruct (row_nodes s); [contradiction | reflexivity].
  - intros (s & Hs & Hv & Hn). unfold Builder.has_nodes in Hn.
    destruct (row_nodes s) as [|a ns] eqn:E; [discriminate|].
    exists {| o_relation_id := relation_id s; o_station_name := station_name s;
              o_way_id := way_id s; o_node_id := a; ord := 1 |}.
    split; [exact Hv|]. apply in_flat_map. exists s. split; [assumption|].
    unfold Views.ordered_of, Sql.unnest_with_ordinality. rewrite E. simpl. now left.
Qed.

Lemma own_keys_rows :
  Permutation
    (List.filter (Builder.own_key rows r) (Views.partition_keys (flat_map Views.ordered_of rows)))
    (map way_id
         (List.filter Builder.has_nodes
                      (List.filter (fun s => Z.eqb (relation_id s) r) rows))).
Proof.
  apply Permutation.NoDup_Permutation.
  - apply List.NoDup_filter. unfold Views.partition_keys. apply distinct_NoDup.
  - apply NoDup_map_NoDup_ForallPairs.
    + intros a b Ha Hb Hid. apply filter_In in Ha, Hb.
      destruct Ha as [Ha _], Hb as [Hb _]. apply filter_In in Ha, Hb.
      destruct Ha as [Ha _], Hb as [Hb Hr]. apply Z.eqb_eq in Hr.
      now apply own_ways.
    + now do 2 apply List.NoDup_filter.
  - intros v. rewrite filter_In, in_partition_keys, own_key_true, in_map_iff. split.
    + intros [(s' & Hs' & Hv' & Hn) (s & Hs & Hr & Hv)].
      assert (s' = s) as -> by (apply own_ways; congruence).
      exists s. split; [assumption|]. rewrite !filter_In, Z.eqb_eq. tauto.
    + intros (s & Hv & Hs). rewrite !filter_In, Z.eqb_eq in Hs.
      split; exists s; tauto.
Qed.

Lemma window_lead_own_rows :
  Permutation
    (List.filter (fun x => Z.eqb (seg_relation_id x) r)
       (flat_map Views.not_null_segment
                 (Views.window_lead (flat_map Views.ordered_of rows))))
    (flat_map Builder.expand (List.filter (fun s => Z.eqb (relation_id s) r) rows)).
Proof.
  unfold Views.window_lead. rewrite flat_map_flat_map, filter_flat_map.
  change (fun v => List.filter (fun x => Z.eqb (seg_relation_id x) r)
                     (flat_map Views.not_null_segment
                        (Views.lead_node_id
                           (Views.order_by_ord
                              (Views.partition_of v (flat_map Views.ordered_of rows))))))
    with (fun v => List.filter (fun x => Z.eqb (seg_relation_id x) r)
                     (Builder.pairs_of rows v)).
  rewrite (filter_split (Builder.own_key rows r) (Views.partition_keys _)) at 1.
  rewrite List.flat_map_app.
  rewrite (flat_map_ext_in _ (fun _ => []) (List.filter (fun x => negb (Builder.own_key rows r x)) _)).
  - rewrite flat_map_nil, app_nil_r, own_keys_rows, flat_map_map.
    rewrite (flat_map_ext_in _ Builder.expand).
    + set (l := List.filter _ rows). clear. induction l as [|s l IH]; [reflexivity|].
      simpl. destruct (Builder.has_nodes s) eqn:E; simpl.
      * now apply Permutation_app_head.
      * rewrite expand_empty; [exact IH|]. unfold Builder.has_nodes in E.
        destruct (row_nodes s); [reflexivity | discriminate].
    + intros s Hs. apply filter_In in Hs. destruct Hs as [Hs _].
      apply filter_In in Hs. destruct Hs as [Hs Hr]. apply Z.eqb_eq in Hr.
      now apply pairs_of_own_row.
  - intros v Hv. apply filter_In in Hv. destruct Hv as [_ Hv].
    apply negb_true_iff in Hv. apply pairs_of_other_station.
    intros s Hs Hid Hr. assert (H : Builder.own_key rows r v = true) by (apply own_key_true; eauto).
    congruence.
Qed.

End Unshared.

Lemma segments_of_unshared (db : snapshot) (r : Z) :
  Builder.unshared db r ->
  Permutation (Views.segments_of db r)
              (flat_map Builder.expand (Views.union_ways_of db r)).
Proof.
  intros Hown.
  unfold Views.segments_of, Views.station_way_segments, Views.with_next,
    Views.ordered, Views.union_ways_of.
  apply window_lead_own_rows.
  - unfold Views.station_ways_with_nodes_plus_pedestrian. apply distinct_NoDup.
  - exact Hown.
Qed.

Lemma distinct_ids_unshared (db : snapshot) (r : Z) :
  List.NoDup (map way_id (Views.station_ways_with_nodes_plus_pedestrian db)) ->
  Builder.unshared db r.
Proof.
  unfold Builder.unshared.
  induction (Views.station_ways_with_nodes_plus_pedestrian db) as [|x l IH];
    intros Hnd s s' Hs Hs' Hr Hid; [contradiction|].
  simpl in Hnd. apply List.NoDup_cons_iff in Hnd. destruct Hnd as [Hx Hnd].
  destruct Hs as [-> | Hs], Hs' as [-> | Hs'].
  - reflexivity.
  - exfalso. apply Hx. rewrite <- Hid. now apply in_map.
  - exfalso. apply Hx. rewrite Hid. now apply in_map.
  - now apply IH.
Qed.

(** ** The precomputed segments *)

(** C2, as stated, fails: track 5 is a member way of station A with nodes
    20, 21, so expanding queries (a)+(b) gives the pair (20, 21); the view
    has no segment for it, since its union keeps walkable ways only. *)
Lemma precomputed_segments_counterexample :
  ~ (forall x, In x (Views.segments_of Sample.single 100) <->
               In x (Builder.query_c Sample.single 100)).
Proof.
  intros H.
  assert (Hq : In (Sample.seg 100 "A" 5 20 21) (Builder.query_c Sample.single 100)).
  { vm_compute. tauto. }
  apply H in Hq. vm_compute in Hq.
  repeat (destruct Hq as [Hq | Hq]; [discriminate Hq|]). exact Hq.
Qed.

(** C2, amended.  For a station none of whose ways is attached to a second
    station (no other row of the pathfinding union carries the way id of one
    of its rows), the segments are exactly, as a bag, the consecutive node
    pairs of its union rows: a row with nodes n_1 .. n_k gives the k-1 pairs
    (n_i, n_i+1), tagged with the row's way id.  The union rows of a station
    are its walkable member ways and its one-hop walkable ways. *)
Theorem precomputed_segments (db : snapshot) (r : Z) :
  Builder.unshared db r ->
  Permutation (Views.segments_of db r)
              (flat_map Builder.expand (Views.union_ways_of db r)) /\
  (forall s, length (Builder.expand s) = (length (row_nodes s) - 1)%nat) /\
  (forall s i a b,
      nth_error (row_nodes s) i = Some a -> nth_error (row_nodes s) (S i) = Some b ->
      nth_error (Builder.expand s) i =
      Some {| seg_relation_id := relation_id s;
              seg_station_name := station_name s;
              seg_way_id := way_id s;
              node_from := a;
              node_to := b |}) /\
  (forall x,
      In x (Views.union_ways_of db r) <->
      (In x (Views.member_ways_of db r) /\ Builder.walkable_class (row_tags x)) \/
      In x (Views.one_hop_ways_of db r)).
Proof.
  intros Hnd. split; [|split; [|split]].
  - now apply segments_of_unshared.
  - intros s. unfold Builder.expand. rewrite length_map.
    induction (row_nodes s) as [|a ns IH]; [reflexivity|].
    destruct ns as [|b ns]; [reflexivity|]. simpl in *. rewrite IH. lia.
  - intros s. unfold Builder.expand. induction (row_nodes s) as [|n ns IH].
    + intros [|i] a b Ha; discriminate Ha.
    + intros i a b Ha Hb. destruct ns as [|m ns].
      * destruct i; discriminate Hb.
      * destruct i as [|i].
        -- simpl in *. congruence.
        -- simpl in Ha. change (nth_error (m :: ns) (S i) = Some b) in Hb.
           apply (IH i a b Ha Hb).
  - intros x. rewrite in_union_ways_of, in_member_ways_of, in_one_hop_ways_of.
    rewrite in_station_ways_with_nodes_plus_pedestrian, in_station_walkable_ways.
    rewrite <- walkable_iff_class. tauto.
Qed.

Lemma precomputed_segments_witness :
  Permutation (Views.segments_of Sample.single 100)
              (flat_map Builder.expand (Views.union_ways_of Sample.single 100)).
Proof.
  apply (precomputed_segments Sample.single 100).
  apply distinct_ids_unshared.
  vm_compute. repeat (constructor; [simpl; intuition discriminate|]). constructor.
Defined.

Example segments_of_station_A :
  Views.segments_of Sample.single 100 =
  [ Sample.seg 100 "A" 1 1 2; Sample.seg 100 "A" 1 2 3; Sample.seg 100 "A" 2 3 4;
    Sample.seg 100 "A" 3 7 8; Sample.seg 100 "A" 3 8 9; Sample.seg 100 "A" 4 1 3;
    Sample.seg 100 "A" 7 3 30 ].
Proof. vm_compute. reflexivity. Qed.

(** ** The order of peer rows *)

Section PeerOrder.

Lemma insert_by_ord_perm (r : ordered_row) (l : list ordered_row) :
  Permutation (r :: l) (Views.insert_by_ord r l).
Proof.
  induction l as [|x l IH]; simpl; [reflexivity|].
  destruct (Nat.leb (ord r) (ord x)); [reflexivity|].
  rewrite perm_swap. now apply perm_skip.
Qed.


Lemma insert_by_ord_ordered (r : ordered_row) (l : list ordered_row) :
  StronglySorted (fun a b => (ord a <= ord b)%nat) l ->
  StronglySorted (fun a b => (ord a <= ord b)%nat) (Views.insert_by_ord r l).
Proof.
  induction l as [|x l IH]; intros Hl; simpl.
  - constructor; constructor.
  - apply StronglySorted_inv in Hl. destruct Hl as [Hl Hx].
    destruct (Nat.leb (ord r) (ord x)) eqn:E.
    + apply Nat.leb_le in E. constructor; [now constructor|].
      constructor; [assumption|].
      eapply List.Forall_impl; [|exact Hx]. intros a Ha. simpl in Ha. lia.
    + apply Nat.leb_gt in E. constructor; [now apply IH|].
      apply List.Forall_forall. intros a Ha.
      apply (Permutation_in _ (Permutation_sym (insert_by_ord_perm r l))) in Ha.
      destruct Ha as [<- | Ha]; [lia|].
      rewrite List.Forall_forall in Hx. now apply Hx.
Qed.


(** Both sorts return an order that [ORDER BY ord] allows. *)
Lemma order_by_ord_allowed (l : list ordered_row) :
  Window.allowed l (Views.order_by_ord l).
Proof.
  induction l as [|r l [Hp Hs]]; simpl.
  - split; [reflexivity | constructor].
  - split.
    + rewrite <- insert_by_ord_perm. now apply perm_skip.
    + now apply insert_by_ord_ordered.
Qed.




End PeerOrder.

Section AnyExecutor.
Variable rows : list way_row.
Variable r : Z.
Variable order : list ordered_row -> list ordered_row.
Hypothesis rows_distinct : List.NoDup rows.
Hypothesis own_ways :
  forall s s', In s rows -> In s' rows ->
               relation_id s = r -> way_id s' = way_id s -> s' = s.
Hypothesis order_allowed : Window.executor (flat_map Views.ordered_of rows) order.




End AnyExecutor.



(** The view as embedded in [Views] is the evaluation by the executor that
    keeps peers in arrival order. *)
Lemma station_way_segments_executor (db : snapshot) :
  Views.station_way_segments db =
  Window.station_way_segments Views.order_by_ord db /\
  Window.executor (Views.ordered db) Views.order_by_ord.
Proof. split; [reflexivity | intros v; apply order_by_ord_allowed]. Qed.


(** ** A way attached to two stations *)


(** ** A station without member ways *)

Section EmptyStation.
Variable db : snapshot.
Variable r : Z.
Hypothesis no_member_way : Views.member_ways_of db r = [].

Lemma no_member_row (s : way_row) :
  In s (Views.station_ways_with_nodes db) -> relation_id s <> r.
Proof.
  intros Hs Hr.
  assert (H : In s (Views.member_ways_of db r)) by (apply in_member_ways_of; auto).
  rewrite no_member_way in H. contradiction.
Qed.

Lemma no_union_row (x : way_row) :
  In x (Views.station_ways_with_nodes_plus_pedestrian db) -> relation_id x <> r.
Proof.
  rewrite in_station_ways_with_nodes_plus_pedestrian. intros [H | H].
  - apply in_station_walkable_ways in H. now apply no_member_row.
  - apply in_station_pedestrian_ways_with_nodes in H.
    destruct H as (w & s & _ & Hs & _ & _ & ->). simpl.
    apply in_station_walkable_ways in Hs. now apply no_member_row.
Qed.

Lemma empty_union_ways : Views.union_ways_of db r = [].
Proof.
  apply no_rows_nil. intros x Hx. apply in_union_ways_of in Hx.
  destruct Hx as [Hx Hr]. now apply (no_union_row x).
Qed.

Lemma empty_segments : Views.segments_of db r = [].
Proof.
  apply no_rows_nil. intros x Hx. unfold Views.segments_of in Hx.
  apply filter_In in Hx. destruct Hx as [Hx Hr]. apply Z.eqb_eq in Hr.
  apply segment_source in Hx. destruct Hx as (s & Hs & Hrel).
  apply (no_union_row s Hs). congruence.
Qed.

Lemma empty_platform_edges : Views.platform_edges_of db r = [].
Proof.
  apply no_rows_nil. intros e He. apply in_platform_edges_of in He.
  destruct He as [He Hr]. apply in_platform_edges_indexed in He.
  destruct He as (_ & _ & _ & (n & _ & Hp) & _).
  destruct Hp as (rel & m & w & Hrel & Ht & Hp & Hid & Hn & Hm & _ & Hty & Hw & Hw' & _).
  apply (no_member_row
           {| relation_id := rel_id rel;
              station_name := Sql.get_text (rel_tags rel) "name";
              way_id := id w; row_nodes := nodes w; row_tags := tags w |}).
  - apply in_station_ways_with_nodes.
    exists {| spw_relation_id := rel_id rel;
              spw_station_name := Sql.get_text (rel_tags rel) "name";
              way_ref := mem_ref m;
              member_role := mem_role m;
              member_type := mem_type m |}, w.
    repeat split; auto.
    apply in_station_platform_ways. exists rel, m. repeat split; auto.
    apply is_stop_area_iff. split; assumption.
  - simpl. congruence.
Qed.

Lemma empty_graph : Graph.build db r = Graph.empty.
Proof.
  unfold Graph.build. rewrite empty_union_ways, empty_segments. reflexivity.
Qed.

End EmptyStation.

(** ** The tiers of the feasibility evaluator *)

(** C5. The evaluator answers with the result of the first tier, in the
    order 1 to 4, whose condition applies: no earlier tier applies to the
    input; and when the two platforms are the same the tier is 1. *)
Theorem first_applicable_tier (cfg : Evaluator.config) (g : Graph.WalkableGraph)
        (edges : list edge_row) (P_a P_d : string) (W : Z) :
  (exists t,
      Evaluator.attempt cfg g edges P_a P_d W t =
        Some (Evaluator.evaluate cfg g edges P_a P_d W) /\
      Evaluator.res_tier (Evaluator.evaluate cfg g edges P_a P_d W) = t /\
      forall t',
        (Evaluator.tier_number t' < Evaluator.tier_number t)%nat ->
        Evaluator.attempt cfg g edges P_a P_d W t' = None) /\
  (P_a = P_d ->
   Evaluator.res_tier (Evaluator.evaluate cfg g edges P_a P_d W) = Evaluator.Tier1).
Proof.
  split.
  - unfold Evaluator.evaluate.
    destruct (Evaluator.tier1_condition P_a P_d) eqn:E1.
    + exists Evaluator.Tier1. simpl. rewrite E1. repeat split.
      intros [] H; simpl in H; lia.
    + destruct (Evaluator.tier2_path cfg g edges P_a P_d) as [d|] eqn:E2.
      * exists Evaluator.Tier2. simpl. rewrite E2. repeat split.
        intros [] H; simpl in H; try lia. simpl. now rewrite E1.
      * destruct (Evaluator.tier3_path cfg g edges P_a P_d) as [d|] eqn:E3.
        -- exists Evaluator.Tier3. simpl. rewrite E3. repeat split.
           intros [] H; simpl in H; try lia; simpl; now rewrite ?E1, ?E2.
        -- exists Evaluator.Tier4. simpl. repeat split.
           intros [] H; simpl in H; try lia; simpl; now rewrite ?E1, ?E2, ?E3.
  - intros ->. unfold Evaluator.evaluate, Evaluator.tier1_condition.
    rewrite String.eqb_refl. reflexivity.
Qed.

Lemma first_applicable_tier_witness :
  Evaluator.res_tier
    (Evaluator.evaluate Sample.cfg (Graph.build Sample.single 100)
                        (Views.platform_edges_of Sample.single 100) "1" "1" 180)
  = Evaluator.Tier1.
Proof.
  apply (first_applicable_tier Sample.cfg (Graph.build Sample.single 100)
                               (Views.platform_edges_of Sample.single 100)
                               "1" "1" 180).
  reflexivity.
Defined.

(** The scenarios of section 8 on the sample station. *)
Example same_platform_scenario :
  let res := Evaluator.evaluate_at Sample.cfg Sample.single 100 "1" "1" 180 in
  Evaluator.res_verdict res = Evaluator.FEASIBLE /\
  Evaluator.res_tier res = Evaluator.Tier1.
Proof. vm_compute. split; reflexivity. Qed.

Example marginal_scenario : Evaluator.classify Sample.cfg 250 240 = Evaluator.MARGINAL.
Proof. reflexivity. Qed.

Example adjoining_scenario :
  Evaluator.res_tier (Evaluator.evaluate_at Sample.cfg Sample.single 100 "1" "2" 180)
  = Evaluator.Tier2.
Proof. vm_compute. reflexivity. Qed.

(** C6, as stated, fails for a transfer within one platform: station C has
    no member way, and the evaluator answers through Tier 1. *)
Lemma empty_member_set_counterexample :
  ~ (Views.member_ways_of Sample.single 300 = [] ->
     forall cfg P_a P_d W,
       Evaluator.res_tier (Evaluator.evaluate_at cfg Sample.single 300 P_a P_d W)
       = Evaluator.Tier4).
Proof.
  intros H. specialize (H eq_refl Sample.cfg "1" "1" 180).
  vm_compute in H. discriminate H.
Qed.

(** C6, amended.  A station whose relation has no member way gets the empty
    graph (no nodes, no edges) and no segments, and the evaluator answers
    for it through Tier 4 unless the two platforms are the same, when it
    answers through Tier 1. *)
Theorem empty_member_set (db : snapshot) (r : Z) :
  Views.member_ways_of db r = [] ->
  Graph.build db r = Graph.empty /\
  Views.segments_of db r = [] /\
  forall cfg P_a P_d W,
    Evaluator.res_tier (Evaluator.evaluate_at cfg db r P_a P_d W) =
    if String.eqb P_a P_d then Evaluator.Tier1 else Evaluator.Tier4.
Proof.
  intros Hm. split; [now apply empty_graph|]. split; [now apply empty_segments|].
  intros cfg P_a P_d W. unfold Evaluator.evaluate_at.
  rewrite empty_graph, empty_platform_edges by assumption.
  unfold Evaluator.evaluate, Evaluator.tier1_condition.
  destruct (String.eqb P_a P_d); reflexivity.
Qed.

Lemma empty_member_set_witness :
  Graph.build Sample.single 300 = Graph.empty /\
  Views.segments_of Sample.single 300 = [].
Proof.
  destruct (empty_member_set Sample.single 300) as (Hg & Hs & _).
  - vm_compute. reflexivity.
  - split; assumption.
Defined.

(** ** The ranking of the journey assembler *)

Section Ranking.

Lemma journey_leb_ranked (a b : Journeys.Journey) :
  Journeys.journey_leb a b = true <-> Journeys.ranked_before a b.
Proof.
  unfold Journeys.journey_leb, Journeys.ranked_before.
  rewrite orb_true_iff, andb_true_iff, Z.ltb_lt, Z.eqb_eq, Nat.leb_le.
  reflexivity.
Qed.

Lemma journey_leb_total (a b : Journeys.Journey) :
  Journeys.journey_leb a b = false -> Journeys.ranked_before b a.
Proof.
  unfold Journeys.journey_leb, Journeys.ranked_before.
  rewrite orb_false_iff, andb_false_iff, Z.ltb_ge, Z.eqb_neq, Nat.leb_gt.
  lia.
Qed.

Lemma ranked_before_trans (a b c : Journeys.Journey) :
  Journeys.ranked_before a b -> Journeys.ranked_before b c ->
  Journeys.ranked_before a c.
Proof. unfold Journeys.ranked_before. lia. Qed.

Lemma in_insert_ranked (x j : Journeys.Journey) (l : list Journeys.Journey) :
  In x (Journeys.insert_ranked j l) <-> x = j \/ In x l.
Proof.
  induction l as [|y l IH]; simpl.
  - intuition.
  - destruct (Journeys.journey_leb j y); simpl; [intuition|].
    rewrite IH. intuition.
Qed.

Lemma in_rank (x : Journeys.Journey) (l : list Journeys.Journey) :
  In x (Journeys.rank l) <-> In x l.
Proof.
  induction l as [|y l IH]; simpl; [reflexivity|].
  rewrite in_insert_ranked, IH. intuition.
Qed.

Lemma insert_ranked_sorted (j : Journeys.Journey) (l : list Journeys.Journey) :
  StronglySorted Journeys.ranked_before l ->
  StronglySorted Journeys.ranked_before (Journeys.insert_ranked j l).
Proof.
  induction 1 as [|y l Hl IH Hy]; simpl.
  - constructor; constructor.
  - destruct (Journeys.journey_leb j y) eqn:E.
    + apply journey_leb_ranked in E. constructor.
      * constructor; assumption.
      * constructor; [assumption|].
        eapply List.Forall_impl; [|exact Hy].
        intros z Hz. now apply (ranked_before_trans j y z).
    + apply journey_leb_total in E. constructor; [assumption|].
      apply List.Forall_forall. intros z Hz. apply in_insert_ranked in Hz.
      destruct Hz as [-> | Hz]; [assumption|].
      rewrite List.Forall_forall in Hy. now apply Hy.
Qed.

Lemma rank_sorted (l : list Journeys.Journey) :
  StronglySorted Journeys.ranked_before (Journeys.rank l).
Proof.
  induction l as [|j l IH]; simpl; [constructor|].
  now apply insert_ranked_sorted.
Qed.

Lemma insert_ranked_perm (j : Journeys.Journey) (l : list Journeys.Journey) :
  Permutation (Journeys.insert_ranked j l) (j :: l).
Proof.
  induction l as [|y l IH]; simpl; [reflexivity|].
  destruct (Journeys.journey_leb j y); [reflexivity|].
  rewrite IH. apply perm_swap.
Qed.

Lemma rank_perm (l : list Journeys.Journey) : Permutation (Journeys.rank l) l.
Proof.
  induction l as [|j l IH]; simpl; [reflexivity|].
  rewrite insert_ranked_perm. now constructor.
Qed.

End Ranking.

(** C7. The journeys the assembler returns are in ascending order of total
    duration, two journeys of one duration in order of their number of
    changes; they are the itineraries without an INFEASIBLE transfer, and no
    transfer point of a returned journey evaluates to INFEASIBLE. *)
Theorem assembled_journeys
        (feasibility : Journeys.Leg -> Journeys.Leg -> Evaluator.result)
        (feed : Z -> Journeys.delay_info)
        (itineraries : list (list Journeys.scheduled_leg)) :
  StronglySorted Journeys.ranked_before
                 (Journeys.assemble feasibility feed itineraries) /\
  Forall
    (fun j =>
       Forall (fun p => Evaluator.res_verdict (feasibility (fst p) (snd p))
                        <> Evaluator.INFEASIBLE)
              (Journeys.transfers (Journeys.legs j))
       /\ Journeys.duration_s j = Journeys.total_duration (Journeys.legs j)
       /\ Journeys.num_changes j = length (Journeys.transfers (Journeys.legs j)))
    (Journeys.assemble feasibility feed itineraries) /\
  Permutation
    (Journeys.assemble feasibility feed itineraries)
    (List.filter (Journeys.keeps)
                 (map (Journeys.to_journey feasibility feed) itineraries)).
Proof.
  unfold Journeys.assemble. split; [apply rank_sorted|]. split; [|apply rank_perm].
  apply List.Forall_forall. intros j Hj. rewrite in_rank in Hj.
  apply filter_In in Hj. destruct Hj as [Hj Hk].
  apply in_map_iff in Hj. destruct Hj as (it & <- & _).
  split; [|split; reflexivity].
  unfold Journeys.keeps in Hk. simpl in Hk. apply negb_true_iff in Hk.
  apply List.Forall_forall. intros p Hp Hv.
  assert (Hex : existsb Journeys.is_infeasible
                        (map (fun p => feasibility (fst p) (snd p))
                             (Journeys.transfers
                                (map (Journeys.recompute feed) it))) = true).
  { apply existsb_exists. exists (feasibility (fst p) (snd p)). split.
    - apply in_map_iff. exists p. split; [reflexivity | exact Hp].
    - unfold Journeys.is_infeasible. now rewrite Hv. }
  congruence.
Qed.

Example ranked_connections :
  map Journeys.duration_s
      (Journeys.assemble (Journeys.transfer_feasibility Sample.cfg Sample.single)
                         Sample.on_time
                         [ Sample.direct; Sample.missed; Sample.connection ])
  = [ 7200; 9000 ].
Proof. vm_compute. reflexivity. Qed.

(** ** The journey results component *)

(** C8. The component renders "No journeys found." exactly when it is not
    loading and the response has no (truthy) error and no journeys, the
    list being empty or left out; a response with an error is rendered as
    the error instead, which is a different element; and the answer to a
    query for which the schedule source has no itinerary is rendered as
    "No journeys found.". *)
Theorem no_journeys_found (data : option JourneyResults.response) (loading : bool) :
  (JourneyResults.JourneyResults data loading = JourneyResults.results_empty <->
   loading = false /\
   exists d, data = Some d /\
             Js.truthy (JourneyResults.error d) = false /\
             (JourneyResults.journeys d = Some [] \/ JourneyResults.journeys d = None)) /\
  (forall e,
      JourneyResults.JourneyResults data loading = JourneyResults.results_error e <->
      loading = false /\
      exists d, data = Some d /\ Js.truthy (JourneyResults.error d) = true /\
                e = JourneyResults.error d) /\
  (forall e, JourneyResults.results_empty <> JourneyResults.results_error e) /\
  (forall feasibility feed o d,
      JourneyResults.JourneyResults
        (Some {| JourneyResults.error := Js.Undefined;
                 JourneyResults.journeys :=
                   Some (Journeys.assemble feasibility feed []);
                 JourneyResults.origin := o;
                 JourneyResults.destination := d |})
        false
      = JourneyResults.results_empty).
Proof.
  unfold JourneyResults.JourneyResults. split; [|split; [|split]].
  - destruct loading; [split; [discriminate | intros [H _]; discriminate]|].
    destruct data as [d|]; [|split; [discriminate | intros (_ & d & H & _); discriminate]].
    destruct (Js.truthy (JourneyResults.error d)) eqn:E.
    + split; [discriminate|]. intros (_ & d' & Hd & He & _).
      injection Hd as <-. congruence.
    + destruct (JourneyResults.journeys d) as [[|j js]|] eqn:Ej; simpl.
      * split; [|reflexivity]. intros _. split; [reflexivity|].
        exists d. rewrite Ej. auto.
      * split; [discriminate|]. intros (_ & d' & Hd & _ & [H | H]);
          injection Hd as <-; rewrite Ej in H; discriminate.
      * split; [|reflexivity]. intros _. split; [reflexivity|].
        exists d. rewrite Ej. auto.
  - intros e. destruct loading; [split; [discriminate | intros [H _]; discriminate]|].
    destruct data as [d|]; [|split; [discriminate | intros (_ & d & H & _); discriminate]].
    destruct (Js.truthy (JourneyResults.error d)) eqn:E.
    + split.
      * intros H. injection H as <-. split; [reflexivity|]. exists d. auto.
      * intros (_ & d' & Hd & _ & ->). injection Hd as <-. reflexivity.
    + split.
      * destruct (Nat.eqb _ 0); discriminate.
      * intros (_ & d' & Hd & He & _). injection Hd as <-. congruence.
  - intros e. discriminate.
  - reflexivity.
Qed.

Example no_journeys_rendered :
  JourneyResults.JourneyResults (Some Sample.no_journeys) false
  = JourneyResults.results_empty.
Proof. reflexivity. Qed.

(** ** The autocomplete handler *)

(** C10, as stated, fails for longer inputs: with the menu open on an
    earlier answer and the request for "Pa" rejected, the menu stays shown
    although no station list came back. *)
Lemma autocomplete_counterexample :
  ~ ((2 <= String.length "Pa")%nat ->
     (SearchBarDropDown.shown
        (fst (SearchBarDropDown.run Sample.no_encoding Sample.offline "Pa"
                                    Sample.open_menu)) = true <->
      exists data,
        Sample.offline (SearchBarDropDown.autocomplete_url Sample.no_encoding "Pa")
        = SearchBarDropDown.fetch_resolved true (SearchBarDropDown.json_data data)
        /\ data <> [])).
Proof.
  intros H. specialize (H ltac:(simpl; lia)).
  destruct H as [H _]. destruct (H eq_refl) as (data & Hd & _).
  discriminate Hd.
Qed.

(** C10, amended.  For an input shorter than two characters the handler
    sends no request, hides the menu and calls the completion.  For a
    longer input it sends one request and calls the completion; when the
    response is ok and parses to a station list the menu is shown exactly
    when that list is not empty; in every other case (request rejected,
    response not ok, body not parsed) the menu flag and the stations are
    left as they were. *)
Theorem autocomplete_handler
        (encodeURIComponent : string -> string)
        (network : string -> SearchBarDropDown.fetch_outcome)
        (value : string) (s : SearchBarDropDown.state) :
  let url := SearchBarDropDown.autocomplete_url encodeURIComponent value in
  let s' := fst (SearchBarDropDown.run encodeURIComponent network value s) in
  let log := snd (SearchBarDropDown.run encodeURIComponent network value s) in
  SearchBarDropDown.inputVal s' = value /\
  ((String.length value < 2)%nat ->
   log = [ SearchBarDropDown.completion ] /\
   SearchBarDropDown.showDropdown s' = false /\
   SearchBarDropDown.shown s' = false) /\
  ((2 <= String.length value)%nat ->
   List.filter SearchBarDropDown.is_fetch log = [ SearchBarDropDown.fetch url ] /\
   List.filter SearchBarDropDown.is_completion log = [ SearchBarDropDown.completion ] /\
   (forall data,
       network url = SearchBarDropDown.fetch_resolved true (SearchBarDropDown.json_data data) ->
       SearchBarDropDown.stations s' = data /\
       (SearchBarDropDown.shown s' = true <-> data <> [])) /\
   ((forall data,
        network url <> SearchBarDropDown.fetch_resolved true (SearchBarDropDown.json_data data)) ->
    SearchBarDropDown.showDropdown s' = SearchBarDropDown.showDropdown s /\
    SearchBarDropDown.stations s' = SearchBarDropDown.stations s)).
Proof.
  intros url s' log. subst url s' log.
  unfold SearchBarDropDown.run, SearchBarDropDown.handleChange, SearchBarDropDown.bind.
  simpl.
  destruct (Nat.ltb (String.length value) 2) eqn:E.
  - apply Nat.ltb_lt in E. simpl. split; [reflexivity|].
    split; [|intros H; exfalso; lia].
    intros _. repeat split.
  - apply Nat.ltb_ge in E. simpl.
    destruct (network (SearchBarDropDown.autocomplete_url encodeURIComponent value))
      as [|[|] [|data]] eqn:En; simpl;
      (split; [reflexivity|]); (split; [intros H; exfalso; lia|]); intros _;
      (split; [reflexivity|]); (split; [reflexivity|]); split;
      try (intros data' Hd; discriminate Hd);
      try (intros _; split; reflexivity).
    + intros data' Hd. injection Hd as <-. split; [reflexivity|].
      unfold SearchBarDropDown.shown. simpl.
      destruct data as [|x data]; simpl; split; congruence.
    + intros H. exfalso. apply (H data). reflexivity.
Qed.

Lemma autocomplete_handler_witness :
  snd (SearchBarDropDown.run Sample.no_encoding Sample.offline "P" Sample.open_menu)
  = [ SearchBarDropDown.completion ].
Proof.
  destruct (autocomplete_handler Sample.no_encoding Sample.offline "P" Sample.open_menu)
    as (_ & Hshort & _).
  apply Hshort. simpl. lia.
Defined.

(** ** Builds over the same rows *)

Section SameRows.
Variables db db' : snapshot.
Hypothesis same : Builder.same_rows db db'.

Lemma same_station_platform_ways (x : spw_row) :
  In x (Views.station_platform_ways db) <-> In x (Views.station_platform_ways db').
Proof.
  destruct same as [Hr _]. rewrite !in_station_platform_ways.
  split; intros (r & m & H & Hrest); exists r, m; (split; [now apply Hr | exact Hrest]).
Qed.

Lemma same_station_ways_with_nodes (s : way_row) :
  In s (Views.station_ways_with_nodes db) <-> In s (Views.station_ways_with_nodes db').
Proof.
  destruct same as [_ Hw]. rewrite !in_station_ways_with_nodes.
  split; intros (spw & w & H1 & H2 & Hrest); exists spw, w;
    (split; [now apply same_station_platform_ways|]);
    (split; [now apply Hw | exact Hrest]).
Qed.

Lemma same_station_walkable_ways (s : way_row) :
  In s (Views.station_walkable_ways db) <-> In s (Views.station_walkable_ways db').
Proof. rewrite !in_station_walkable_ways, same_station_ways_with_nodes. reflexivity. Qed.

Lemma same_station_pedestrian_ways_with_nodes (x : way_row) :
  In x (Views.station_pedestrian_ways_with_nodes db) <->
  In x (Views.station_pedestrian_ways_with_nodes db').
Proof.
  destruct same as [_ Hw]. rewrite !in_station_pedestrian_ways_with_nodes.
  split; intros (w & s & H1 & H2 & Hrest); exists w, s;
    (split; [now apply Hw|]);
    (split; [now apply same_station_walkable_ways | exact Hrest]).
Qed.

Lemma same_union (x : way_row) :
  In x (Views.station_ways_with_nodes_plus_pedestrian db) <->
  In x (Views.station_ways_with_nodes_plus_pedestrian db').
Proof.
  rewrite !in_station_ways_with_nodes_plus_pedestrian,
    same_station_walkable_ways, same_station_pedestrian_ways_with_nodes.
  reflexivity.
Qed.

Lemma same_unshared (r : Z) : Builder.unshared db r -> Builder.unshared db' r.
Proof.
  unfold Builder.unshared. intros H s s' Hs Hs'.
  apply same_union in Hs, Hs'. now apply H.
Qed.

End SameRows.

(** For a station none of whose ways is attached to a second station, the
    graph depends on the rows of the snapshot only, not on their order: the
    same segments and the same nodes. *)
Theorem unshared_ways_deterministic (db db' : snapshot) (r : Z) :
  Builder.same_rows db db' ->
  Builder.unshared db r ->
  (forall x, In x (Graph.graph_edges (Graph.build db r)) <->
             In x (Graph.graph_edges (Graph.build db' r))) /\
  (forall n, In n (Graph.graph_nodes (Graph.build db r)) <->
             In n (Graph.graph_nodes (Graph.build db' r))).
Proof.
  intros Hsame Hnd.
  pose proof (same_unshared db db' Hsame r Hnd) as Hnd'.
  assert (Hu : forall s, In s (Views.union_ways_of db r) <->
                         In s (Views.union_ways_of db' r)).
  { intros s. rewrite !in_union_ways_of, (same_union db db' Hsame). reflexivity. }
  unfold Graph.build. simpl. split.
  - intros x.
    pose proof (segments_of_unshared db r Hnd) as Hp.
    pose proof (segments_of_unshared db' r Hnd') as Hp'.
    assert (Hx : forall l l', (forall s, In s l <-> In s l') ->
                 In x (flat_map Builder.expand l) -> In x (flat_map Builder.expand l')).
    { intros l l' Hl Hin. apply in_flat_map in Hin. destruct Hin as (s & Hs & Hin).
      apply in_flat_map. exists s. split; [now apply Hl | exact Hin]. }
    split; intros Hin.
    + apply (Permutation_in _ (Permutation_sym Hp')).
      apply (Hx (Views.union_ways_of db r)); [exact Hu|].
      now apply (Permutation_in _ Hp).
    + apply (Permutation_in _ (Permutation_sym Hp)).
      apply (Hx (Views.union_ways_of db' r)); [intros s; symmetry; apply Hu|].
      now apply (Permutation_in _ Hp').
  - intros n. rewrite !distinct_In, !in_flat_map.
    split; intros (s & Hs & Hx); exists s; (split; [now apply Hu | exact Hx]).
Qed.

(** * Further properties of the views *)

Lemma overlap_self (l : list Z) : l <> [] -> Sql.overlap l l = true.
Proof.
  destruct l as [|a l]; [congruence|]. intros _.
  apply overlap_shared. exists a. split; now left.
Qed.

Lemma member_row_way (db : snapshot) (s : way_row) :
  In s (Views.station_ways_with_nodes db) ->
  exists w, In w (planet_osm_ways db) /\ s = Builder.attach s w.
Proof.
  intros Hs. apply in_station_ways_with_nodes in Hs.
  destruct Hs as (spw & w & _ & Hw & _ & _ & ->). exists w. split; [assumption|].
  reflexivity.
Qed.

(** X1. The one-hop view returns the walkable member ways too: a row of
    station_walkable_ways is a row of station_pedestrian_ways_with_nodes
    exactly when its way has a node (its node array then overlaps itself),
    whatever the header comment of the view says about members. *)
Theorem one_hop_returns_member_ways (db : snapshot) (s : way_row) :
  In s (Views.station_walkable_ways db) ->
  (In s (Views.station_pedestrian_ways_with_nodes db) <-> row_nodes s <> []).
Proof.
  intros Hs. split.
  - intros Hp. apply in_station_pedestrian_ways_with_nodes in Hp.
    destruct Hp as (w & s' & _ & _ & Hov & _ & ->). simpl.
    apply overlap_shared in Hov. destruct Hov as (n & Hn & _).
    intros E. rewrite E in Hn. contradiction.
  - intros Hn. pose proof Hs as Hs'. apply in_station_walkable_ways in Hs'.
    destruct Hs' as [Hm Hw]. destruct (member_row_way db s Hm) as (w & Hin & Heq).
    apply in_station_pedestrian_ways_with_nodes. exists w, s.
    assert (Hnodes : row_nodes s = nodes w) by (rewrite Heq; reflexivity).
    assert (Htags : row_tags s = tags w) by (rewrite Heq; reflexivity).
    repeat split; try assumption.
    + rewrite <- Hnodes. now apply overlap_self.
    + now rewrite <- Htags.
Qed.

Lemma one_hop_returns_member_ways_witness :
  In (Sample.row 100 "A" Sample.platform_1)
     (Views.station_pedestrian_ways_with_nodes Sample.single).
Proof.
  apply (one_hop_returns_member_ways Sample.single (Sample.row 100 "A" Sample.platform_1)).
  - vm_compute. tauto.
  - discriminate.
Defined.

(** X2. A platform edge that platform_edges_indexed attaches to a station
    is part of that station's pathfinding union exactly when its access tag
    is not private and it shares a node with a walkable member way of the
    station: the index itself applies neither test. *)
Theorem platform_edge_in_union (db : snapshot) (e : edge_row) :
  In e (Views.platform_edges_indexed db) ->
  (In (Rows.of_edge e) (Views.station_ways_with_nodes_plus_pedestrian db) <->
   pe_tags e !! "access" <> Some "private" /\
   exists s, In s (Views.station_walkable_ways db) /\
             relation_id s = pe_relation_id e /\
             station_name s = pe_station_name e /\
             exists n, In n (pe_nodes e) /\ In n (row_nodes s)).
Proof.
  intros He. apply in_platform_edges_indexed in He.
  destruct He as (w & Hw & Hrail & (n0 & Hn0 & _) & He).
  assert (Hrow : Rows.of_edge e = {| relation_id := pe_relation_id e;
                                     station_name := pe_station_name e;
                                     way_id := id w; row_nodes := nodes w;
                                     row_tags := tags w |}).
  { rewrite He at 1. reflexivity. }
  assert (Hnodes : pe_nodes e = nodes w) by (rewrite He; reflexivity).
  assert (Htags : pe_tags e = tags w) by (rewrite He; reflexivity).
  split.
  - intros Hu. split.
    + apply union_rows_walkable in Hu. apply walkable_iff_class in Hu.
      destruct Hu as [_ Ha]. exact Ha.
    + apply in_station_ways_with_nodes_plus_pedestrian in Hu.
      destruct Hu as [Hu | Hu].
      * exists (Rows.of_edge e). repeat split; try assumption.
        exists n0. simpl. rewrite Hnodes. tauto.
      * apply in_station_pedestrian_ways_with_nodes in Hu.
        destruct Hu as (w' & s & _ & Hs & Hov & _ & Heq).
        pose proof (f_equal relation_id Heq) as E1.
        pose proof (f_equal station_name Heq) as E2.
        pose proof (f_equal row_nodes Heq) as E3. simpl in E1, E2, E3.
        apply overlap_shared in Hov. destruct Hov as (n & H1 & H2).
        exists s. split; [assumption|]. split; [now symmetry|].
        split; [now symmetry|]. exists n. split; [|assumption]. now rewrite E3.
  - intros (Ha & s & Hs & Hr & Hnm & n & Hn & Hn').
    apply in_station_ways_with_nodes_plus_pedestrian. right.
    apply in_station_pedestrian_ways_with_nodes. exists w, s.
    repeat split; try assumption.
    + apply overlap_shared. exists n. rewrite <- Hnodes. tauto.
    + apply walkable_iff_class. split; [|now rewrite <- Htags].
      right; left. exists "platform_edge". split; [assumption|]. simpl. tauto.
    + rewrite Hrow. unfold Builder.attach. now rewrite Hr, Hnm.
Qed.

Lemma platform_edge_in_union_witness :
  In (Sample.row 100 "A" Sample.edge_4)
     (Views.station_ways_with_nodes_plus_pedestrian Rows.closed_edge)
  /\ ~ In (Sample.row 100 "A" Rows.edge_8)
          (Views.station_ways_with_nodes_plus_pedestrian Rows.closed_edge).
Proof.
  split.
  - apply (platform_edge_in_union Rows.closed_edge
             (Builder.edge_of 100 (Some "A") Sample.edge_4)).
    + vm_compute. tauto.
    + split; [vm_compute; discriminate|].
      exists (Sample.row 100 "A" Sample.platform_1).
      split; [vm_compute; tauto|]. repeat split.
      exists 1. split; vm_compute; tauto.
  - intros H.
    apply (platform_edge_in_union Rows.closed_edge
             (Builder.edge_of 100 (Some "A") Rows.edge_8)) in H.
    + destruct H as [H _]. apply H. vm_compute. reflexivity.
    + vm_compute. tauto.
Defined.

(** *** A station whose member ways are all closed to walking *)

Section NoWalkableMember.
Variable db : snapshot.
Variable r : Z.
Hypothesis none_walkable :
  forall s, In s (Views.member_ways_of db r) -> Views.walkable (row_tags s) = false.

Lemma no_walkable_row (s : way_row) :
  In s (Views.station_walkable_ways db) -> relation_id s <> r.
Proof.
  intros Hs Hr. apply in_station_walkable_ways in Hs. destruct Hs as [Hs Hw].
  rewrite none_walkable in Hw; [discriminate|].
  apply in_member_ways_of. split; assumption.
Qed.

Lemma no_union_row_walkable (x : way_row) :
  In x (Views.station_ways_with_nodes_plus_pedestrian db) -> relation_id x <> r.
Proof.
  rewrite in_station_ways_with_nodes_plus_pedestrian. intros [H | H].
  - now apply no_walkable_row.
  - apply in_station_pedestrian_ways_with_nodes in H.
    destruct H as (w & s & _ & Hs & _ & _ & ->). simpl. now apply no_walkable_row.
Qed.

End NoWalkableMember.

(** X3. A station none of whose member ways passes the walkable filter has
    no row in the one-hop view, none in the union and no segment, however
    many footways touch its member ways: the expansion starts from walkable
    member ways only. *)
Theorem no_walkable_member_no_segments (db : snapshot) (r : Z) :
  (forall s, In s (Views.member_ways_of db r) -> Views.walkable (row_tags s) = false) ->
  Views.one_hop_ways_of db r = [] /\
  Views.union_ways_of db r = [] /\
  Views.segments_of db r = [].
Proof.
  intros H. repeat split; apply no_rows_nil; intros x Hx.
  - apply in_one_hop_ways_of in Hx. destruct Hx as [Hx Hr].
    apply (no_union_row_walkable db r H x); [|exact Hr].
    apply in_station_ways_with_nodes_plus_pedestrian. now right.
  - apply in_union_ways_of in Hx. destruct Hx as [Hx Hr].
    now apply (no_union_row_walkable db r H x).
  - unfold Views.segments_of in Hx. apply filter_In in Hx.
    destruct Hx as [Hx Hr]. apply Z.eqb_eq in Hr.
    apply segment_source in Hx. destruct Hx as (s & Hs & Hrel).
    apply (no_union_row_walkable db r H s Hs). congruence.
Qed.

Lemma no_walkable_member_no_segments_witness :
  Views.member_ways_of Rows.tracks_only 400 <> [] /\
  Views.segments_of Rows.tracks_only 400 = [].
Proof.
  split; [vm_compute; discriminate|].
  apply (no_walkable_member_no_segments Rows.tracks_only 400).
  intros s Hs. vm_compute in Hs. destruct Hs as [<- | []]. vm_compute. reflexivity.
Defined.

(** *** What a segment joins and how many there are *)

Section SegmentFacts.

Lemma lead_node_id_rows (x : with_next_row) (l : list ordered_row) :
  In x (Views.lead_node_id l) ->
  (exists o, In o l /\ n_relation_id x = o_relation_id o /\
             n_station_name x = o_station_name o /\
             n_way_id x = o_way_id o /\ n_node_from x = o_node_id o) /\
  (forall t, n_node_to x = Some t -> exists o', In o' l /\ o_node_id o' = t).
Proof.
  induction l as [|o l IH]; simpl; [contradiction|].
  intros [<- | Hx].
  - split; [exists o; simpl; auto|]. simpl. intros t Ht.
    destruct l as [|o' l]; [discriminate|]. injection Ht as <-.
    exists o'. split; [right; now left | reflexivity].
  - destruct (IH Hx) as [(o1 & H1 & Hf) Hto]. split.
    + exists o1. split; [now right | exact Hf].
    + intros t Ht. destruct (Hto t Ht) as (o' & Ho' & E). exists o'. split; auto.
Qed.

Lemma ordered_row_source (db : snapshot) (o : ordered_row) :
  In o (Views.ordered db) ->
  exists s, In s (Views.station_ways_with_nodes_plus_pedestrian db) /\
            relation_id s = o_relation_id o /\ station_name s = o_station_name o /\
            way_id s = o_way_id o /\ In (o_node_id o) (row_nodes s).
Proof.
  unfold Views.ordered. intros Ho. apply in_flat_map in Ho.
  destruct Ho as (s & Hs & Ho). exists s. split; [assumption|].
  unfold Views.ordered_of, Sql.unnest_with_ordinality in Ho.
  apply in_map_iff in Ho. destruct Ho as ([n i] & <- & Hin). simpl.
  repeat split. now apply in_combine_l in Hin.
Qed.

Lemma lead_count_cons (l : list ordered_row) (o : ordered_row) :
  length (flat_map Views.not_null_segment (Views.lead_node_id (o :: l))) = length l.
Proof.
  revert o. induction l as [|o' l IH]; intros o; [reflexivity|].
  specialize (IH o'). simpl in *. now rewrite IH.
Qed.

Lemma lead_count (l : list ordered_row) :
  length (flat_map Views.not_null_segment (Views.lead_node_id l)) = pred (length l).
Proof. destruct l as [|o l]; [reflexivity | apply lead_count_cons]. Qed.

Lemma insert_by_ord_length (r : ordered_row) (l : list ordered_row) :
  length (Views.insert_by_ord r l) = S (length l).
Proof.
  induction l as [|x l IH]; simpl; [reflexivity|].
  destruct (Nat.leb (ord r) (ord x)); simpl; [reflexivity | now rewrite IH].
Qed.

Lemma order_by_ord_length (l : list ordered_row) :
  length (Views.order_by_ord l) = length l.
Proof.
  induction l as [|x l IH]; simpl; [reflexivity|].
  now rewrite insert_by_ord_length, IH.
Qed.

Lemma partition_skip (v v' : Z) (l : list ordered_row) :
  v' <> v ->
  Views.partition_of v' (List.filter (fun o => negb (Z.eqb (o_way_id o) v)) l) =
  Views.partition_of v' l.
Proof.
  intros Hne. unfold Views.partition_of.
  induction l as [|o l IH]; simpl; [reflexivity|].
  destruct (Z.eqb (o_way_id o) v) eqn:E; simpl.
  - apply Z.eqb_eq in E. replace (Z.eqb (o_way_id o) v') with false; [exact IH|].
    symmetry. apply Z.eqb_neq. congruence.
  - now rewrite IH.
Qed.

Lemma filter_split_length {A} (f : A -> bool) (l : list A) :
  (length (List.filter f l) + length (List.filter (fun x => negb (f x)) l))%nat = length l.
Proof.
  induction l as [|x l IH]; simpl; [reflexivity|].
  destruct (f x); simpl; lia.
Qed.

Lemma partition_sizes (keys : list Z) :
  List.NoDup keys ->
  forall l, (forall o, In o l -> In (o_way_id o) keys) ->
            list_sum (map (fun v => length (Views.partition_of v l)) keys) = length l.
Proof.
  induction 1 as [|v keys Hv Hnd IH]; intros l Hl; simpl.
  - destruct l as [|o l]; [reflexivity|]. exfalso. apply (Hl o). now left.
  - rewrite <- (filter_split_length (fun o => Z.eqb (o_way_id o) v) l).
    unfold Views.partition_of at 1. f_equal.
    rewrite <- (IH (List.filter (fun o => negb (Z.eqb (o_way_id o) v)) l)).
    + f_equal. apply map_ext_in. intros v' Hv'. rewrite partition_skip; [reflexivity|].
      intros ->. contradiction.
    + intros o Ho. apply filter_In in Ho. destruct Ho as [Ho Hne].
      apply negb_true_iff, Z.eqb_neq in Hne.
      destruct (Hl o Ho) as [E | Hin]; [congruence | exact Hin].
Qed.

Lemma pred_sum (f : Z -> nat) (keys : list Z) :
  (forall v, In v keys -> (1 <= f v)%nat) ->
  (list_sum (map (fun v => pred (f v)) keys) + length keys)%nat = list_sum (map f keys).
Proof.
  induction keys as [|v keys IH]; intros H; simpl; [reflexivity|].
  pose proof (H v (or_introl eq_refl)) as Hv.
  specialize (IH (fun v' Hv' => H v' (or_intror Hv'))). lia.
Qed.

Lemma window_count (l : list ordered_row) :
  (length (flat_map Views.not_null_segment (Views.window_lead l))
   + length (Views.partition_keys l))%nat = length l.
Proof.
  unfold Views.window_lead. rewrite flat_map_flat_map, length_flat_map.
  rewrite (map_ext _ (fun v => pred (length (Views.partition_of v l)))).
  - rewrite pred_sum.
    + apply partition_sizes.
      * unfold Views.partition_keys. apply distinct_NoDup.
      * intros o Ho. unfold Views.partition_keys. apply distinct_In. now apply in_map.
    + intros v Hv. unfold Views.partition_keys in Hv. rewrite distinct_In in Hv.
      apply in_map_iff in Hv. destruct Hv as (o & E & Ho).
      assert (Hin : In o (Views.partition_of v l)).
      { apply filter_In. split; [assumption | now apply Z.eqb_eq]. }
      destruct (Views.partition_of v l); [contradiction | simpl; lia].
  - intros v. now rewrite lead_count, order_by_ord_length.
Qed.

End SegmentFacts.

(** X4. Whatever the snapshot, a segment never joins nodes of different
    ways: its two nodes are nodes of union rows that carry the segment's
    way id, and its station is that of the row its first node comes from.
    (The two rows can differ when the way is attached to two stations.) *)
Theorem segment_endpoints (db : snapshot) (x : segment) :
  In x (Views.station_way_segments db) ->
  exists s s',
    In s (Views.station_ways_with_nodes_plus_pedestrian db) /\
    In s' (Views.station_ways_with_nodes_plus_pedestrian db) /\
    relation_id s = seg_relation_id x /\ station_name s = seg_station_name x /\
    way_id s = seg_way_id x /\ way_id s' = seg_way_id x /\
    In (node_from x) (row_nodes s) /\ In (node_to x) (row_nodes s').
Proof.
  unfold Views.station_way_segments, Views.with_next, Views.window_lead.
  intros Hx. apply in_flat_map in Hx. destruct Hx as (wn & Hwn & Hx).
  apply in_flat_map in Hwn. destruct Hwn as (v & _ & Hwn).
  apply lead_node_id_rows in Hwn.
  destruct Hwn as [(o & Ho & Hrel & Hname & Hway & Hfrom) Hto].
  unfold Views.not_null_segment in Hx.
  destruct (n_node_to wn) as [t|] eqn:Et; [|contradiction].
  destruct Hx as [<- | []]. simpl.
  destruct (Hto t eq_refl) as (o' & Ho' & Ht).
  rewrite in_order_by_ord in Ho, Ho'. apply filter_In in Ho, Ho'.
  destruct Ho as [Ho Hv], Ho' as [Ho' Hv']. apply Z.eqb_eq in Hv, Hv'.
  apply ordered_row_source in Ho, Ho'.
  destruct Ho as (s & Hs & E1 & E2 & E3 & E4).
  destruct Ho' as (s' & Hs' & _ & _ & E3' & E4').
  exists s, s'. repeat split; try assumption; congruence.
Qed.

Lemma segment_endpoints_witness :
  exists s s',
    In s (Views.station_ways_with_nodes_plus_pedestrian Sample.shared) /\
    In s' (Views.station_ways_with_nodes_plus_pedestrian Sample.shared) /\
    relation_id s = 100 /\ station_name s = Some "A" /\
    way_id s = 3 /\ way_id s' = 3 /\
    In 7 (row_nodes s) /\ In 7 (row_nodes s').
Proof.
  apply (segment_endpoints Sample.shared (Sample.seg 100 "A" 3 7 7)).
  vm_compute. tauto.
Defined.

Lemma ordered_of_length (s : way_row) :
  length (Views.ordered_of s) = length (row_nodes s).
Proof.
  unfold Views.ordered_of, Sql.unnest_with_ordinality.
  rewrite length_map, length_combine, length_seq. apply Nat.min_id.
Qed.

(** X5. Whatever the snapshot, the view has one segment fewer than node
    entries for every distinct way id: the number of segments is the number
    of node entries of all union rows less the number of distinct way ids
    among the rows that have a node.  (A way with k nodes attached to two
    stations so gives 2k-1 segments, not 2(k-1).) *)
Theorem segment_count (db : snapshot) :
  (length (Views.station_way_segments db)
   + length (distinct
               (map way_id
                    (List.filter Builder.has_nodes
                                 (Views.station_ways_with_nodes_plus_pedestrian db)))))%nat
  = list_sum (map (fun s => length (row_nodes s))
                  (Views.station_ways_with_nodes_plus_pedestrian db)).
Proof.
  unfold Views.station_way_segments, Views.with_next.
  replace (list_sum _) with (length (Views.ordered db)).
  - rewrite <- (window_count (Views.ordered db)). f_equal.
    apply Permutation_length, Permutation.NoDup_Permutation.
    + apply distinct_NoDup.
    + unfold Views.partition_keys. apply distinct_NoDup.
    + intros v. unfold Views.ordered. rewrite in_partition_keys, distinct_In, in_map_iff.
      split.
      * intros (s & E & Hs). apply filter_In in Hs. exists s. tauto.
      * intros (s & Hs & E & Hn). exists s. rewrite filter_In. tauto.
  - unfold Views.ordered. rewrite length_flat_map. f_equal.
    apply map_ext. intros s. apply ordered_of_length.
Qed.

Example segment_count_shared :
  length (Views.station_way_segments Sample.shared) = 10%nat /\
  length (Views.station_way_segments Sample.single) = 7%nat.
Proof. split; vm_compute; reflexivity. Qed.

(** * The earlier copy of the views *)

Section LegacyRows.
Variable db : snapshot.

Lemma in_legacy_pedestrian (x : way_row) :
  In x (Legacy.station_pedestrian_ways_with_nodes db) <->
  exists w s,
    In w (planet_osm_ways db) /\ In s (Views.station_ways_with_nodes db) /\
    Sql.overlap (nodes w) (row_nodes s) = true /\
    Legacy.pedestrian (tags w) = true /\
    x = Builder.attach s w.
Proof.
  unfold Legacy.station_pedestrian_ways_with_nodes.
  rewrite distinct_In, in_flat_map. split.
  - intros (w & Hw & Hx). apply in_flat_map in Hx. destruct Hx as (s & Hs & Hx).
    destruct (Sql.overlap (nodes w) (row_nodes s)) eqn:E1; simpl in Hx; [|contradiction].
    destruct (Legacy.pedestrian (tags w)) eqn:E2; simpl in Hx; [|contradiction].
    destruct Hx as [<- | []]. exists w, s. repeat split; auto.
  - intros (w & s & Hw & Hs & E1 & E2 & ->). exists w. split; [assumption|].
    apply in_flat_map. exists s. split; [assumption|].
    rewrite E1, E2. simpl. now left.
Qed.

Lemma in_legacy_union (x : way_row) :
  In x (Legacy.station_ways_with_nodes_plus_pedestrian db) <->
  In x (Views.station_ways_with_nodes db) \/
  In x (Legacy.station_pedestrian_ways_with_nodes db).
Proof.
  unfold Legacy.station_ways_with_nodes_plus_pedestrian.
  rewrite distinct_In. apply in_app_iff.
Qed.

Lemma legacy_pedestrian_walkable_tags (t : gmap string string) :
  Legacy.pedestrian t = true -> Views.walkable_tag_cond t = Some true.
Proof.
  unfold Legacy.pedestrian, Views.walkable_tag_cond.
  rewrite where_true_iff, in_text_true. intros (h & Hh & Hin).
  apply or3_true. left. apply or3_true. left. apply in_text_true.
  exists h. split; [assumption|].
  unfold Legacy.pedestrian_highways in Hin. unfold Views.walkable_highways.
  simpl in *. intuition.
Qed.

End LegacyRows.

(** X6. In the earlier copy of the views every member way of type W is in
    the union, walkable or not, and for a station none of whose ways is
    attached to a second station the segments are, as a bag, the
    consecutive node pairs of the station's member ways and one-hop
    pedestrian ways. *)
Theorem legacy_segments (db : snapshot) (r : Z) :
  Legacy.unshared db r ->
  Permutation (Legacy.segments_of db r)
              (flat_map Builder.expand (Legacy.union_ways_of db r)) /\
  (forall x,
      In x (Legacy.union_ways_of db r) <->
      In x (Views.member_ways_of db r) \/
      (In x (Legacy.station_pedestrian_ways_with_nodes db) /\ relation_id x = r)).
Proof.
  intros Hown. split.
  - unfold Legacy.segments_of, Legacy.station_way_segments, Legacy.union_ways_of.
    apply window_lead_own_rows.
    + unfold Legacy.station_ways_with_nodes_plus_pedestrian. apply distinct_NoDup.
    + exact Hown.
  - intros x. unfold Legacy.union_ways_of.
    rewrite filter_In, Z.eqb_eq, in_legacy_union, in_member_ways_of. tauto.
Qed.

Lemma legacy_segments_witness :
  Permutation (Legacy.segments_of Rows.tracks_only 400)
              [ Sample.seg 400 "D" 5 20 21; Sample.seg 400 "D" 6 21 22 ].
Proof.
  assert (H : Legacy.unshared Rows.tracks_only 400).
  { intros s s' Hs Hs' _ Hid. vm_compute in Hs, Hs'.
    destruct Hs as [<- | [<- | []]], Hs' as [<- | [<- | []]];
      try reflexivity; vm_compute in Hid; discriminate Hid. }
  destruct (legacy_segments Rows.tracks_only 400 H) as [Hp _].
  rewrite Hp. vm_compute. reflexivity.
Defined.

(** X7. What the walkable rewrite of the views changed.  A way the older
    one-hop filter keeps passes the tag test of the newer filter, so only
    its access tag can now exclude it; a row of the newer union is a row of
    the older one unless its highway tag is outside the seven older values;
    and a member way that is not walkable is in the older union only. *)
Theorem walkable_rewrite (db : snapshot) :
  (forall t, Legacy.pedestrian t = true ->
             (Views.walkable t = true <-> t !! "access" <> Some "private")) /\
  (forall x, In x (Views.station_ways_with_nodes_plus_pedestrian db) ->
             In x (Legacy.station_ways_with_nodes_plus_pedestrian db) \/
             Legacy.pedestrian (row_tags x) = false) /\
  (forall s, In s (Views.station_ways_with_nodes db) ->
             In s (Legacy.station_ways_with_nodes_plus_pedestrian db) /\
             (Views.walkable (row_tags s) = false ->
              ~ In s (Views.station_ways_with_nodes_plus_pedestrian db))).
Proof.
  split; [|split].
  - intros t Ht. apply legacy_pedestrian_walkable_tags in Ht.
    unfold Views.walkable, Views.walkable_cond. rewrite Ht.
    rewrite where_true_iff, and3_true, <- is_distinct_from_true.
    unfold Sql.get_text. split; [intros [_ H]; congruence | intros ->; auto].
  - intros x Hx. apply in_station_ways_with_nodes_plus_pedestrian in Hx.
    destruct Hx as [Hx | Hx].
    + left. apply in_legacy_union. left. now apply in_station_walkable_ways in Hx.
    + apply in_station_pedestrian_ways_with_nodes in Hx.
      destruct Hx as (w & s & Hw & Hs & Hov & _ & ->). simpl.
      destruct (Legacy.pedestrian (tags w)) eqn:E; [left | now right].
      apply in_legacy_union. right. apply in_legacy_pedestrian.
      exists w, s. apply in_station_walkable_ways in Hs. tauto.
  - intros s Hs. split.
    + apply in_legacy_union. now left.
    + intros Hw Hin. apply union_rows_walkable in Hin. congruence.
Qed.

Lemma walkable_rewrite_witness :
  In (Sample.row 400 "D" Sample.track_5)
     (Legacy.station_ways_with_nodes_plus_pedestrian Rows.tracks_only) /\
  ~ In (Sample.row 400 "D" Sample.track_5)
       (Views.station_ways_with_nodes_plus_pedestrian Rows.tracks_only).
Proof.
  destruct (walkable_rewrite Rows.tracks_only) as (_ & _ & H).
  destruct (H (Sample.row 400 "D" Sample.track_5)) as [H1 H2].
  - vm_compute. tauto.
  - split; [exact H1|]. apply H2. vm_compute. reflexivity.
Defined.

(** * The journey card *)

Lemma append_not_empty (a : string) (c : Ascii.ascii) (b : string) :
  (a ++ String c b)%string <> ""%string.
Proof. destruct a; discriminate. Qed.

(** X8. On a duration that is a safe integer number of seconds (absolute
    value below 2^53), formatDuration shows nothing for a missing or zero
    duration and only then; for a positive one it shows whole hours h and
    minutes m below 60 that fall short of the duration by less than a
    minute, the hours part only from one hour on. *)
Theorem formatDuration_parts :
  JourneyCard.formatDuration None = "" /\
  (forall s,
      JourneyCard.safe_integer s ->
      (JourneyCard.formatDuration (Some s) = "" <-> s = 0)) /\
  (forall s,
      JourneyCard.safe_integer s ->
      0 < s ->
      exists h m,
        0 <= h /\ 0 <= m < 60 /\
        3600 * h + 60 * m <= s < 3600 * h + 60 * m + 60 /\
        JourneyCard.formatDuration (Some s) =
        if Z.ltb s 3600 then JourneyCard.template m ++ "m"
        else JourneyCard.template h ++ "h " ++ JourneyCard.template m ++ "m").
Proof.
  split; [reflexivity|]. split.
  - intros s _. simpl.
    destruct (Z.eqb s 0) eqn:E.
    + apply Z.eqb_eq in E. subst. tauto.
    + apply Z.eqb_neq in E. split; [|contradiction].
      destruct (Z.ltb 0 (s / 3600)); intros H; exfalso.
      * destruct (JourneyCard.template (s / 3600)); discriminate H.
      * now apply append_not_empty in H.
  - intros s _ Hs. exists (s / 3600), (Z.rem s 3600 / 60).
    rewrite Z.rem_mod_nonneg by lia.
    pose proof (Z.div_mod s 3600 ltac:(lia)) as H1.
    pose proof (Z.mod_pos_bound s 3600 ltac:(lia)) as H2.
    pose proof (Z.div_mod (s mod 3600) 60 ltac:(lia)) as H3.
    pose proof (Z.mod_pos_bound (s mod 3600) 60 ltac:(lia)) as H4.
    assert (H5 : 0 <= s / 3600) by (apply Z.div_pos; lia).
    assert (H6 : 0 <= s mod 3600 / 60 < 60).
    { split; [apply Z.div_pos; lia|]. apply Z.div_lt_upper_bound; lia. }
    repeat split; try lia.
    unfold JourneyCard.formatDuration.
    replace (Z.eqb s 0) with false by (symmetry; apply Z.eqb_neq; lia).
    rewrite Z.rem_mod_nonneg by lia.
    destruct (Z.ltb s 3600) eqn:E.
    + apply Z.ltb_lt in E. rewrite (Z.div_small s 3600) by lia. reflexivity.
    + apply Z.ltb_ge in E.
      replace (Z.ltb 0 (s / 3600)) with true; [reflexivity|].
      symmetry. apply Z.ltb_lt. apply Z.div_str_pos. lia.
Qed.

Lemma formatDuration_parts_witness :
  exists h m,
    0 <= h /\ 0 <= m < 60 /\
    3600 * h + 60 * m <= 7259 < 3600 * h + 60 * m + 60 /\
    JourneyCard.formatDuration (Some 7259) =
    JourneyCard.template h ++ "h " ++ JourneyCard.template m ++ "m".
Proof.
  destruct formatDuration_parts as (_ & _ & H).
  apply (H 7259); [unfold JourneyCard.safe_integer; lia | lia].
Defined.

Example formatDuration_samples :
  JourneyCard.formatDuration (Some 7259) = "2h 0m" /\
  JourneyCard.formatDuration (Some 59) = "0m" /\
  JourneyCard.formatDuration (Some 3599) = "59m".
Proof. repeat split; vm_compute; reflexivity. Qed.

(** X9. On a delay that is a safe integer number of seconds (absolute
    value below 2^53), formatDelay shows nothing for a missing or zero
    delay and only then; otherwise it shows the delay rounded to whole
    minutes, at most thirty seconds off, with a plus sign exactly from
    thirty seconds on; a delay of less than half a minute, late or early,
    is shown as "0". *)
Theorem formatDelay_rounding :
  JourneyCard.formatDelay None = None /\
  (forall s,
      JourneyCard.safe_integer s ->
      (JourneyCard.formatDelay (Some s) = None <-> s = 0)) /\
  (forall s,
      JourneyCard.safe_integer s ->
      s <> 0 ->
      exists m,
        60 * m - 30 <= s < 60 * m + 30 /\
        JourneyCard.formatDelay (Some s) =
        Some (if Z.leb 30 s then "+" ++ JourneyCard.template m
              else JourneyCard.template m)) /\
  (forall s, s <> 0 -> -30 <= s < 30 -> JourneyCard.formatDelay (Some s) = Some "0").
Proof.
  split; [reflexivity|]. split; [|split].
  - intros s _. simpl.
    destruct (Z.eqb s 0) eqn:E.
    + apply Z.eqb_eq in E. subst. tauto.
    + apply Z.eqb_neq in E. split; [discriminate | contradiction].
  - intros s _ Hs. exists ((s + 30) / 60).
    pose proof (Z.div_mod (s + 30) 60 ltac:(lia)) as H1.
    pose proof (Z.mod_pos_bound (s + 30) 60 ltac:(lia)) as H2.
    split; [lia|]. unfold JourneyCard.formatDelay.
    replace (Z.eqb s 0) with false by (symmetry; apply Z.eqb_neq; lia).
    f_equal. destruct (Z.leb 30 s) eqn:E.
    + apply Z.leb_le in E. replace (Z.ltb 0 ((s + 30) / 60)) with true; [reflexivity|].
      symmetry. apply Z.ltb_lt. apply Z.div_str_pos. lia.
    + apply Z.leb_gt in E. replace (Z.ltb 0 ((s + 30) / 60)) with false; [reflexivity|].
      symmetry. apply Z.ltb_ge. assert ((s + 30) / 60 < 1); [|lia].
      apply Z.div_lt_upper_bound; lia.
  - intros s Hs Hr. unfold JourneyCard.formatDelay.
    replace (Z.eqb s 0) with false by (symmetry; apply Z.eqb_neq; lia).
    rewrite (Z.div_small (s + 30) 60) by lia. reflexivity.
Qed.

Lemma formatDelay_rounding_witness :
  (exists m,
      60 * m - 30 <= 89 < 60 * m + 30 /\
      JourneyCard.formatDelay (Some 89) = Some ("+" ++ JourneyCard.template m)) /\
  JourneyCard.formatDelay (Some 29) = Some "0" /\
  JourneyCard.formatDelay (Some (-30)) = Some "0".
Proof.
  destruct formatDelay_rounding as (_ & _ & Hm & H).
  split; [|split; apply H; lia].
  apply (Hm 89); [unfold JourneyCard.safe_integer; lia | lia].
Defined.

Example formatDelay_samples :
  JourneyCard.formatDelay (Some 30) = Some "+1" /\
  JourneyCard.formatDelay (Some 89) = Some "+1" /\
  JourneyCard.formatDelay (Some 90) = Some "+2" /\
  JourneyCard.formatDelay (Some (-31)) = Some "-1".
Proof. repeat split; vm_compute; reflexivity. Qed.

(** X10. PlatformBadge renders nothing exactly when neither platform is
    known; it displays the actual platform when that is known and the
    planned one otherwise; and it adds the "(was ...)" note exactly when
    both are known and differ, the note then naming the planned platform,
    never the displayed one. *)
Theorem PlatformBadge_display (actual planned : Js.value) :
  (JourneyCard.PlatformBadge actual planned = None <->
   Js.truthy actual = false /\ Js.truthy planned = false) /\
  (forall b,
      JourneyCard.PlatformBadge actual planned = Some b ->
      JourneyCard.display b = (if Js.truthy actual then actual else planned) /\
      Js.truthy (JourneyCard.display b) = true /\
      (forall p, JourneyCard.was b = Some p <->
                 p = planned /\ Js.truthy planned = true /\
                 Js.truthy actual = true /\ planned <> actual) /\
      (forall p, JourneyCard.was b = Some p -> p <> JourneyCard.display b)).
Proof.
  unfold JourneyCard.PlatformBadge. split.
  - destruct (Js.truthy actual) eqn:Ea; simpl.
    + rewrite Ea. simpl. split; [discriminate | intros [H _]; discriminate].
    + destruct (Js.truthy planned) eqn:Ep; simpl.
      * split; [discriminate | intros [_ H]; discriminate].
      * tauto.
  - intros b.
    destruct (Js.truthy actual) eqn:Ea, (Js.truthy planned) eqn:Ep;
      simpl; rewrite ?Ea, ?Ep; simpl; try discriminate;
      destruct (bool_decide (planned = actual)) eqn:Ed; simpl;
      intros H; injection H as <-; simpl;
      try apply bool_decide_eq_false in Ed; try apply bool_decide_eq_true in Ed;
      (split; [reflexivity|]); (split; [assumption|]);
      (split; [intros p; split; [intros Hw | intros (-> & H2 & H3 & Hne)]
              | intros p Hw]);
      try discriminate; try contradiction; try reflexivity;
      try (injection Hw as <-; auto).
Qed.

Lemma PlatformBadge_display_witness :
  option_map JourneyCard.was (JourneyCard.PlatformBadge (Js.Str "5") (Js.Str "4"))
  = Some (Some (Js.Str "4")).
Proof.
  destruct (PlatformBadge_display (Js.Str "5") (Js.Str "4")) as [_ H].
  destruct (JourneyCard.PlatformBadge (Js.Str "5") (Js.Str "4")) as [b|] eqn:E;
    [|discriminate E].
  destruct (H b eq_refl) as (_ & _ & Hw & _). simpl. do 2 f_equal.
  apply Hw. repeat split; discriminate.
Defined.

(** * The search page *)

(** X11. handleSearch with a station missing on either side sends nothing
    and changes nothing.  With both stations and a departure time that
    parses it sends exactly one request and always ends with [loading]
    false: the results are the parsed body, or the object carrying the
    error message when the request or the parsing fails. *)
Theorem handleSearch_settles
        (toISOString : string -> option string)
        (URLSearchParams : string -> string -> string -> string)
        (network : string -> App.fetch_outcome) (s : App.state) :
  ((App.origin s = None \/ App.destination s = None) ->
   App.handleSearch toISOString URLSearchParams network s =
   {| App.final := s; App.requests := []; App.promise := App.fulfilled |}) /\
  (forall o d time,
      App.origin s = Some o -> App.destination s = Some d ->
      toISOString (App.departureTime s) = Some time ->
      let r := App.handleSearch toISOString URLSearchParams network s in
      let url := App.journeys_url URLSearchParams o d time in
      App.requests r = [ url ] /\ App.promise r = App.fulfilled /\
      App.loading (App.final r) = false /\
      App.origin (App.final r) = Some o /\ App.destination (App.final r) = Some d /\
      App.search_disabled (App.final r) = false /\
      App.results (App.final r) =
      match network url with
      | App.fetch_resolved (App.json_data data) => data
      | App.fetch_resolved (App.json_rejected message)
      | App.fetch_rejected message => Some (App.error_response message)
      end).
Proof.
  split.
  - unfold App.handleSearch. intros [H | H]; rewrite H; [reflexivity|].
    destruct (App.origin s); reflexivity.
  - intros o d time Ho Hd Ht. unfold App.handleSearch. rewrite Ho, Hd, Ht.
    simpl. unfold App.search_disabled.
    destruct (network (App.journeys_url URLSearchParams o d time)) as [m|[m|data]];
      simpl; rewrite Ho, Hd; repeat split.
Qed.

Lemma handleSearch_settles_witness :
  App.loading
    (App.final
       (App.handleSearch Pages.toISOString Pages.URLSearchParams
                         (Pages.unreachable "Failed to fetch")
                         (Pages.ready "2026-01-01T10:00")))
  = false.
Proof.
  destruct (handleSearch_settles Pages.toISOString Pages.URLSearchParams
              (Pages.unreachable "Failed to fetch") (Pages.ready "2026-01-01T10:00"))
    as [_ H].
  apply (H Pages.paris Pages.lyon "2026-01-01T10:00:00.000Z"); reflexivity.
Defined.

(** X12. What the page shows after a search that ran: never the loading
    element; a failure whose message is truthy is shown as that error; a
    failure whose message is empty or missing is shown as "No journeys
    found.", as is a body without error and without journeys; a JSON null
    body shows nothing. *)
Theorem handleSearch_view
        (toISOString : string -> option string)
        (URLSearchParams : string -> string -> string -> string)
        (network : string -> App.fetch_outcome) (s : App.state)
        (o d : SearchBarDropDown.station) (time : string) :
  App.origin s = Some o -> App.destination s = Some d ->
  toISOString (App.departureTime s) = Some time ->
  let v := App.view (App.final (App.handleSearch toISOString URLSearchParams network s)) in
  v <> JourneyResults.results_loading /\
  v = match network (App.journeys_url URLSearchParams o d time) with
      | App.fetch_resolved (App.json_data data) =>
          JourneyResults.JourneyResults data false
      | App.fetch_resolved (App.json_rejected message)
      | App.fetch_rejected message =>
          if Js.truthy message then JourneyResults.results_error message
          else JourneyResults.results_empty
      end.
Proof.
  intros Ho Hd Ht. unfold App.handleSearch. rewrite Ho, Hd, Ht. simpl.
  unfold App.view.
  destruct (network (App.journeys_url URLSearchParams o d time)) as [m|[m|data]];
    simpl.
  - destruct (Js.truthy m); split; [discriminate | reflexivity | discriminate | reflexivity].
  - destruct (Js.truthy m); split; [discriminate | reflexivity | discriminate | reflexivity].
  - split; [|reflexivity]. destruct data as [data|]; simpl; [|discriminate].
    destruct (Js.truthy (JourneyResults.error data)); [discriminate|].
    destruct (JourneyResults.journeys data) as [[|j js]|]; simpl; discriminate.
Qed.

Lemma handleSearch_view_witness :
  App.view
    (App.final
       (App.handleSearch Pages.toISOString Pages.URLSearchParams
                         (Pages.unreachable "")
                         (Pages.ready "2026-01-01T10:00")))
  = JourneyResults.results_empty.
Proof.
  apply (handleSearch_view Pages.toISOString Pages.URLSearchParams
           (Pages.unreachable "") (Pages.ready "2026-01-01T10:00")
           Pages.paris Pages.lyon "2026-01-01T10:00:00.000Z" eq_refl eq_refl eq_refl).
Defined.

(** X13. handleSearch with both stations and a departure time that does
    not parse (the date field cleared): the exception leaves the handler
    before the [try], so no request is sent, [loading] stays true, the page
    shows "Searching journeys" and the search button stays disabled. *)
Theorem handleSearch_invalid_time
        (toISOString : string -> option string)
        (URLSearchParams : string -> string -> string -> string)
        (network : string -> App.fetch_outcome) (s : App.state)
        (o d : SearchBarDropDown.station) :
  App.origin s = Some o -> App.destination s = Some d ->
  toISOString (App.departureTime s) = None ->
  let r := App.handleSearch toISOString URLSearchParams network s in
  App.promise r = App.rejected /\ App.requests r = [] /\
  App.loading (App.final r) = true /\ App.results (App.final r) = None /\
  App.view (App.final r) = JourneyResults.results_loading /\
  App.search_disabled (App.final r) = true.
Proof.
  intros Ho Hd Ht. unfold App.handleSearch. rewrite Ho, Hd, Ht. simpl.
  unfold App.search_disabled. simpl. rewrite Ho, Hd. repeat split.
Qed.

Lemma handleSearch_invalid_time_witness :
  App.search_disabled
    (App.final
       (App.handleSearch Pages.toISOString Pages.URLSearchParams
                         (Pages.unreachable "") (Pages.ready "")))
  = true.
Proof.
  apply (handleSearch_invalid_time Pages.toISOString Pages.URLSearchParams
           (Pages.unreachable "") (Pages.ready "")
           Pages.paris Pages.lyon eq_refl eq_refl eq_refl).
Defined.

(** X14. handleInput never leaves the search bar loading: whatever the
    network does with the autocomplete request (rejected, not ok, body not
    parsed, answered), the completion is called exactly once, so the
    loading flag set before the call is false again, and the input holds
    the typed text.  While the dropdown is not mounted the keystroke is
    dropped: nothing is sent and the state, the input text included, stays
    as it was. *)
Theorem handleInput_clears_loading
        (encodeURIComponent : string -> string)
        (network : string -> SearchBarDropDown.fetch_outcome)
        (val : string) (s : SearchBar.state) :
  (let r := SearchBar.handleInput encodeURIComponent network true val s in
   SearchBar.loading (fst r) = false /\
   SearchBarDropDown.inputVal (SearchBar.dropdown (fst r)) = val /\
   List.filter SearchBarDropDown.is_completion (snd r) = [ SearchBarDropDown.completion ]) /\
  SearchBar.handleInput encodeURIComponent network false val s = (s, []).
Proof.
  split; [|reflexivity].
  unfold SearchBar.handleInput, SearchBarDropDown.run, SearchBarDropDown.handleChange,
    SearchBarDropDown.bind, SearchBar.loading_after.
  simpl.
  destruct (Nat.ltb (String.length val) 2); simpl.
  - repeat split.
  - destruct (network (SearchBarDropDown.autocomplete_url encodeURIComponent val))
      as [|[|] [|data]]; simpl; repeat split.
Qed.

Example handleInput_offline :
  SearchBar.loading
    (fst (SearchBar.handleInput Sample.no_encoding Sample.offline true "Par"
                                {| SearchBar.dropdown := Sample.open_menu;
                                   SearchBar.loading := false |}))
  = false.
Proof. reflexivity. Qed.

(** * The route map *)

Lemma NoDup_map_eq {A B} (f : A -> B) (l : list A) (a b : A) :
  List.NoDup (map f l) -> In a l -> In b l -> f a = f b -> a = b.
Proof.
  induction l as [|x l IH]; intros Hnd Ha Hb E; [contradiction|].
  simpl in Hnd. apply List.NoDup_cons_iff in Hnd. destruct Hnd as [Hx Hnd].
  destruct Ha as [-> | Ha], Hb as [-> | Hb].
  - reflexivity.
  - exfalso. apply Hx. rewrite E. now apply in_map.
  - exfalso. apply Hx. rewrite <- E. now apply in_map.
  - now apply IH.
Qed.

Lemma nodup_fixed {A} (dec : forall x y : A, {x = y} + {x <> y}) (l : list A) :
  nodup dec l = l -> List.NoDup l.
Proof. intros <-. apply NoDup_nodup. Qed.

Section MapFacts.
Variable europeanCities : list City.t.
Variable trainRoutes : list TrainRoute.t.

Lemma in_getCityRoutes (cityId : string) (route : TrainRoute.t) :
  In route (TrainMap.getCityRoutes trainRoutes cityId) <->
  In route trainRoutes /\
  (TrainRoute.from route = cityId \/ TrainRoute.to route = cityId).
Proof.
  unfold TrainMap.getCityRoutes.
  rewrite filter_In, orb_true_iff, !String.eqb_eq. reflexivity.
Qed.

Lemma isHighlighted_iff (s : TrainMap.state) (route : TrainRoute.t) :
  TrainMap.isHighlighted s route = true <->
  In (TrainRoute.id route) (TrainMap.highlightedRoutes s).
Proof.
  unfold TrainMap.isHighlighted. rewrite existsb_exists. split.
  - intros (x & Hx & E). apply String.eqb_eq in E. now subst.
  - intros H. exists (TrainRoute.id route). split; [assumption | apply String.eqb_refl].
Qed.

End MapFacts.

(** X15. However the user clicks on the map, a city and a route are never
    selected together, and the highlighted routes are those of the
    selection: the routes at the selected city, the one selected route, or
    none when nothing is selected. *)
Theorem selection_invariant (trainRoutes : list TrainRoute.t) (s : TrainMap.state) :
  TrainMap.reachable trainRoutes s ->
  (TrainMap.selectedCity s = None \/ TrainMap.selectedRoute s = None) /\
  TrainMap.highlightedRoutes s =
  match TrainMap.selectedCity s, TrainMap.selectedRoute s with
  | Some city, _ =>
      map TrainRoute.id (TrainMap.getCityRoutes trainRoutes (City.id city))
  | None, Some route => [ TrainRoute.id route ]
  | None, None => []
  end.
Proof.
  induction 1 as [|s e Hs [Hone Hhl] He].
  - split; [now left | reflexivity].
  - destruct e; simpl in *.
    + split; [now right | reflexivity].
    + split; [now left | reflexivity].
    + split; [now left | reflexivity].
    + destruct Hone as [Hc | Hr]; [contradiction|]. rewrite Hr.
      split; [now left | reflexivity].
    + destruct Hone as [Hc | Hr]; [|contradiction]. rewrite Hc.
      split; [now left | reflexivity].
Qed.

Lemma selection_invariant_witness :
  TrainMap.highlightedRoutes
    (TrainMap.handle Routes.trainRoutes (TrainMap.route_click Atlas.milan_rome)
       (TrainMap.handle Routes.trainRoutes (TrainMap.city_click Atlas.milan)
          TrainMap.initial))
  = [ "milan-rome" ].
Proof.
  assert (H : TrainMap.reachable Routes.trainRoutes
                (TrainMap.handle Routes.trainRoutes (TrainMap.route_click Atlas.milan_rome)
                   (TrainMap.handle Routes.trainRoutes (TrainMap.city_click Atlas.milan)
                      TrainMap.initial))).
  { repeat (apply TrainMap.reachable_step; [|exact I]). apply TrainMap.reachable_initial. }
  apply (selection_invariant Routes.trainRoutes _ H).
Defined.

(** X16. When the route ids are unique, as the data test requires, a click
    on a route highlights that route and no other route of the table. *)
Theorem route_click_highlights (trainRoutes : list TrainRoute.t) (s : TrainMap.state)
        (route route' : TrainRoute.t) :
  List.NoDup (map TrainRoute.id trainRoutes) ->
  In route trainRoutes -> In route' trainRoutes ->
  (TrainMap.isHighlighted (TrainMap.handle trainRoutes (TrainMap.route_click route) s) route'
   = true <-> route' = route).
Proof.
  intros Hnd Hr Hr'. rewrite isHighlighted_iff. simpl. split.
  - intros [E | []]. now apply (NoDup_map_eq TrainRoute.id trainRoutes).
  - intros ->. now left.
Qed.

Lemma trainRoutes_ids_unique : List.NoDup (map TrainRoute.id Routes.trainRoutes).
Proof. apply (nodup_fixed string_dec). vm_compute. reflexivity. Qed.

Lemma route_click_highlights_witness :
  TrainMap.isHighlighted
    (TrainMap.handle Routes.trainRoutes (TrainMap.route_click Atlas.milan_rome)
                     TrainMap.initial)
    Atlas.milan_rome = true.
Proof.
  apply (route_click_highlights Routes.trainRoutes TrainMap.initial
           Atlas.milan_rome Atlas.milan_rome).
  - exact trainRoutes_ids_unique.
  - vm_compute. tauto.
  - vm_compute. tauto.
  - reflexivity.
Defined.

(** X17. When the route ids are unique, after a click on a city the blue
    markers are exactly the cities joined to it by a route of the table
    (the city itself among them when it has a route); and the routes drawn
    highlighted are exactly the routes at the city. *)
Theorem city_click_markers (trainRoutes : list TrainRoute.t) (s : TrainMap.state)
        (city : City.t) :
  List.NoDup (map TrainRoute.id trainRoutes) ->
  (forall other,
      TrainMap.blue_marker trainRoutes
        (TrainMap.handle trainRoutes (TrainMap.city_click city) s) other = true <->
      exists route,
        In route trainRoutes /\
        (TrainRoute.from route = City.id city \/ TrainRoute.to route = City.id city) /\
        (TrainRoute.from route = City.id other \/ TrainRoute.to route = City.id other)) /\
  (forall route,
      In route trainRoutes ->
      (TrainMap.isHighlighted
         (TrainMap.handle trainRoutes (TrainMap.city_click city) s) route = true <->
       TrainRoute.from route = City.id city \/ TrainRoute.to route = City.id city)).
Proof.
  intros Hnd.
  assert (Hhl : forall route,
             In route trainRoutes ->
             (TrainMap.isHighlighted
                (TrainMap.handle trainRoutes (TrainMap.city_click city) s) route = true <->
              TrainRoute.from route = City.id city \/ TrainRoute.to route = City.id city)).
  { intros route Hr. rewrite isHighlighted_iff. simpl. rewrite in_map_iff. split.
    - intros (r' & E & Hr'). apply in_getCityRoutes in Hr'. destruct Hr' as [Hin Hinc].
      assert (r' = route) as <- by now apply (NoDup_map_eq TrainRoute.id trainRoutes).
      exact Hinc.
    - intros Hinc. exists route. split; [reflexivity|]. now apply in_getCityRoutes. }
  split; [|exact Hhl].
  intros other. unfold TrainMap.blue_marker.
  rewrite andb_true_iff, Nat.ltb_lt, existsb_exists. split.
  - intros [_ (route & Hr & Hh)]. apply in_getCityRoutes in Hr. destruct Hr as [Hin Hinc].
    exists route. split; [assumption|]. split; [now apply Hhl | assumption].
  - intros (route & Hin & Hc & Ho). split.
    + simpl. rewrite length_map.
      assert (H : In route (TrainMap.getCityRoutes trainRoutes (City.id city)))
        by now apply in_getCityRoutes.
      destruct (TrainMap.getCityRoutes trainRoutes (City.id city)); [contradiction|].
      simpl. lia.
    + exists route. split; [now apply in_getCityRoutes | now apply Hhl].
Qed.

Lemma city_click_markers_witness :
  TrainMap.blue_marker Routes.trainRoutes
    (TrainMap.handle Routes.trainRoutes (TrainMap.city_click Atlas.milan) TrainMap.initial)
    Atlas.rome = true
  /\ TrainMap.blue_marker Routes.trainRoutes
       (TrainMap.handle Routes.trainRoutes (TrainMap.city_click Atlas.milan) TrainMap.initial)
       Atlas.madrid = false.
Proof.
  pose proof (city_click_markers Routes.trainRoutes TrainMap.initial Atlas.milan
                trainRoutes_ids_unique) as [H _].
  split.
  - apply H. exists Atlas.milan_rome. split; [vm_compute; tauto|].
    split; [now left | now right].
  - vm_compute. reflexivity.
Defined.

Section CitiesMap.

Lemma citiesMap_fold_none (l : list City.t) (m : gmap string City.t) (k : string) :
  fold_left (fun m city => <[City.id city := city]> m) l m !! k = None <->
  m !! k = None /\ ~ In k (map City.id l).
Proof.
  revert m. induction l as [|c l IH]; intros m; simpl; [tauto|].
  rewrite IH. destruct (decide (City.id c = k)) as [E | E].
  - rewrite E, lookup_insert_eq. split; [intros [H _]; discriminate | tauto].
  - rewrite lookup_insert_ne by assumption. tauto.
Qed.

Lemma citiesMap_fold_some (l : list City.t) (m : gmap string City.t) (k : string)
      (c : City.t) :
  fold_left (fun m city => <[City.id city := city]> m) l m !! k = Some c ->
  m !! k = Some c \/ (In c l /\ City.id c = k).
Proof.
  revert m. induction l as [|x l IH]; intros m; simpl; [tauto|].
  intros H. apply IH in H. destruct H as [H | [H E]]; [|tauto].
  destruct (decide (City.id x = k)) as [Ex | Ex].
  - rewrite Ex, lookup_insert_eq in H. injection H as <-. tauto.
  - rewrite lookup_insert_ne in H by assumption. tauto.
Qed.

End CitiesMap.

(** X18. getRoutePath gives the two positions of the route's end cities, in
    the order from, to, when both ids belong to cities of the list, and the
    empty path otherwise: a route to an unknown city is drawn as nothing,
    without an error. *)
Theorem getRoutePath_ends (europeanCities : list City.t) (route : TrainRoute.t) :
  (TrainMap.getRoutePath europeanCities route <> [] <->
   In (TrainRoute.from route) (map City.id europeanCities) /\
   In (TrainRoute.to route) (map City.id europeanCities)) /\
  (TrainMap.getRoutePath europeanCities route = [] \/
   exists fromCity toCity,
     In fromCity europeanCities /\ City.id fromCity = TrainRoute.from route /\
     In toCity europeanCities /\ City.id toCity = TrainRoute.to route /\
     TrainMap.getRoutePath europeanCities route =
     [ City.position_of fromCity; City.position_of toCity ]).
Proof.
  unfold TrainMap.getRoutePath, TrainMap.citiesMap.
  pose proof (citiesMap_fold_none europeanCities ∅ (TrainRoute.from route)) as Hf.
  pose proof (citiesMap_fold_none europeanCities ∅ (TrainRoute.to route)) as Ht.
  pose proof (citiesMap_fold_some europeanCities ∅ (TrainRoute.from route)) as Hfs.
  pose proof (citiesMap_fold_some europeanCities ∅ (TrainRoute.to route)) as Hts.
  rewrite lookup_empty in Hf, Ht.
  destruct (fold_left _ europeanCities ∅ !! TrainRoute.from route) as [a|] eqn:Ea;
    destruct (fold_left _ europeanCities ∅ !! TrainRoute.to route) as [b|] eqn:Eb.
  - split.
    + split; [|discriminate]. intros _. split.
      * destruct (in_dec string_dec (TrainRoute.from route) (map City.id europeanCities))
          as [H | H]; [assumption|]. exfalso.
        assert (Some a = None) by (apply Hf; tauto). discriminate.
      * destruct (in_dec string_dec (TrainRoute.to route) (map City.id europeanCities))
          as [H | H]; [assumption|]. exfalso.
        assert (Some b = None) by (apply Ht; tauto). discriminate.
    + right. exists a, b.
      destruct (Hfs a eq_refl) as [H | [H1 H2]]; [rewrite lookup_empty in H; discriminate|].
      destruct (Hts b eq_refl) as [H | [H3 H4]]; [rewrite lookup_empty in H; discriminate|].
      repeat split; assumption.
  - split; [|now left]. split; [congruence|].
    intros [_ H]. exfalso. assert (Hn : ~ In (TrainRoute.to route) (map City.id europeanCities))
      by (apply Ht; reflexivity). contradiction.
  - split; [|now left]. split; [congruence|].
    intros [H _]. exfalso. assert (Hn : ~ In (TrainRoute.from route) (map City.id europeanCities))
      by (apply Hf; reflexivity). contradiction.
  - split; [|now left]. split; [congruence|].
    intros [H _]. exfalso. assert (Hn : ~ In (TrainRoute.from route) (map City.id europeanCities))
      by (apply Hf; reflexivity). contradiction.
Qed.

Example getRoutePath_samples :
  length (TrainMap.getRoutePath Atlas.cities Atlas.milan_rome) = 2%nat /\
  TrainMap.getRoutePath Atlas.cities
    (Routes.route "vienna-prague" "vienna" "prague" "4h 0min" "RailJet") = [].
Proof. split; vm_compute; reflexivity. Qed.

(** X19. The table of routes.ts and the colour table of TrainMap.tsx fit
    each other and the data tests: the route ids are unique and each is the
    from id, a hyphen and the to id of distinct cities; there are more than
    three train types; and every route is drawn in the colour of its train
    type, never in the fallback grey, a colour that the legend shows. *)
Theorem routes_table :
  List.NoDup (map TrainRoute.id Routes.trainRoutes) /\
  (3 < length (distinct (map TrainRoute.trainType Routes.trainRoutes)))%nat /\
  Forall
    (fun route =>
       TrainRoute.id route = (TrainRoute.from route ++ "-" ++ TrainRoute.to route)%string /\
       TrainRoute.from route <> TrainRoute.to route /\
       TrainMap.lookup_color (TrainRoute.trainType route) TrainMap.trainTypeColors
       = Some (TrainMap.color route) /\
       TrainMap.color route <> "#666666" /\
       In (TrainMap.color route) (map snd TrainMap.legend))
    Routes.trainRoutes.
Proof.
  split; [exact trainRoutes_ids_unique|]. split; [vm_compute; lia|].
  unfold Routes.trainRoutes.
  repeat (constructor;
          [vm_compute; repeat split; try discriminate; try reflexivity; tauto|]).
  constructor.
Qed.

Example legend_entries :
  map fst TrainMap.legend =
  [ "Eurostar"; "Thalys"; "TGV"; "ICE"; "EuroCity"; "Frecciarossa"; "AVE"; "RailJet" ].
Proof. vm_compute. reflexivity. Qed.

Section Includes.

Lemma prefix_append (sub s : string) :
  String.prefix sub s = true <-> exists post, s = (sub ++ post)%string.
Proof.
  revert s. induction sub as [|c sub IH]; intros s.
  - split; [intros _; now exists s | intros _; now destruct s].
  - destruct s as [|d s]; simpl.
    + split; [discriminate | intros [post H]; discriminate].
    + destruct (Ascii.ascii_dec c d) as [-> | Hne].
      * rewrite IH. split; intros [post H]; exists post; [now rewrite H | now injection H].
      * split; [discriminate|]. intros [post H]. injection H as E _. congruence.
Qed.

Lemma includes_substring (sub s : string) :
  includes sub s = true <-> exists pre post, s = (pre ++ sub ++ post)%string.
Proof.
  induction s as [|c s IH].
  - cbn [includes]. rewrite orb_false_r, prefix_append. split.
    + intros [post H]. now exists ""%string, post.
    + intros (pre & post & H). destruct pre; [|discriminate]. now exists post.
  - cbn [includes]. rewrite orb_true_iff, prefix_append, IH. split.
    + intros [[post H] | (pre & post & H)].
      * now exists ""%string, post.
      * exists (String c pre), post. simpl. now rewrite H.
    + intros (pre & post & H). destruct pre as [|d pre].
      * left. now exists post.
      * right. exists pre, post. simpl in H. now injection H.
Qed.

End Includes.

(** X20. With a search term that is not empty, the sidebar lists exactly the
    cities one of whose name, country and station, lower-cased, contains the
    lower-cased term as a substring, in the order of the city table. *)
Theorem filteredCities_matches (toLowerCase : string -> string)
        (europeanCities : list City.t) (term : string) (city : City.t) :
  term <> ""%string ->
  (In city (CityList.filteredCities toLowerCase europeanCities term) <->
   In city europeanCities /\
   exists field pre post,
     In field [ City.name city; City.country city; City.station city ] /\
     toLowerCase field = (pre ++ toLowerCase term ++ post)%string) /\
  sublist (CityList.filteredCities toLowerCase europeanCities term) europeanCities.
Proof.
  intros Hne. unfold CityList.filteredCities.
  destruct (String.eqb_spec term ""%string) as [E | _]; [contradiction|].
  split.
  - rewrite filter_In, !orb_true_iff, !includes_substring. split.
    + intros [Hin H]. split; [assumption|].
      destruct H as [[(pre & post & H) | (pre & post & H)] | (pre & post & H)].
      * exists (City.name city), pre, post. simpl. tauto.
      * exists (City.country city), pre, post. simpl. tauto.
      * exists (City.station city), pre, post. simpl. tauto.
    + intros [Hin (field & pre & post & Hf & H)]. split; [assumption|].
      destruct Hf as [<- | [<- | [<- | []]]]; eauto.
  - induction europeanCities as [|c l IH]; [constructor|].
    simpl. destruct (_ || _ || _); [now apply sublist_skip | now apply sublist_cons].
Qed.

Lemma filteredCities_matches_witness :
  In Atlas.zurich
     (CityList.filteredCities Atlas.toLowerCase Atlas.cities "SWITZER") /\
  ~ In Atlas.rome
      (CityList.filteredCities Atlas.toLowerCase Atlas.cities "SWITZER").
Proof.
  assert (Hne : "SWITZER"%string <> ""%string) by discriminate.
  split.
  - apply (proj1 (filteredCities_matches Atlas.toLowerCase Atlas.cities
                    "SWITZER" Atlas.zurich Hne)).
    split; [vm_compute; tauto|].
    exists "Switzerland"%string, ""%string, "land"%string.
    split; [vm_compute; tauto | reflexivity].
  - vm_compute. intros [H | []]. discriminate.
Defined.

(** X21. However the user clicks city headers and types in the search box,
    starting from the first render, the one city whose panel is expanded in
    the sidebar, when there is one, is the selected city; the selected city
    is the last one clicked; and the search box holds the last text typed. *)
Theorem expanded_city_is_selected (events : list CityList.event) :
  let s := CityList.run events CityList.initial in
  (CityList.expandedCity s = None \/
   CityList.expandedCity s = CityList.selectedCityId s) /\
  CityList.selectedCityId s =
  List.last
    (flat_map (fun e => match e with
                        | CityList.header_click city => [ Some (City.id city) ]
                        | CityList.search_input _ => []
                        end) events) None /\
  CityList.searchTerm s =
  List.last
    (flat_map (fun e => match e with
                        | CityList.header_click _ => []
                        | CityList.search_input term => [ term ]
                        end) events) ""%string.
Proof.
  unfold CityList.run. induction events as [|e events IH] using rev_ind.
  - simpl. auto.
  - rewrite fold_left_app, !List.flat_map_app. simpl.
    destruct IH as (Hexp & Hsel & Hterm).
    set (s := fold_left _ events CityList.initial) in *.
    destruct e as [city | term]; simpl; rewrite ?app_nil_r, ?last_last.
    + split; [|split; [reflexivity | assumption]].
      destruct (CityList.expandedCity s) as [x|]; [|now right].
      destruct (String.eqb x (City.id city)); [now left | now right].
    + split; [assumption | split; [assumption | reflexivity]].
Qed.

Example sidebar_double_click :
  CityList.expandedCity
    (CityList.run [ CityList.header_click Atlas.milan;
                    CityList.search_input "ro";
                    CityList.header_click Atlas.rome;
                    CityList.header_click Atlas.rome ] CityList.initial) = None /\
  CityList.selectedCityId
    (CityList.run [ CityList.header_click Atlas.milan;
                    CityList.search_input "ro";
                    CityList.header_click Atlas.rome;
                    CityList.header_click Atlas.rome ] CityList.initial) = Some "rome"%string.
Proof. split; vm_compute; reflexivity. Qed.

(** X22. The sidebar and the map agree on the neighbours of a city: when
    route ids are unique, a city other than the clicked one gets the blue
    marker on the map after a click on a city exactly when the sidebar
    lists it as the destination of one of that city's routes; and the count
    the sidebar shows beside the city is the number of routes the map
    highlights. *)
Theorem sidebar_destinations_on_map (trainRoutes : list TrainRoute.t)
        (s : TrainMap.state) (city other : City.t) :
  List.NoDup (map TrainRoute.id trainRoutes) ->
  City.id other <> City.id city ->
  (TrainMap.blue_marker trainRoutes
     (TrainMap.handle trainRoutes (TrainMap.city_click city) s) other = true <->
   exists route,
     In route (CityList.getCityRoutes trainRoutes (City.id city)) /\
     CityList.destinationId (City.id city) route = City.id other) /\
  CityList.connections_count trainRoutes (City.id city) =
  length (TrainMap.highlightedRoutes
            (TrainMap.handle trainRoutes (TrainMap.city_click city) s)).
Proof.
  intros Hnd Hne. split; [|simpl; now rewrite length_map].
  change (CityList.getCityRoutes trainRoutes (City.id city))
    with (TrainMap.getCityRoutes trainRoutes (City.id city)).
  assert (Hhl : forall route,
             In route (TrainMap.getCityRoutes trainRoutes (City.id city)) ->
             TrainMap.isHighlighted
               (TrainMap.handle trainRoutes (TrainMap.city_click city) s) route = true).
  { intros route Hr. apply isHighlighted_iff. simpl. now apply in_map. }
  unfold TrainMap.blue_marker, CityList.destinationId.
  rewrite andb_true_iff, Nat.ltb_lt, existsb_exists. split.
  - intros [_ (route & Hr & Hh)].
    apply in_getCityRoutes in Hr. destruct Hr as [Hin Ho].
    apply isHighlighted_iff in Hh. simpl in Hh. apply in_map_iff in Hh.
    destruct Hh as (r' & E & Hr').
    assert (r' = route) as ->.
    { apply (NoDup_map_eq TrainRoute.id trainRoutes); try assumption.
      now apply in_getCityRoutes in Hr'. }
    exists route. split; [assumption|].
    apply in_getCityRoutes in Hr'. destruct Hr' as [_ Hc].
    destruct (String.eqb_spec (TrainRoute.from route) (City.id city)) as [Ef | Ef].
    + destruct Ho as [Ho | Ho]; [congruence | assumption].
    + destruct Hc as [Hc | Hc]; [contradiction|].
      destruct Ho as [Ho | Ho]; [assumption | congruence].
  - intros (route & Hr & Hd). split.
    + simpl. rewrite length_map.
      destruct (TrainMap.getCityRoutes trainRoutes (City.id city)); [contradiction|].
      simpl. lia.
    + exists route. split; [|now apply Hhl].
      apply in_getCityRoutes. split; [now apply in_getCityRoutes in Hr|].
      destruct (String.eqb (TrainRoute.from route) (City.id city)); [now right | now left].
Qed.

Lemma sidebar_destinations_on_map_witness :
  TrainMap.blue_marker Routes.trainRoutes
    (TrainMap.handle Routes.trainRoutes (TrainMap.city_click Atlas.milan) TrainMap.initial)
    Atlas.rome = true /\
  CityList.connections_count Routes.trainRoutes "milan" =
  length (TrainMap.highlightedRoutes
            (TrainMap.handle Routes.trainRoutes (TrainMap.city_click Atlas.milan)
               TrainMap.initial)).
Proof.
  assert (Hne : City.id Atlas.rome <> City.id Atlas.milan) by discriminate.
  pose proof (sidebar_destinations_on_map Routes.trainRoutes TrainMap.initial
                Atlas.milan Atlas.rome trainRoutes_ids_unique Hne) as [H Hc].
  split; [|exact Hc].
  apply H. exists Atlas.milan_rome. split; [vm_compute; tauto | reflexivity].
Defined.
